(** * CostVariable: price resolution and table building

    A shallow embedding of [costvariable.py] (CANOE fuel pipeline):
    the lookup helper [_safe_base_from_cost], the price resolver
    [_calc_value] and the table builder [build_costvariable], followed by
    the properties of the three that the specification relies on.

    Modelling conventions.
    - Python [float] is IEEE-754 binary64: Rocq's primitive [float], whose
      literals are rounded to nearest exactly as Python's are, and whose
      multiplication is the hardware one.
    - Python [int] is unbounded: [Z]; the ints of a numeric column are
      within the [int64] range.
    - Python [str] is a [string] of 8-bit characters; [lower] acts on
      [A-Z] and [strip] on the ASCII white space, which is what
      [str.lower] and [str.strip] do on ASCII text.
    - A [dict] is a [gmap] with string keys; subscripting a missing key
      raises [KeyError].
    - A pandas frame is its column index and its rows in order; the dtype
      of a column is read off its cells.
    - The development has two layers.  [build_costvariable] is the pass of
      lines 169-233 on the tables as the loops read them: the raw cost
      table after the casts of lines 158-161 and the metadata frame after
      the clean-up of lines 163-167, as typed rows.
      [build_costvariable_call] is the whole call on the objects that the
      caller hands over, in a store: the copies, the casts, the clean-up,
      the pass and the update of the collection; it is proved to run the
      pass of [build_costvariable].
    - The warning printed by a failed lookup is modelled by
      [_safe_base_from_cost_io] and [_calc_value_io], which return the
      lines written beside the value. *)

From Stdlib Require Import ZArith List Bool Ascii Lia DecimalString.
From Stdlib Require Import Floats.
From stdpp Require Import gmap strings.

Set Warnings "-inexact-float".

(** ** Python strings *)

Module PyStr.

(** [c.lower()] for one character: [A-Z] is shifted to [a-z]. *)
Definition lower_ascii (c : ascii) : ascii :=
  let n := N_of_ascii c in
  if ((65 <=? n) && (n <=? 90))%N then ascii_of_N (n + 32) else c.

(** [s.lower()]. *)
Fixpoint lower (s : string) : string :=
  match s with
  | EmptyString => EmptyString
  | String c t => String (lower_ascii c) (lower t)
  end.

(** [sub in s]: [sub] occurs in [s] as a contiguous substring. *)
Fixpoint contains (sub s : string) : bool :=
  if String.prefix sub s then true
  else match s with
       | EmptyString => false
       | String _ t => contains sub t
       end.

(** [any(x in s for x in subs)]. *)
Definition contains_any (subs : list string) (s : string) : bool :=
  existsb (fun x => contains x s) subs.

(** White space as [str.isspace] sees it in the ASCII range:
    TAB, LF, VT, FF, CR, FS, GS, RS, US and the blank. *)
Definition is_space (c : ascii) : bool :=
  let n := N_of_ascii c in
  (((9 <=? n) && (n <=? 13)) || ((28 <=? n) && (n <=? 32)))%N.

Fixpoint lstrip (s : string) : string :=
  match s with
  | EmptyString => EmptyString
  | String c t => if is_space c then lstrip t else s
  end.

Fixpoint rstrip (s : string) : string :=
  match s with
  | EmptyString => EmptyString
  | String c t =>
      match rstrip t with
      | EmptyString => if is_space c then EmptyString else String c EmptyString
      | t' => String c t'
      end
  end.

(** [s.strip()]. *)
Definition strip (s : string) : string := rstrip (lstrip s).

End PyStr.

Import PyStr.

(** ** Exceptions *)

Inductive exn : Type :=
| KeyError (key : string)
| ValueError.

Inductive result (A : Type) : Type :=
| Ok (a : A)
| Raise (e : exn).

Arguments Ok {A} a.
Arguments Raise {A} e.

#[global] Instance result_ret : MRet result := fun A a => Ok a.
#[global] Instance result_bind : MBind result :=
  fun A B f m => match m with Ok a => f a | Raise e => Raise e end.

(** [d[k]] on a dict. *)
Definition getitem {V : Type} (d : gmap string V) (k : string) : result V :=
  match d !! k with
  | Some v => Ok v
  | None => Raise (KeyError k)
  end.

(** ** The raw cost table *)

Record CostRow : Type := mkCostRow {
  cr_period : Z;
  cr_tech_name : string;
  cr_value : float
}.

(** The boolean mask [(cost_df['period'] == p) & (cost_df['Tech Name'] == n)]. *)
Definition cost_mask (period_val : Z) (tech_name : string) (r : CostRow) : bool :=
  (cr_period r =? period_val)%Z && String.eqb (cr_tech_name r) tech_name.

(** [_safe_base_from_cost]: the value of the first row selected by the mask,
    and [0.0] (after a printed warning) when the selection is empty. *)
Definition _safe_base_from_cost
    (cost_df : list CostRow) (period_val : Z) (tech_name : string) : float :=
  match List.filter (cost_mask period_val tech_name) cost_df with
  | [] => 0%float
  | r :: _ => cr_value r
  end.

(** ** The price resolver *)

Section Resolver.

Variable cost_df : list CostRow.
Variable cfg : gmap string float.
Variables mmbtuconvertor currencyadjustment defl22 defl25 : float.
Variables eth_price rdsl_price spk_price : float.

(** [((base * mmbtuconvertor) * currencyadjustment) * defl]. *)
Definition chain (base defl : float) : float :=
  (((base * mmbtuconvertor) * currencyadjustment) * defl)%float.

Definition _calc_value (tech tech_name : string) (period_val : Z) : result float :=
  let tname_lower := lower tech_name in
  if contains "bio" tname_lower || contains "wood" tname_lower then
    b_price ← getitem cfg "b_price";
    Ok (chain b_price defl22)
  else if contains "u_nat" tname_lower || contains "u_enr" tname_lower then
    u_price ← getitem cfg "u_price";
    Ok (chain u_price defl22)
  else if contains "eth" tname_lower then Ok eth_price
  else if contains "rdsl" tname_lower then Ok rdsl_price
  else if contains "spk" tname_lower then Ok spk_price
  else if contains_any ["lng"; "cng"; "ngl"] tname_lower then
    let proxy := if contains_any ["lng"; "cng"] tname_lower then "T_ng" else "I_prop" in
    let base := _safe_base_from_cost cost_df period_val proxy in
    Ok (chain base defl25 * 0.89)%float
  else if contains "lpg" tname_lower then
    let proxy := if String.eqb tname_lower "f_r_lpg" then "R_prop" else "T_prop" in
    let base := _safe_base_from_cost cost_df period_val proxy in
    Ok (chain base defl25)
  else if contains "e_coal" tname_lower then
    Ok (chain (_safe_base_from_cost cost_df period_val "I_coal") defl25)
  else if contains "e_gsl" tname_lower then
    Ok (chain (_safe_base_from_cost cost_df period_val "T_gsl") defl25)
  else if contains "r_oil" tname_lower then
    Ok (chain (_safe_base_from_cost cost_df period_val "C_oil") defl25)
  else if contains "c_h2" tname_lower || contains "r_h2" tname_lower then
    Ok (chain (_safe_base_from_cost cost_df period_val "I_h2") defl25)
  else if contains "i_pcoke" tname_lower || contains "i_coke" tname_lower then
    Ok (chain (_safe_base_from_cost cost_df period_val "I_coal") defl25)
  else if contains "a_gsl" tname_lower then
    Ok (chain (_safe_base_from_cost cost_df period_val "T_gsl") defl25)
  else if contains "a_ng" tname_lower then
    Ok (chain (_safe_base_from_cost cost_df period_val "I_ng") defl25)
  else if contains "a_dsl" tname_lower then
    Ok (chain (_safe_base_from_cost cost_df period_val "T_dsl") defl25)
  else if contains "a_prop" tname_lower then
    Ok (chain (_safe_base_from_cost cost_df period_val "T_prop") defl25)
  else if contains "mdo" tname_lower then
    Ok (chain (_safe_base_from_cost cost_df period_val "T_dsl") defl25 * 0.9)%float
  else
    Ok (chain (_safe_base_from_cost cost_df period_val tech_name) defl25).

End Resolver.

(** ** Frames and the objects of one build pass *)

(** A cell of a frame: the Python values the builder writes. *)
Inductive cell : Type :=
| CStr (s : string)
| CInt (z : Z)
| CFloat (f : float).

Definition Row : Type := list cell.

Record DataFrame : Type := mkDataFrame {
  columns : list string;
  data : list Row
}.

(** [pd.DataFrame(rows, columns=cols)] on a list of lists: every row must
    have as many entries as there are column labels, else [ValueError].
    The rows of the pass hold cells of one kind per column, so that the
    inference of dtypes leaves them as they are; [pd_DataFrame] below is
    the constructor with the inference. *)
Definition DataFrame_from_rows (rows : list Row) (cols : list string) : result DataFrame :=
  if forallb (fun r => (length r =? length cols)%nat) rows
  then Ok (mkDataFrame cols rows)
  else Raise ValueError.

(** *** Column dtypes

    pandas gives every column of a frame one dtype.  The model reads it
    off the cells: a column of ints is an [int64] column; a column of
    numbers with a float among them is a [float64] column, in which an int
    is held as the float nearest to it; any other column is an [object]
    column, whose cells are kept as they are.  (An [object] column that
    holds numbers only is not told apart from a numeric column.) *)

Definition is_number (c : cell) : bool :=
  match c with CStr _ => false | _ => true end.

Definition is_float (c : cell) : bool :=
  match c with CFloat _ => true | _ => false end.

(** [int64] to [float64]: the nearest float, ties to even. *)
Definition float_of_int (n : Z) : float :=
  SF2Prim (binary_normalize prec emax n 0 false).

Definition to_float64 (c : cell) : cell :=
  match c with CInt n => CFloat (float_of_int n) | _ => c end.

(** The cells of the column at position [j]. *)
Definition column_cells (rows : list Row) (j : nat) : list cell :=
  omap (fun r : list cell => r !! j) rows.

(** The column at position [j] is a [float64] column. *)
Definition promoted (rows : list Row) (j : nat) : bool :=
  forallb is_number (column_cells rows j) && existsb is_float (column_cells rows j).

(** The rows as a frame holds them: ints of [float64] columns as floats. *)
Definition unify_dtypes (rows : list Row) : list Row :=
  map (imap (fun j c => if promoted rows j then to_float64 c else c)) rows.

(** [pd.concat([a, b], ignore_index=True)] for two frames over the same
    column index (the only use in the builder): the columns of [a], the
    rows of [a] followed by those of [b], renumbered, each column under the
    common dtype of its two parts. *)
Definition pd_concat (a b : DataFrame) : DataFrame :=
  mkDataFrame (columns a) (unify_dtypes (data a ++ data b)).

(** A row of the fuel metadata table, restricted to the columns read. *)
Record FuelRow : Type := mkFuelRow {
  fr_Commodity : string;
  fr_notes : string;
  fr_source : string
}.

(** Everything the caller hands to [build_costvariable]; the builder is a
    transition on this record. *)
Record World : Type := mkWorld {
  comb_dict : gmap string DataFrame;
  cost_df : list CostRow;
  tech_list : list string;
  mapping : gmap string (gmap string string);
  province_list : list string;
  periods : list Z;
  dict_id : gmap string string;
  factors : gmap string float;
  fuel_df : list FuelRow;
  cfg : gmap string float
}.

(** ** The table builder *)

(** A [for] loop whose body extends the accumulated [rows]; an exception
    in the body leaves the loop at once. *)
Fixpoint for_in {A : Type} (xs : list A)
    (body : A -> list Row -> result (list Row)) (rows : list Row) : result (list Row) :=
  match xs with
  | [] => Ok rows
  | x :: xs' => rows' ← body x rows; for_in xs' body rows'
  end.

(** [any(x in tech for x in ['F_IMP', 'ELC', 'OTH'])]. *)
Definition excluded (tech : string) : bool :=
  contains_any ["F_IMP"; "ELC"; "OTH"] tech.

(** Lines 206-212: notes and source of the first metadata row whose
    [Commodity] is the technical name, empty strings when there is none. *)
Definition fuel_notes (fuel : list FuelRow) (tech_name : string) : string * string :=
  match List.filter (fun r => String.eqb (fr_Commodity r) tech_name) fuel with
  | [] => ("", "")
  | r :: _ => (fr_notes r, fr_source r)
  end.

(** Lines 184-221: the body of the innermost loop, past the exclusion test. *)
Definition price_row (w : World) (pro : string) (vint per : Z) (tech : string) : result Row :=
  entry ← getitem (mapping w) tech;
  output ← getitem entry "output";
  let tech_name := strip output in
  mmbtuconvertor ← getitem (factors w) "mmbtuconvertor";
  currencyadjustment ← getitem (factors w) "currencyadjustment";
  defl22 ← getitem (factors w) "deflation_2022";
  defl25 ← getitem (factors w) "deflation_2025";
  eth_price ← getitem (factors w) "eth_price";
  rdsl_price ← getitem (factors w) "rdsl_price";
  spk_price ← getitem (factors w) "spk_price";
  val ← _calc_value (cost_df w) (cfg w) mmbtuconvertor currencyadjustment defl22 defl25
          eth_price rdsl_price spk_price tech tech_name per;
  let unit := "2020 M$/PJ" in
  let '(notes, ref) := fuel_notes (fuel_df w) tech_name in
  data_id ← getitem (dict_id w) pro;
  Ok [CStr pro; CInt per; CStr tech; CInt vint; CFloat val; CStr unit;
      CStr notes; CStr ref; CInt 2; CInt 3; CInt 2; CInt 1; CInt 1;
      CStr data_id].

Definition tech_body (w : World) (pro : string) (vint per : Z)
    (tech : string) (rows : list Row) : result (list Row) :=
  if excluded tech then Ok rows
  else row ← price_row w pro vint per tech; Ok (rows ++ [row]).

Definition per_body (w : World) (pro : string) (vint : Z)
    (per : Z) (rows : list Row) : result (list Row) :=
  if (per <? vint)%Z then Ok rows
  else for_in (tech_list w) (tech_body w pro vint per) rows.

Definition vint_body (w : World) (pro : string)
    (vint : Z) (rows : list Row) : result (list Row) :=
  for_in (periods w) (per_body w pro vint) rows.

Definition pro_body (w : World) (pro : string) (rows : list Row) : result (list Row) :=
  if String.eqb pro "CAN" then Ok rows
  else for_in (periods w) (vint_body w pro) rows.

(** Lines 169-221: the enumeration, from [rows = []]. *)
Definition build_rows (w : World) : result (list Row) :=
  for_in (province_list w) (pro_body w) [].

Definition set_comb_dict (w : World) (d : gmap string DataFrame) : World :=
  mkWorld d (cost_df w) (tech_list w) (mapping w) (province_list w)
    (periods w) (dict_id w) (factors w) (fuel_df w) (cfg w).

(** [build_costvariable], lines 169-233, on the normalised tables: the
    objects after the pass, and what is returned (the dict that was given)
    or raised.  The whole call, with the copies, casts and clean-up of
    lines 158-167, is [build_costvariable_call] below. *)
Definition build_costvariable (w : World) : World * result (gmap string DataFrame) :=
  match build_rows w with
  | Raise e => (w, Raise e)
  | Ok [] => (w, Ok (comb_dict w))
  | Ok rows =>
      match getitem (comb_dict w) "CostVariable" with
      | Raise e => (w, Raise e)
      | Ok old =>
          match DataFrame_from_rows rows (columns old) with
          | Raise e => (w, Raise e)
          | Ok new_df =>
              let d := <["CostVariable" := pd_concat old new_df]> (comb_dict w) in
              (set_comb_dict w d, Ok d)
          end
      end
  end.

(** ** The cascade as the specification words it

    An ordered table of rules, each a set of tokens and a category; the
    first rule one of whose tokens occurs in the lower-cased technical name
    wins, and [Default] is the answer when none does. *)

Inductive category : Type :=
| Biomass | Uranium | Ethanol | RenewableDiesel | SyntheticFuel
| LngCngNgl | Lpg | ECoal | EGsl | ROil | Hydrogen | Coke
| AGsl | ANg | ADsl | AProp | Mdo | Default.

Definition rule_table : list (list string * category) :=
  [ (["bio"; "wood"], Biomass);
    (["u_nat"; "u_enr"], Uranium);
    (["eth"], Ethanol);
    (["rdsl"], RenewableDiesel);
    (["spk"], SyntheticFuel);
    (["lng"; "cng"; "ngl"], LngCngNgl);
    (["lpg"], Lpg);
    (["e_coal"], ECoal);
    (["e_gsl"], EGsl);
    (["r_oil"], ROil);
    (["c_h2"; "r_h2"], Hydrogen);
    (["i_pcoke"; "i_coke"], Coke);
    (["a_gsl"], AGsl);
    (["a_ng"], ANg);
    (["a_dsl"], ADsl);
    (["a_prop"], AProp);
    (["mdo"], Mdo) ].

Fixpoint first_match (rules : list (list string * category)) (tname_lower : string) : category :=
  match rules with
  | [] => Default
  | (tokens, c) :: rest =>
      if contains_any tokens tname_lower then c else first_match rest tname_lower
  end.

(** The category of a technical name. *)
Definition categorize (tech_name : string) : category :=
  first_match rule_table (lower tech_name).

Section Strategy.

Variable cost_df : list CostRow.
Variable cfg : gmap string float.
Variables mmbtuconvertor currencyadjustment defl22 defl25 : float.
Variables eth_price rdsl_price spk_price : float.

Let chain := chain mmbtuconvertor currencyadjustment.

(** The price of a proxy (or of the name itself) at the period, through
    the BTU, currency and 2025-deflator chain. *)
Definition proxied (period_val : Z) (name : string) : float :=
  chain (_safe_base_from_cost cost_df period_val name) defl25.

(** The resolution strategy of each category (items 1-18 of the cascade). *)
Definition price_of (c : category) (tech_name : string) (period_val : Z) : result float :=
  match c with
  | Biomass => b ← getitem cfg "b_price"; Ok (chain b defl22)
  | Uranium => u ← getitem cfg "u_price"; Ok (chain u defl22)
  | Ethanol => Ok eth_price
  | RenewableDiesel => Ok rdsl_price
  | SyntheticFuel => Ok spk_price
  | LngCngNgl =>
      let proxy :=
        if contains "lng" (lower tech_name) || contains "cng" (lower tech_name)
        then "T_ng" else "I_prop" in
      Ok (proxied period_val proxy * 0.89)%float
  | Lpg =>
      let proxy := if String.eqb (lower tech_name) "f_r_lpg" then "R_prop" else "T_prop" in
      Ok (proxied period_val proxy)
  | ECoal => Ok (proxied period_val "I_coal")
  | EGsl => Ok (proxied period_val "T_gsl")
  | ROil => Ok (proxied period_val "C_oil")
  | Hydrogen => Ok (proxied period_val "I_h2")
  | Coke => Ok (proxied period_val "I_coal")
  | AGsl => Ok (proxied period_val "T_gsl")
  | ANg => Ok (proxied period_val "I_ng")
  | ADsl => Ok (proxied period_val "T_dsl")
  | AProp => Ok (proxied period_val "T_prop")
  | Mdo => Ok (proxied period_val "T_dsl" * 0.9)%float
  | Default => Ok (proxied period_val tech_name)
  end.

End Strategy.

(** ** The enumeration as the specification words it

    The keys [(region, period, technology, vintage)] of the combinations
    that survive the three filters, in enumeration order: region, then
    vintage, then period, then technology. *)

Definition key : Type := string * Z * string * Z.

Definition combos (provinces : list string) (pers : list Z) (techs : list string) : list key :=
  pro ← provinces;
  if String.eqb pro "CAN" then [] else
  vint ← pers;
  per ← pers;
  if (per <? vint)%Z then [] else
  tech ← techs;
  if excluded tech then [] else [(pro, per, tech, vint)].

(** The key columns of a row: its first four cells. *)
Definition row_key (r : Row) : option key :=
  match r with
  | CStr pro :: CInt per :: CStr tech :: CInt vint :: _ => Some (pro, per, tech, vint)
  | _ => None
  end.

(** Number of rows of a list that carry the key [k]. *)
Definition count_key (k : key) (rows : list Row) : nat :=
  length (List.filter (fun r => bool_decide (row_key r = Some k)) rows).

(** The name whose price a category looks up in the raw cost table: a proxy,
    the technical name itself for [Default], none for the categories priced
    from the configuration or at a fixed external price. *)
Definition lookup_key (c : category) (tech_name : string) : option string :=
  match c with
  | Biomass | Uranium | Ethanol | RenewableDiesel | SyntheticFuel => None
  | LngCngNgl =>
      Some (if contains "lng" (lower tech_name) || contains "cng" (lower tech_name)
            then "T_ng" else "I_prop")
  | Lpg => Some (if String.eqb (lower tech_name) "f_r_lpg" then "R_prop" else "T_prop")
  | ECoal | Coke => Some "I_coal"
  | EGsl | AGsl => Some "T_gsl"
  | ROil => Some "C_oil"
  | Hydrogen => Some "I_h2"
  | ANg => Some "I_ng"
  | ADsl | Mdo => Some "T_dsl"
  | AProp => Some "T_prop"
  | Default => Some tech_name
  end.

(** ** Tests on floats *)

(** [x >= 0]. *)
Definition nonneg (x : float) : bool := (0 <=? x)%float.

(** [x < 0]. *)
Definition negative (x : float) : bool := (x <? 0)%float.

(** A non-negative finite number: [x >= 0 and math.isfinite(x)]. *)
Definition good (x : float) : Prop := nonneg x = true /\ is_finite x = true.

(** ** The enumeration, one emission per combination

    The same loops with each body returning the rows it adds; used to
    reason about [for_in], to which it is proved equal. *)

Fixpoint gather {A : Type} (xs : list A) (emit : A -> result (list Row)) : result (list Row) :=
  match xs with
  | [] => Ok []
  | x :: xs' => r ← emit x; rs ← gather xs' emit; Ok (r ++ rs)
  end.

Definition emit_tech (w : World) (pro : string) (vint per : Z) (tech : string) : result (list Row) :=
  if excluded tech then Ok [] else row ← price_row w pro vint per tech; Ok [row].

Definition emit_per (w : World) (pro : string) (vint per : Z) : result (list Row) :=
  if (per <? vint)%Z then Ok [] else gather (tech_list w) (emit_tech w pro vint per).

Definition emit_vint (w : World) (pro : string) (vint : Z) : result (list Row) :=
  gather (periods w) (emit_per w pro vint).

Definition emit_pro (w : World) (pro : string) : result (list Row) :=
  if String.eqb pro "CAN" then Ok [] else gather (periods w) (emit_vint w pro).

(** ** Inputs on which no subscript of the pass can fail *)

(** The keys of [factors] that the builder reads. *)
Definition factor_keys : list string :=
  ["mmbtuconvertor"; "currencyadjustment"; "deflation_2022"; "deflation_2025";
   "eth_price"; "rdsl_price"; "spk_price"].

(** Every priced technology has a name mapping with an "output" entry, the
    seven factors and both configuration prices are present, and every
    priced region has an identifier. *)
Definition inputs_ok (w : World) : Prop :=
  (forall tech, tech ∈ tech_list w -> excluded tech = false ->
     exists entry, mapping w !! tech = Some entry /\ is_Some (entry !! "output"))
  /\ (forall k, k ∈ factor_keys -> is_Some (factors w !! k))
  /\ (forall pro, pro ∈ province_list w -> pro <> "CAN" -> is_Some (dict_id w !! pro))
  /\ is_Some (cfg w !! "b_price") /\ is_Some (cfg w !! "u_price").

(** ** Auxiliary notions of the statements *)

(** The levels of [combos], one per loop. *)
Definition keys_tech (pro : string) (vint per : Z) (tech : string) : list key :=
  if excluded tech then [] else [(pro, per, tech, vint)].

Definition keys_per (techs : list string) (pro : string) (vint per : Z) : list key :=
  if (per <? vint)%Z then [] else techs ≫= keys_tech pro vint per.

Definition keys_vint (pers : list Z) (techs : list string) (pro : string) (vint : Z) : list key :=
  pers ≫= keys_per techs pro vint.

Definition keys_pro (pers : list Z) (techs : list string) (pro : string) : list key :=
  if String.eqb pro "CAN" then [] else pers ≫= keys_vint pers techs pro.

(** A combination that the three filters let through. *)
Definition valid_combo (w : World) (k : key) : Prop :=
  let '(pro, per, tech, vint) := k in
  pro ∈ province_list w /\ pro <> "CAN"
  /\ vint ∈ periods w /\ per ∈ periods w /\ (vint <= per)%Z
  /\ tech ∈ tech_list w /\ excluded tech = false.

(** No row of the table is selected by the mask for [(period, name)]. *)
Definition no_row (table : list CostRow) (period_val : Z) (name : string) : Prop :=
  forall r, r ∈ table -> ~ (cr_period r = period_val /\ cr_tech_name r = name).

(** The tokens of the rules above the LPG rule. *)
Definition above_lpg : list string :=
  ["bio"; "wood"; "u_nat"; "u_enr"; "eth"; "rdsl"; "spk"; "lng"; "cng"; "ngl"].

(** Not negative, on the specification side: a zero of either sign, a
    positive number, plus infinity, or NaN. *)
Definition sf_not_neg (s : spec_float) : Prop :=
  match s with
  | S754_infinity true | S754_finite true _ _ => False
  | _ => True
  end.

Definition sf_zero (s : spec_float) : Prop :=
  match s with S754_zero _ => True | _ => False end.

Definition sf_finite (s : spec_float) : Prop :=
  match s with S754_zero _ | S754_finite _ _ _ => True | _ => False end.

(** A computation that can only raise [KeyError]. *)
Definition key_errors_only {A : Type} (m : result A) : Prop :=
  forall e, m = Raise e -> exists k, e = KeyError k.

(** ** Sample inputs

    Small inputs on which the statements below are exercised. *)

Definition costvariable_columns : list string :=
  ["region"; "period"; "tech"; "vintage"; "value"; "unit"; "notes"; "source";
   "dq_cred"; "dq_geo"; "dq_str"; "dq_tech"; "dq_time"; "data_id"].

Definition sample_factors : gmap string float :=
  list_to_map
    [("mmbtuconvertor", 1.1%float); ("currencyadjustment", 1.05%float);
     ("deflation_2022", 0.9%float); ("deflation_2025", 0.95%float);
     ("eth_price", 20%float); ("rdsl_price", 30%float); ("spk_price", 40%float)].

Definition sample_prior_row : Row :=
  [CStr "QC"; CInt 2020; CStr "OLD"; CInt 2020; CFloat 1; CStr "2020 M$/PJ";
   CStr ""; CStr ""; CInt 2; CInt 3; CInt 2; CInt 1; CInt 1; CStr "FUELQC1"].

(** A well-formed input: one priced region besides "CAN", two periods, a
    diesel technology, an excluded one and one with a lower-case marker. *)
Definition sample_world : World :=
  {| comb_dict :=
       {[ "CostVariable" := mkDataFrame costvariable_columns [sample_prior_row];
          "Efficiency" := mkDataFrame ["region"; "efficiency"] [[CStr "ON"; CInt 1]] ]};
     cost_df := [mkCostRow 2030 "T_dsl" 10];
     tech_list := ["T_DSL"; "R_ELC"; "r_elc"];
     mapping := {[ "T_DSL" := {[ "output" := " T_dsl " ]};
                   "r_elc" := {[ "output" := "R_elc" ]} ]};
     province_list := ["CAN"; "ON"];
     periods := [2025%Z; 2030%Z];
     dict_id := {[ "ON" := "FUELON1" ]};
     factors := sample_factors;
     fuel_df := [mkFuelRow "T_dsl" "transport diesel" "AEO"];
     cfg := {[ "b_price" := 2%float; "u_price" := 5%float ]} |}.

(** The same with the region "ON" listed twice. *)
Definition repeated_region_world : World :=
  mkWorld (comb_dict sample_world) (cost_df sample_world) ["T_DSL"]
    (mapping sample_world) ["ON"; "ON"] [2030%Z] (dict_id sample_world)
    (factors sample_world) (fuel_df sample_world) (cfg sample_world).

(** A technology without a name mapping, and only the region "CAN". *)
Definition unmapped_unreached_world : World :=
  mkWorld (comb_dict sample_world) (cost_df sample_world) ["T_DSL"]
    ∅ ["CAN"] [2030%Z] ∅
    (factors sample_world) (fuel_df sample_world) (cfg sample_world).

(** A region without an identifier, and only an excluded technology. *)
Definition unidentified_unreached_world : World :=
  mkWorld (comb_dict sample_world) (cost_df sample_world) ["R_ELC"]
    (mapping sample_world) ["ON"] [2030%Z] ∅
    (factors sample_world) (fuel_df sample_world) (cfg sample_world).

(** A reached technology without a name mapping. *)
Definition unmapped_world : World :=
  mkWorld (comb_dict sample_world) (cost_df sample_world) ["T_DSL"; "T_GSL"]
    (mapping sample_world) ["ON"] [2030%Z] (dict_id sample_world)
    (factors sample_world) (fuel_df sample_world) (cfg sample_world).

(** ** The resolver with its standard output

    [_safe_base_from_cost] and [_calc_value] once more, this time with the
    lines they print: the value computed and the lines written, in order. *)

(** [str(n)] for an [int]: decimal digits, a minus sign when negative. *)
Definition str_of_int (n : Z) : string := NilZero.string_of_int (Z.to_int n).

(** The line printed at lines 23-24. *)
Definition warning_line (tech_name : string) (period_val : Z) (warn_label : string) : string :=
  "[CostVariable] WARNING: No base price for '" +:+ tech_name
  +:+ "' in period " +:+ str_of_int period_val
  +:+ " (needed by " +:+ warn_label +:+ "). Returning 0.".

Definition _safe_base_from_cost_io
    (cost_df : list CostRow) (period_val : Z) (tech_name warn_label : string)
    : float * list string :=
  match List.filter (cost_mask period_val tech_name) cost_df with
  | [] => (0%float, [warning_line tech_name period_val warn_label])
  | r :: _ => (cr_value r, [])
  end.

Section ResolverIO.

Variable cost_df : list CostRow.
Variable cfg : gmap string float.
Variables mmbtuconvertor currencyadjustment defl22 defl25 : float.
Variables eth_price rdsl_price spk_price : float.

Let chain := chain mmbtuconvertor currencyadjustment.

(** A branch that looks [proxy] up and scales the base by [scale]. *)
Definition looked_up (period_val : Z) (proxy warn_label : string)
    (scale : float -> float) : result float * list string :=
  let '(base, out) := _safe_base_from_cost_io cost_df period_val proxy warn_label in
  (Ok (scale base), out).

Definition _calc_value_io (tech tech_name : string) (period_val : Z)
    : result float * list string :=
  let tname_lower := lower tech_name in
  let plain base := chain base defl25 in
  if contains "bio" tname_lower || contains "wood" tname_lower then
    (b_price ← getitem cfg "b_price"; Ok (chain b_price defl22), [])
  else if contains "u_nat" tname_lower || contains "u_enr" tname_lower then
    (u_price ← getitem cfg "u_price"; Ok (chain u_price defl22), [])
  else if contains "eth" tname_lower then (Ok eth_price, [])
  else if contains "rdsl" tname_lower then (Ok rdsl_price, [])
  else if contains "spk" tname_lower then (Ok spk_price, [])
  else if contains_any ["lng"; "cng"; "ngl"] tname_lower then
    let proxy := if contains_any ["lng"; "cng"] tname_lower then "T_ng" else "I_prop" in
    looked_up period_val proxy (tech_name +:+ " (lng/cng/ngl proxy)")
      (fun base => chain base defl25 * 0.89)%float
  else if contains "lpg" tname_lower then
    let proxy := if String.eqb tname_lower "f_r_lpg" then "R_prop" else "T_prop" in
    looked_up period_val proxy (tech_name +:+ " (lpg proxy)") plain
  else if contains "e_coal" tname_lower then
    looked_up period_val "I_coal" (tech_name +:+ " (E_coal→I_coal)") plain
  else if contains "e_gsl" tname_lower then
    looked_up period_val "T_gsl" (tech_name +:+ " (E_gsl→T_gsl)") plain
  else if contains "r_oil" tname_lower then
    looked_up period_val "C_oil" (tech_name +:+ " (R_oil→C_oil)") plain
  else if contains "c_h2" tname_lower || contains "r_h2" tname_lower then
    looked_up period_val "I_h2" (tech_name +:+ " (H2→I_h2)") plain
  else if contains "i_pcoke" tname_lower || contains "i_coke" tname_lower then
    looked_up period_val "I_coal" (tech_name +:+ " (coke→I_coal)") plain
  else if contains "a_gsl" tname_lower then
    looked_up period_val "T_gsl" (tech_name +:+ " (A_gsl→T_gsl)") plain
  else if contains "a_ng" tname_lower then
    looked_up period_val "I_ng" (tech_name +:+ " (A_ng→I_ng)") plain
  else if contains "a_dsl" tname_lower then
    looked_up period_val "T_dsl" (tech_name +:+ " (A_dsl→T_dsl)") plain
  else if contains "a_prop" tname_lower then
    looked_up period_val "T_prop" (tech_name +:+ " (A_prop→T_prop)") plain
  else if contains "mdo" tname_lower then
    looked_up period_val "T_dsl" (tech_name +:+ " (MDO→0.9*T_dsl)")
      (fun base => chain base defl25 * 0.9)%float
  else
    looked_up period_val tech_name (tech_name +:+ " (direct)") plain.

End ResolverIO.

(** The text in brackets that the warning of a category ends its label with. *)
Definition label_suffix (c : category) : string :=
  match c with
  | LngCngNgl => " (lng/cng/ngl proxy)"
  | Lpg => " (lpg proxy)"
  | ECoal => " (E_coal→I_coal)"
  | EGsl => " (E_gsl→T_gsl)"
  | ROil => " (R_oil→C_oil)"
  | Hydrogen => " (H2→I_h2)"
  | Coke => " (coke→I_coal)"
  | AGsl => " (A_gsl→T_gsl)"
  | ANg => " (A_ng→I_ng)"
  | ADsl => " (A_dsl→T_dsl)"
  | AProp => " (A_prop→T_prop)"
  | Mdo => " (MDO→0.9*T_dsl)"
  | Default => " (direct)"
  | Biomass | Uranium | Ethanol | RenewableDiesel | SyntheticFuel => ""
  end.

(** ** The enumeration as one traversal

    Pricing a list of combinations one after the other, stopping at the
    first that raises. *)

Definition price_key (w : World) (k : key) : result Row :=
  let '(pro, per, tech, vint) := k in price_row w pro vint per tech.

Fixpoint price_all (f : key -> result Row) (ks : list key) : result (list Row) :=
  match ks with
  | [] => Ok []
  | k :: ks' => r ← f k; rs ← price_all f ks'; Ok (r :: rs)
  end.

(** The price of a display name at a period with the factors of [w]: the
    subscripts of [factors] and the call of lines 188-201. *)
Definition value_of (w : World) (tech tech_name : string) (per : Z) : result float :=
  mmbtuconvertor ← getitem (factors w) "mmbtuconvertor";
  currencyadjustment ← getitem (factors w) "currencyadjustment";
  defl22 ← getitem (factors w) "deflation_2022";
  defl25 ← getitem (factors w) "deflation_2025";
  eth_price ← getitem (factors w) "eth_price";
  rdsl_price ← getitem (factors w) "rdsl_price";
  spk_price ← getitem (factors w) "spk_price";
  _calc_value (cost_df w) (cfg w) mmbtuconvertor currencyadjustment defl22 defl25
    eth_price rdsl_price spk_price tech tech_name per.

(** The pairs (vintage, period) with period >= vintage, in loop order. *)
Definition vintage_period_pairs (pers : list Z) : list (Z * Z) :=
  vint ← pers; per ← pers; if (per <? vint)%Z then [] else [(vint, per)].

(** The sample input without a "CostVariable" table. *)
Definition no_table_world : World :=
  set_comb_dict sample_world
    {[ "Efficiency" := mkDataFrame ["region"; "efficiency"] [[CStr "ON"; CInt 1]] ]}.

(** The sample input with a "CostVariable" table of two columns. *)
Definition narrow_table_world : World :=
  set_comb_dict sample_world
    {[ "CostVariable" := mkDataFrame ["region"; "value"] [] ]}.

(** ** The fuel metadata frame before its clean-up

    Lines 163-167 and 205-212 on a frame as it is handed over: any column
    labels, possibly repeated, any cells. *)

(** Every row has one cell per column, as in any pandas frame. *)
Definition frame_ok (df : DataFrame) : Prop :=
  Forall (fun r : Row => length r = length (columns df)) (data df).

(** [cols.duplicated()]: a label is marked when it has occurred before. *)
Fixpoint duplicated_from (seen cols : list string) : list bool :=
  match cols with
  | [] => []
  | c :: cols' => existsb (String.eqb c) seen :: duplicated_from (c :: seen) cols'
  end.

Definition duplicated (cols : list string) : list bool := duplicated_from [] cols.

(** Selection by position of what the mask does not mark. *)
Fixpoint drop_marked {A : Type} (mask : list bool) (xs : list A) : list A :=
  match mask, xs with
  | m :: mask', x :: xs' =>
      if m then drop_marked mask' xs' else x :: drop_marked mask' xs'
  | _, _ => []
  end.

(** [df.loc[:, ~df.columns.duplicated()].copy()]. *)
Definition drop_duplicate_columns (df : DataFrame) : DataFrame :=
  let mask := duplicated (columns df) in
  mkDataFrame (drop_marked mask (columns df)) (map (drop_marked mask) (data df)).

(** [if col not in df.columns: df[col] = ""]. *)
Definition ensure_column (col : string) (df : DataFrame) : DataFrame :=
  if existsb (String.eqb col) (columns df) then df
  else mkDataFrame (columns df ++ [col]) (map (fun r => r ++ [CStr ""]) (data df)).

(** Lines 164-167. *)
Definition clean_fuel_df (df : DataFrame) : DataFrame :=
  fold_left (fun d col => ensure_column col d) ["Commodity"; "notes"; "source"]
    (drop_duplicate_columns df).

(** Position of the first column with a label. *)
Fixpoint column_index (col : string) (cols : list string) : option nat :=
  match cols with
  | [] => None
  | c :: cols' => if String.eqb c col then Some 0%nat else S <$> column_index col cols'
  end.

(** The cell of a row under a label. *)
Definition cell_of (cols : list string) (col : string) (r : Row) : option cell :=
  i ← column_index col cols; r !! i.

(** [cell == s] for a string [s]: only a string cell can be equal to it. *)
Definition cell_is (s : string) (c : cell) : bool :=
  match c with
  | CStr t => String.eqb t s
  | _ => false
  end.

(** [df['Commodity'] == tech_name], row by row. *)
Definition commodity_is (df : DataFrame) (tech_name : string) (r : Row) : bool :=
  match cell_of (columns df) "Commodity" r with
  | Some c => cell_is tech_name c
  | None => false
  end.

(** Lines 206-212 on the cleaned frame: the notes and source cells of the
    first row whose Commodity is the name, empty strings without one. *)
Definition fuel_lookup (df : DataFrame) (tech_name : string) : cell * cell :=
  match List.filter (commodity_is df tech_name) (data df) with
  | [] => (CStr "", CStr "")
  | r :: _ =>
      (default (CStr "") (cell_of (columns df) "notes" r),
       default (CStr "") (cell_of (columns df) "source" r))
  end.

(** The typed rows of a frame whose three metadata columns hold strings. *)
Definition fuel_row_of (cols : list string) (r : Row) : option FuelRow :=
  match cell_of cols "Commodity" r, cell_of cols "notes" r, cell_of cols "source" r with
  | Some (CStr c), Some (CStr n), Some (CStr s) => Some (mkFuelRow c n s)
  | _, _, _ => None
  end.

Definition text_frame (df : DataFrame) : Prop :=
  Forall (fun r => is_Some (fuel_row_of (columns df) r)) (data df).

Definition fuel_rows_of (df : DataFrame) : list FuelRow :=
  omap (fuel_row_of (columns df)) (data df).

(** What the clean-up keeps, after the labels in [processed] were ensured:
    aligned rows, distinct labels (those of [df0] and the processed ones),
    as many rows, and under every label the cell that [df0] shows under it,
    or the empty string under a processed label that [df0] lacks. *)
Definition cleaned_from (df0 df : DataFrame) (processed : list string) : Prop :=
  frame_ok df
  /\ NoDup (columns df)
  /\ length (data df) = length (data df0)
  /\ (forall c, c ∈ columns df <-> c ∈ columns df0 \/ c ∈ processed)
  /\ (forall i r, data df0 !! i = Some r ->
      exists r', data df !! i = Some r'
        /\ forall col,
            cell_of (columns df) col r'
            = if bool_decide (col ∈ columns df0) then cell_of (columns df0) col r
              else if bool_decide (col ∈ processed) then Some (CStr "")
              else None).

(** A frame with a repeated label and without a "source" column. *)
Definition sample_fuel_frame : DataFrame :=
  mkDataFrame ["Commodity"; "notes"; "Commodity"; "year"]
    [[CStr "T_dsl"; CStr "diesel"; CStr "other"; CInt 2020];
     [CStr "T_gsl"; CFloat nan; CStr "T_dsl"; CInt 2021]].

(** ** Notions for the statements on strings and subscripts *)

(** A string of white space only. *)
Fixpoint all_space (s : string) : bool :=
  match s with
  | EmptyString => true
  | String c t => is_space c && all_space t
  end.

Definition first_char (s : string) : option ascii :=
  match s with
  | EmptyString => None
  | String c _ => Some c
  end.

Fixpoint last_char (s : string) : option ascii :=
  match s with
  | EmptyString => None
  | String c EmptyString => Some c
  | String _ t => last_char t
  end.

(** Text within the ASCII range, the text on which [lower] and [strip]
    are [str.lower] and [str.strip]. *)
Fixpoint ascii_text (s : string) : bool :=
  match s with
  | EmptyString => true
  | String c t => (N_of_ascii c <? 128)%N && ascii_text t
  end.

(** The first key of a list that a dict lacks. *)
Definition first_missing {V : Type} (ks : list string) (d : gmap string V) : option string :=
  List.find (fun k => negb (bool_decide (is_Some (d !! k)))) ks.

(** ** The product a category computes

    Every price is a base price multiplied, left to right, by the factors
    of its category; the fixed external prices have no factor. *)

(** [((b * f1) * f2) * ...]. *)
Definition product (b : float) (fs : list float) : float :=
  fold_left PrimFloat.mul fs b.

(** The factors of a category, in the order of the multiplications. *)
Definition factors_of (c : category) (mm ca d22 d25 : float) : list float :=
  match c with
  | Biomass | Uranium => [mm; ca; d22]
  | Ethanol | RenewableDiesel | SyntheticFuel => []
  | LngCngNgl => [mm; ca; d25; 0.89%float]
  | Mdo => [mm; ca; d25; 0.9%float]
  | _ => [mm; ca; d25]
  end.

(** The base price of a category: a configuration price, a fixed external
    price, or the raw price looked up under the key of the category. *)
Definition base_of (cost_df : list CostRow) (cfg : gmap string float)
    (eth rdsl spk : float) (c : category) (tech_name : string) (period_val : Z)
    : result float :=
  match c with
  | Biomass => getitem cfg "b_price"
  | Uranium => getitem cfg "u_price"
  | Ethanol => Ok eth
  | RenewableDiesel => Ok rdsl
  | SyntheticFuel => Ok spk
  | _ =>
      Ok (_safe_base_from_cost cost_df period_val
            (default tech_name (lookup_key c tech_name)))
  end.

(** A multiplication of the chain overflows: the product so far is finite
    and its product with the next factor is plus infinity. *)
Definition overflow (b : float) (fs : list float) : Prop :=
  exists pre f post,
    fs = pre ++ f :: post
    /\ is_finite (product b pre) = true
    /\ (product b pre * f)%float = infinity.

(** An overflowed product meets a zero factor. *)
Definition zero_after_overflow (b : float) (fs : list float) : Prop :=
  exists pre f post,
    fs = pre ++ f :: post /\ product b pre = infinity /\ is_zero f = true.

(** A zero of either sign or a positive finite number, on the
    specification side. *)
Definition sf_good (s : spec_float) : Prop :=
  match s with
  | S754_zero _ | S754_finite false _ _ => True
  | _ => False
  end.

(** ** The kinds of the cells of a row *)

Inductive kind : Type := KStr | KInt | KFloat.

Definition kind_of (c : cell) : kind :=
  match c with CStr _ => KStr | CInt _ => KInt | CFloat _ => KFloat end.

(** The kinds of the fourteen cells that the builder writes. *)
Definition schema_kinds : list kind :=
  [KStr; KInt; KStr; KInt; KFloat; KStr; KStr; KStr;
   KInt; KInt; KInt; KInt; KInt; KStr].

(** A row whose cells have the kinds [ks], position by position. *)
Definition has_kinds (ks : list kind) (r : Row) : Prop := map kind_of r = ks.

(** ** The call on the caller's objects

    [build_costvariable] above is the pass of lines 169-233 on tables
    already normalised.  What follows is the whole call, lines 158-233, on
    the objects that the caller hands over.  The raw cost table, the frames
    and the collection are objects of a store and are passed by address:
    [.copy()] makes a new object, an assignment to a column or to a key
    writes the object at an address, and what the caller sees afterwards is
    what the store holds at the addresses it knows. *)

Definition loc : Type := nat.

(** A number as a numeric column holds it. *)
Inductive number : Type :=
| NInt (n : Z)
| NFloat (f : float).

(** A row of the raw cost table as it is handed over, restricted to the
    columns read: numeric period and value, text name. *)
Record RawCostRow : Type := mkRawCostRow {
  raw_period : number;
  raw_tech_name : string;
  raw_value : number
}.

Record Store : Type := mkStore {
  cost_tables : gmap loc (list RawCostRow);
  frames : gmap loc DataFrame;
  dicts : gmap loc (gmap string loc)
}.

#[global] Instance DataFrame_inhabited : Inhabited DataFrame :=
  populate (mkDataFrame [] []).

(** What the caller passes: the addresses of the collection and of the two
    tables, and the catalogs, maps, factors and configuration, which the
    function only iterates or subscripts and which are therefore passed
    by value. *)
Record Args : Type := mkArgs {
  arg_comb_dict : loc;
  arg_cost_df : loc;
  arg_fuel_df : loc;
  arg_tech_list : list string;
  arg_mapping : gmap string (gmap string string);
  arg_province_list : list string;
  arg_periods : list Z;
  arg_dict_id : gmap string string;
  arg_factors : gmap string float;
  arg_cfg : gmap string float
}.

(** *** The casts of lines 159-161 *)

(** A finite float cut towards zero; nothing for NaN and the infinities. *)
Definition int_of_float (f : float) : option Z :=
  match Prim2SF f with
  | S754_zero _ => Some 0%Z
  | S754_finite s m e =>
      let a := if (0 <=? e)%Z then (Z.pos m * 2 ^ e)%Z else (Z.pos m / 2 ^ (- e))%Z in
      Some (if s then (- a)%Z else a)
  | _ => None
  end.

(** [.astype(int)] on a number: an int as it is, a finite float cut
    towards zero; pandas refuses NaN and the infinities with a
    [ValueError]. *)
Definition astype_int (x : number) : result number :=
  match x with
  | NInt n => Ok (NInt n)
  | NFloat f =>
      match int_of_float f with
      | Some n => Ok (NInt n)
      | None => Raise ValueError
      end
  end.

(** [.astype(float)] on a number. *)
Definition astype_float (x : number) : number :=
  match x with
  | NInt n => NFloat (float_of_int n)
  | NFloat f => NFloat f
  end.

(** [cdf['period'].astype(int)], put back as the column. *)
Fixpoint cast_period (t : list RawCostRow) : result (list RawCostRow) :=
  match t with
  | [] => Ok []
  | r :: t' =>
      p ← astype_int (raw_period r);
      rest ← cast_period t';
      Ok (mkRawCostRow p (raw_tech_name r) (raw_value r) :: rest)
  end.

(** [cdf['Tech Name'].astype(str)], put back: text stays as it is. *)
Definition cast_tech_name (t : list RawCostRow) : list RawCostRow :=
  map (fun r => mkRawCostRow (raw_period r) (raw_tech_name r) (raw_value r)) t.

(** [cdf['value'].astype(float)], put back. *)
Definition cast_value (t : list RawCostRow) : list RawCostRow :=
  map (fun r => mkRawCostRow (raw_period r) (raw_tech_name r) (astype_float (raw_value r))) t.

(** The row of the table after the casts, as the lookups read it. *)
Definition cost_row_of (r : RawCostRow) : CostRow :=
  mkCostRow
    (match raw_period r with NInt n => n | NFloat f => default 0%Z (int_of_float f) end)
    (raw_tech_name r)
    (match raw_value r with NInt n => float_of_int n | NFloat f => f end).

(** *** Computations on the store *)

Definition M (A : Type) : Type := Store -> Store * result A.

Definition ret {A : Type} (a : A) : M A := fun s => (s, Ok a).

Definition bind {A B : Type} (m : M A) (f : A -> M B) : M B :=
  fun s =>
    match m s with
    | (s', Ok a) => f a s'
    | (s', Raise e) => (s', Raise e)
    end.

Definition lift {A : Type} (r : result A) : M A := fun s => (s, r).

Notation "'let*' x ':=' m 'in' k" := (bind m (fun x => k))
  (at level 10, x name, m at level 100, k at level 200, only parsing).

(** [t.copy()] for a cost table: a new object with the same rows. *)
Definition copy_cost_table (l : loc) : M loc :=
  fun s =>
    let l' := fresh (dom (cost_tables s)) in
    (mkStore (<[l' := cost_tables s !!! l]> (cost_tables s)) (frames s) (dicts s), Ok l').

Definition get_cost_table (l : loc) : M (list RawCostRow) :=
  fun s => (s, Ok (cost_tables s !!! l)).

Definition set_cost_table (l : loc) (t : list RawCostRow) : M unit :=
  fun s => (mkStore (<[l := t]> (cost_tables s)) (frames s) (dicts s), Ok tt).

(** A frame that an expression builds: a new object. *)
Definition new_frame (df : DataFrame) : M loc :=
  fun s =>
    let l' := fresh (dom (frames s)) in
    (mkStore (cost_tables s) (<[l' := df]> (frames s)) (dicts s), Ok l').

Definition get_frame (l : loc) : M DataFrame :=
  fun s => (s, Ok (frames s !!! l)).

Definition set_frame (l : loc) (df : DataFrame) : M unit :=
  fun s => (mkStore (cost_tables s) (<[l := df]> (frames s)) (dicts s), Ok tt).

(** [d[k]] on the dict at an address. *)
Definition dict_get (d : loc) (k : string) : M loc :=
  fun s => (s, getitem (dicts s !!! d) k).

(** [d[k] = v]: the dict at the address is written. *)
Definition dict_set (d : loc) (k : string) (v : loc) : M unit :=
  fun s =>
    (mkStore (cost_tables s) (frames s) (<[d := <[k := v]> (dicts s !!! d)]> (dicts s)),
     Ok tt).

(** *** The pass *)

(** [pd.DataFrame(rows, columns=cols)]: the check of [DataFrame_from_rows],
    then every column under the dtype inferred from its cells. *)
Definition pd_DataFrame (rows : list Row) (cols : list string) : result DataFrame :=
  df ← DataFrame_from_rows rows cols;
  Ok (mkDataFrame (columns df) (unify_dtypes (data df))).

(** Lines 184-221 on the private copies: [price_row] with the cells that
    the metadata frame holds, whatever they are. *)
Definition price_row_in (a : Args) (cdf : list CostRow) (fuel : DataFrame)
    (pro : string) (vint per : Z) (tech : string) : result Row :=
  entry ← getitem (arg_mapping a) tech;
  output ← getitem entry "output";
  let tech_name := strip output in
  mmbtuconvertor ← getitem (arg_factors a) "mmbtuconvertor";
  currencyadjustment ← getitem (arg_factors a) "currencyadjustment";
  defl22 ← getitem (arg_factors a) "deflation_2022";
  defl25 ← getitem (arg_factors a) "deflation_2025";
  eth_price ← getitem (arg_factors a) "eth_price";
  rdsl_price ← getitem (arg_factors a) "rdsl_price";
  spk_price ← getitem (arg_factors a) "spk_price";
  val ← _calc_value cdf (arg_cfg a) mmbtuconvertor currencyadjustment defl22 defl25
          eth_price rdsl_price spk_price tech tech_name per;
  let unit := "2020 M$/PJ" in
  let '(notes, ref) := fuel_lookup fuel tech_name in
  data_id ← getitem (arg_dict_id a) pro;
  Ok [CStr pro; CInt per; CStr tech; CInt vint; CFloat val; CStr unit;
      notes; ref; CInt 2; CInt 3; CInt 2; CInt 1; CInt 1;
      CStr data_id].

(** Lines 169-221 for any body of the innermost loop. *)
Definition rows_of_pass (price : string -> Z -> Z -> string -> result Row)
    (provinces : list string) (pers : list Z) (techs : list string) : result (list Row) :=
  for_in provinces (fun pro rows =>
    if String.eqb pro "CAN" then Ok rows
    else for_in pers (fun vint rows =>
      for_in pers (fun per rows =>
        if (per <? vint)%Z then Ok rows
        else for_in techs (fun tech rows =>
          if excluded tech then Ok rows
          else row ← price pro vint per tech; Ok (rows ++ [row])) rows) rows) rows) [].

(** Lines 165-167 for one label, on the object at [fuel]. *)
Definition ensure_in_place (fuel : loc) (col : string) : M unit :=
  let* f := get_frame fuel in
  set_frame fuel (ensure_column col f).

(** Lines 223-231, with [rows] not empty. *)
Definition append_rows (a : Args) (rows : list Row) : M loc :=
  let* old_l := dict_get (arg_comb_dict a) "CostVariable" in
  let* old := get_frame old_l in
  let* new_df := lift (pd_DataFrame rows (columns old)) in
  let* new_l := new_frame new_df in
  let* old_l' := dict_get (arg_comb_dict a) "CostVariable" in
  let* old' := get_frame old_l' in
  let* new_df' := get_frame new_l in
  let* res := new_frame (pd_concat old' new_df') in
  let* _ := dict_set (arg_comb_dict a) "CostVariable" res in
  ret (arg_comb_dict a).

(** Lines 158-167: the casts and the column clean-up, on copies; the
    addresses of the two copies. *)
Definition private_copies (a : Args) : M (loc * loc) :=
  (* 158 *)
  let* cdf := copy_cost_table (arg_cost_df a) in
  (* 159 *)
  let* t := get_cost_table cdf in
  let* t' := lift (cast_period t) in
  let* _ := set_cost_table cdf t' in
  (* 160 *)
  let* t := get_cost_table cdf in
  let* _ := set_cost_table cdf (cast_tech_name t) in
  (* 161 *)
  let* t := get_cost_table cdf in
  let* _ := set_cost_table cdf (cast_value t) in
  (* 164 *)
  let* raw := get_frame (arg_fuel_df a) in
  let* fuel := new_frame (drop_duplicate_columns raw) in
  (* 165-167 *)
  let* _ := ensure_in_place fuel "Commodity" in
  let* _ := ensure_in_place fuel "notes" in
  let* _ := ensure_in_place fuel "source" in
  ret (cdf, fuel).

(** The whole call: the store afterwards, and the address returned or the
    exception raised. *)
Definition build_costvariable_call (a : Args) : M loc :=
  (* 158-167 *)
  let* copies := private_copies a in
  (* 169-221 *)
  let* t := get_cost_table (fst copies) in
  let* f := get_frame (snd copies) in
  let* rows :=
    lift (rows_of_pass (price_row_in a (map cost_row_of t) f)
            (arg_province_list a) (arg_periods a) (arg_tech_list a)) in
  (* 223-233 *)
  match rows with
  | [] => ret (arg_comb_dict a)
  | _ => append_rows a rows
  end.

(** *** What the call computes, without the store *)

(** The private copy of the cost table after the three casts. *)
Definition normalize_cost (t : list RawCostRow) : result (list CostRow) :=
  t' ← cast_period t;
  Ok (map cost_row_of (cast_value (cast_tech_name t'))).

(** The rows of the pass on the copies of a cost table and a metadata
    frame. *)
Definition pass_rows (a : Args) (t : list RawCostRow) (fuel : DataFrame)
    : result (list Row) :=
  cdf ← normalize_cost t;
  rows_of_pass (price_row_in a cdf (clean_fuel_df fuel))
    (arg_province_list a) (arg_periods a) (arg_tech_list a).

(** The tables of the collection, by name. *)
Definition tables (s : Store) (d : loc) : gmap string DataFrame :=
  (fun l => frames s !!! l) <$> (dicts s !!! d).

(** The inputs of the pass of [build_costvariable] for a call: the values
    passed, the tables of the collection, the cost table after the casts
    and the typed rows of the cleaned metadata frame. *)
Definition world_of (a : Args) (s : Store) (cdf : list CostRow) : World :=
  mkWorld (tables s (arg_comb_dict a)) cdf (arg_tech_list a) (arg_mapping a)
    (arg_province_list a) (arg_periods a) (arg_dict_id a) (arg_factors a)
    (fuel_rows_of (clean_fuel_df (frames s !!! arg_fuel_df a))) (arg_cfg a).

(** The store once the copies are made and normalised. *)
Definition copies_store (a : Args) (s : Store) (t : list RawCostRow) : Store :=
  mkStore (<[fresh (dom (cost_tables s)) := cast_value (cast_tech_name t)]> (cost_tables s))
    (<[fresh (dom (frames s)) := clean_fuel_df (frames s !!! arg_fuel_df a)]> (frames s))
    (dicts s).

(** A call whose raw cost table has a float period and an int value, and
    whose prior "CostVariable" table holds an int in its value column. *)
Definition sample_args : Args :=
  mkArgs 0%nat 0%nat 0%nat ["T_DSL"; "R_ELC"]
    {[ "T_DSL" := {[ "output" := " T_dsl " ]} ]}
    ["CAN"; "ON"] [2030%Z] {[ "ON" := "FUELON1" ]} sample_factors
    {[ "b_price" := 2%float; "u_price" := 5%float ]}.

Definition int_prior_row : Row :=
  [CStr "QC"; CInt 2020; CStr "OLD"; CInt 2020; CInt 1; CStr "2020 M$/PJ";
   CStr ""; CStr ""; CInt 2; CInt 3; CInt 2; CInt 1; CInt 1; CStr "FUELQC1"].

(** A prior row whose int value (2^53 + 1) is no binary64 number. *)
Definition large_prior_row : Row :=
  [CStr "QC"; CInt 2025; CStr "OLD"; CInt 2020; CInt 9007199254740993;
   CStr "2020 M$/PJ"; CStr ""; CStr ""; CInt 2; CInt 3; CInt 2; CInt 1; CInt 1;
   CStr "FUELQC1"].

Definition sample_store : Store :=
  mkStore {[ 0%nat := [mkRawCostRow (NFloat 2030) "T_dsl" (NInt 10)] ]}
    {[ 0%nat := mkDataFrame ["Commodity"; "notes"]
                  [[CStr "T_dsl"; CStr "transport diesel"]];
       1%nat := mkDataFrame costvariable_columns [int_prior_row; large_prior_row] ]}
    {[ 0%nat := {[ "CostVariable" := 1%nat ]} ]}.

(** * Properties *)

(** ** The string helpers on examples *)

Module StrExamples.

Example lower_mixed : lower "F_R_Lpg-01" = "f_r_lpg-01".
Proof. reflexivity. Qed.

Example contains_is_case_sensitive :
  contains "lpg" "f_r_lpg" = true /\ contains "LPG" "f_r_lpg" = false
  /\ contains "" "x" = true /\ contains "abc" "ab" = false.
Proof. repeat split; reflexivity. Qed.

Example strip_both_ends : strip "  T_dsl 	" = "T_dsl" /\ strip " a b " = "a b".
Proof. split; reflexivity. Qed.

Lemma lower_idempotent (s : string) : lower (lower s) = lower s.
Proof.
  induction s as [|c s IH]; [reflexivity|]. cbn [lower]. rewrite IH. f_equal.
  destruct c as [[] [] [] [] [] [] [] []]; reflexivity.
Qed.

End StrExamples.

(** ** Binary64 facts used below *)

Module FloatFacts.

Lemma Prim2SF_zero : Prim2SF 0 = S754_zero false.
Proof. reflexivity. Qed.

Lemma Prim2SF_infinity : Prim2SF infinity = S754_infinity false.
Proof. reflexivity. Qed.

Lemma negative_sf (x : float) : negative x = false <-> sf_not_neg (Prim2SF x).
Proof.
  unfold negative. rewrite FloatAxioms.ltb_spec, Prim2SF_zero.
  destruct (Prim2SF x) as [[]|[]| |[] m e]; cbn; intuition congruence.
Qed.

Lemma nonneg_sf (x : float) :
  nonneg x = true <-> sf_not_neg (Prim2SF x) /\ Prim2SF x <> S754_nan.
Proof.
  unfold nonneg. rewrite FloatAxioms.leb_spec, Prim2SF_zero.
  destruct (Prim2SF x) as [[]|[]| |[] m e]; cbn; intuition congruence.
Qed.

Lemma sf_compare_refl (s : spec_float) : s <> S754_nan -> SFcompare s s = Some Eq.
Proof.
  destruct s as [[]|[]| |[] m e]; cbn; try congruence; intros _.
  - rewrite Z.compare_refl, Pos.compare_cont_refl. reflexivity.
  - rewrite Z.compare_refl, Pos.compare_cont_refl. reflexivity.
Qed.

Lemma is_nan_sf (x : float) : is_nan x = true <-> Prim2SF x = S754_nan.
Proof.
  unfold is_nan. rewrite FloatAxioms.eqb_spec. unfold SFeqb.
  destruct (Prim2SF x) as [s|s| |s m e] eqn:E.
  all: try (rewrite sf_compare_refl by congruence; cbn; intuition congruence).
  cbn. intuition congruence.
Qed.

Lemma is_zero_sf (x : float) : is_zero x = true <-> sf_zero (Prim2SF x).
Proof.
  unfold is_zero. rewrite FloatAxioms.eqb_spec. change (Prim2SF zero) with (S754_zero false).
  destruct (Prim2SF x) as [[]|[]| |[] m e]; cbn; intuition congruence.
Qed.

Lemma is_finite_sf (x : float) : is_finite x = true <-> sf_finite (Prim2SF x).
Proof.
  unfold is_finite, is_infinity. rewrite negb_true_iff, orb_false_iff.
  rewrite FloatAxioms.eqb_spec, abs_spec, Prim2SF_infinity.
  split.
  - intros [Hn Hi]. destruct (Prim2SF x) as [s|s| |s m e] eqn:E; cbn in *; try exact I.
    + discriminate.
    + assert (is_nan x = true) by (apply is_nan_sf; exact E). congruence.
  - intros H. split.
    + destruct (is_nan x) eqn:Hn; [|reflexivity].
      apply is_nan_sf in Hn. rewrite Hn in H. destruct H.
    + destruct (Prim2SF x) as [s|s| |s m e]; cbn in *; try reflexivity; destruct H.
Qed.

(** The sign of a rounded product is the sign it was given. *)
Lemma binary_round_aux_not_neg (mx ex : Z) (lx : location) :
  sf_not_neg (binary_round_aux prec emax false mx ex lx).
Proof.
  unfold binary_round_aux.
  destruct (shr_fexp prec emax mx ex lx) as [mrs' e'].
  destruct (shr_fexp prec emax _ e' loc_Exact) as [mrs'' e''].
  destruct (shr_m mrs''); cbn; try exact I.
  destruct (e'' <=? emax - prec)%Z; exact I.
Qed.

Lemma sf_mul_not_neg (a b : spec_float) :
  sf_not_neg a -> sf_not_neg b -> sf_not_neg (SF64mul a b).
Proof.
  destruct a as [[]|[]| |[] ma ea], b as [[]|[]| |[] mb eb]; cbn; try tauto.
  intros _ _. apply binary_round_aux_not_neg.
Qed.

Lemma sf_mul_zero (a b : spec_float) :
  sf_zero a -> sf_finite b -> sf_zero (SF64mul a b).
Proof. destruct a, b; cbn; tauto. Qed.

(** A product of two numbers that are not negative is not negative. *)
Lemma mul_not_negative (x y : float) :
  negative x = false -> negative y = false -> negative (x * y) = false.
Proof.
  intros Hx Hy. apply negative_sf. rewrite mul_spec.
  apply sf_mul_not_neg; apply negative_sf; assumption.
Qed.

(** Zero times a finite number is a zero. *)
Lemma mul_zero_finite (x y : float) :
  is_zero x = true -> is_finite y = true -> is_zero (x * y) = true.
Proof.
  intros Hx Hy. apply is_zero_sf. rewrite mul_spec.
  apply sf_mul_zero; [apply is_zero_sf | apply is_finite_sf]; assumption.
Qed.

Lemma nonneg_not_negative (x : float) : nonneg x = true -> negative x = false.
Proof. intros H. apply negative_sf. apply nonneg_sf in H. tauto. Qed.

(** What is not negative and not NaN is [>= 0]. *)
Lemma not_negative_nonneg (x : float) :
  negative x = false -> is_nan x = false -> nonneg x = true.
Proof.
  intros H Hn. apply nonneg_sf. split; [apply negative_sf; exact H|].
  intros E. apply is_nan_sf in E. congruence.
Qed.

End FloatFacts.

(** ** The price resolver *)

Module ResolverFacts.

(** Case analysis on the token tests of the cascade, in its order. *)
Ltac token_cases l :=
  repeat match goal with
         | |- context [contains ?tok l] =>
             destruct (contains tok l) eqn:?; cbn [orb andb negb]
         end.

Lemma first_match_cons (tokens : list string) (c : category)
    (rest : list (list string * category)) (l : string) :
  first_match ((tokens, c) :: rest) l
  = if contains_any tokens l then c else first_match rest l.
Proof. reflexivity. Qed.

(** First match wins: a rule fires when one of its tokens occurs and no
    token of an earlier rule does. *)
Lemma first_match_wins (pre post : list (list string * category))
    (tokens : list string) (c : category) (l : string) :
  Forall (fun r => contains_any (fst r) l = false) pre ->
  contains_any tokens l = true ->
  first_match (pre ++ (tokens, c) :: post) l = c.
Proof.
  induction 1 as [|[toks c'] pre Hhd _ IH]; intros Hm; cbn [app first_match].
  - rewrite Hm. reflexivity.
  - cbn [fst] in Hhd. rewrite Hhd. apply IH, Hm.
Qed.

(** No rule fires: the default. *)
Lemma first_match_default (rules : list (list string * category)) (l : string) :
  Forall (fun r => contains_any (fst r) l = false) rules ->
  first_match rules l = Default.
Proof.
  induction 1 as [|[toks c'] rules Hhd _ IH]; cbn [first_match]; [reflexivity|].
  cbn [fst] in Hhd. rewrite Hhd. exact IH.
Qed.

Section Cascade.

Variable cost_df : list CostRow.
Variable cfg : gmap string float.
Variables mmbtuconvertor currencyadjustment defl22 defl25 : float.
Variables eth_price rdsl_price spk_price : float.

Let calc := _calc_value cost_df cfg mmbtuconvertor currencyadjustment
              defl22 defl25 eth_price rdsl_price spk_price.
Let strategy := price_of cost_df cfg mmbtuconvertor currencyadjustment
                  defl22 defl25 eth_price rdsl_price spk_price.

(** The nested tests of [_calc_value] are the rule table read top down. *)
Lemma calc_value_by_category (tech tech_name : string) (period_val : Z) :
  calc tech tech_name period_val
  = strategy (categorize tech_name) tech_name period_val.
Proof.
  unfold calc, strategy, _calc_value, price_of, categorize, rule_table, proxied.
  cbn [first_match contains_any existsb].
  set (l := lower tech_name).
  token_cases l; reflexivity.
Qed.

End Cascade.

End ResolverFacts.

Module CascadeFacts.

Import ResolverFacts.

Lemma cost_mask_true (p : Z) (n : string) (r : CostRow) :
  cost_mask p n r = true <-> cr_period r = p /\ cr_tech_name r = n.
Proof.
  unfold cost_mask. rewrite andb_true_iff, Z.eqb_eq, String.eqb_eq. reflexivity.
Qed.

Lemma no_row_filter (table : list CostRow) (p : Z) (n : string) :
  no_row table p n -> List.filter (cost_mask p n) table = [].
Proof.
  intros H. induction table as [|r t IH]; [reflexivity|].
  cbn [List.filter]. destruct (cost_mask p n r) eqn:E.
  - apply cost_mask_true in E. exfalso. apply (H r); [left | exact E].
  - apply IH. intros r' Hr'. apply H. right. exact Hr'.
Qed.

Lemma safe_base_missing (table : list CostRow) (p : Z) (n : string) :
  no_row table p n -> _safe_base_from_cost table p n = 0%float.
Proof. intros H. unfold _safe_base_from_cost. rewrite no_row_filter; auto. Qed.

(** The lookup returns zero or the value of a row of the table. *)
Lemma safe_base_cases (table : list CostRow) (p : Z) (n : string) :
  _safe_base_from_cost table p n = 0%float
  \/ exists r, r ∈ table /\ cost_mask p n r = true
               /\ _safe_base_from_cost table p n = cr_value r.
Proof.
  unfold _safe_base_from_cost.
  destruct (List.filter (cost_mask p n) table) as [|r rest] eqn:E; [left; reflexivity|].
  right. exists r.
  assert (Hin : In r (List.filter (cost_mask p n) table)) by (rewrite E; left; reflexivity).
  apply filter_In in Hin. destruct Hin as [Hin Hm].
  split; [apply list_elem_of_In; exact Hin|]. split; [exact Hm | reflexivity].
Qed.

Ltac orb_false H :=
  unfold contains_any in H; cbn [existsb] in H;
  repeat (apply orb_false_elim in H; let H1 := fresh "Htok" in destruct H as [H1 H]).

Lemma no_rule_default (l : string) :
  Forall (fun r => contains_any (fst r) l = false) rule_table ->
  first_match rule_table l = Default.
Proof. apply first_match_default. Qed.

Lemma categorize_lpg (tech_name : string) :
  contains "lpg" (lower tech_name) = true ->
  contains_any above_lpg (lower tech_name) = false ->
  categorize tech_name = Lpg.
Proof.
  intros Hl Ha. unfold categorize, rule_table, above_lpg in *.
  orb_false Ha. cbn [first_match contains_any existsb].
  repeat match goal with H : contains _ _ = _ |- _ => rewrite H; clear H end.
  reflexivity.
Qed.

Lemma categorize_biomass (tech_name : string) :
  contains "bio" (lower tech_name) || contains "wood" (lower tech_name) = true ->
  categorize tech_name = Biomass.
Proof.
  intros H. unfold categorize, rule_table. cbn [first_match contains_any existsb].
  rewrite orb_false_r, H. reflexivity.
Qed.

Lemma categorize_uranium (tech_name : string) :
  contains_any ["bio"; "wood"] (lower tech_name) = false ->
  contains "u_nat" (lower tech_name) || contains "u_enr" (lower tech_name) = true ->
  categorize tech_name = Uranium.
Proof.
  intros Hb H. unfold categorize, rule_table. rewrite first_match_cons, Hb.
  cbn [first_match contains_any existsb]. rewrite orb_false_r, H. reflexivity.
Qed.

(** The resolver reads the table only at the key of the category. *)
Lemma price_of_lookup_key (c : category) (tech_name k : string) (p : Z)
    (t1 t2 : list CostRow) (cfg : gmap string float)
    (mm ca d22 d25 e r s : float) :
  lookup_key c tech_name = Some k ->
  _safe_base_from_cost t1 p k = _safe_base_from_cost t2 p k ->
  price_of t1 cfg mm ca d22 d25 e r s c tech_name p
  = price_of t2 cfg mm ca d22 d25 e r s c tech_name p.
Proof.
  intros Hk Hb. unfold price_of, proxied.
  destruct c; cbn [lookup_key] in Hk; try discriminate;
    injection Hk as <-; rewrite ?Hb; reflexivity.
Qed.

(** Categories without a key do not read the table at all. *)
Lemma price_of_no_lookup (c : category) (tech_name : string) (p : Z)
    (t1 t2 : list CostRow) (cfg : gmap string float)
    (mm ca d22 d25 e r s : float) :
  lookup_key c tech_name = None ->
  price_of t1 cfg mm ca d22 d25 e r s c tech_name p
  = price_of t2 cfg mm ca d22 d25 e r s c tech_name p.
Proof. intros Hk. destruct c; cbn [lookup_key] in Hk; try discriminate; reflexivity. Qed.

(** With a key, the price is the chained base, times 0.89 or 0.9 for
    two of the categories; it never raises. *)
Lemma price_of_with_key (c : category) (tech_name k : string) (p : Z)
    (t : list CostRow) (cfg : gmap string float)
    (mm ca d22 d25 e r s : float) :
  lookup_key c tech_name = Some k ->
  let v := chain mm ca (_safe_base_from_cost t p k) d25 in
  price_of t cfg mm ca d22 d25 e r s c tech_name p = Ok v
  \/ price_of t cfg mm ca d22 d25 e r s c tech_name p = Ok (v * 0.89)%float
  \/ price_of t cfg mm ca d22 d25 e r s c tech_name p = Ok (v * 0.9)%float.
Proof.
  intros Hk v. subst v. unfold price_of, proxied.
  destruct c; cbn [lookup_key] in Hk; try discriminate;
    injection Hk as <-; auto.
Qed.

End CascadeFacts.

(** ** Claims on the price resolver *)

Import ResolverFacts CascadeFacts.

(** C1.  [_calc_value] evaluates the rule table as an ordered cascade in
    which the first matching rule wins: its result is the strategy of the
    first rule of [rule_table] (biomass/wood, uranium, ethanol, renewable
    diesel, spk, lng/cng/ngl, lpg, e_coal, e_gsl, r_oil, c_h2/r_h2,
    i_pcoke/i_coke, a_gsl, a_ng, a_dsl, a_prop, mdo) one of whose tokens
    occurs in the lower-cased name, and the default strategy when no rule
    matches.  In particular a name whose lower-case form contains both
    "bio" and "lng" is priced by the biomass rule. *)
Theorem calc_value_first_match_cascade
    (cost_df : list CostRow) (cfg : gmap string float)
    (mm ca d22 d25 eth rdsl spk : float)
    (tech tech_name : string) (period_val : Z) :
  let l := lower tech_name in
  let calc := _calc_value cost_df cfg mm ca d22 d25 eth rdsl spk tech tech_name period_val in
  let strategy c := price_of cost_df cfg mm ca d22 d25 eth rdsl spk c tech_name period_val in
  calc = strategy (first_match rule_table l)
  /\ (forall pre tokens c post,
        rule_table = pre ++ (tokens, c) :: post ->
        Forall (fun r => contains_any (fst r) l = false) pre ->
        contains_any tokens l = true ->
        calc = strategy c)
  /\ (Forall (fun r => contains_any (fst r) l = false) rule_table ->
      calc = strategy Default)
  /\ (contains "bio" l = true -> contains "lng" l = true ->
      calc = strategy Biomass
      /\ strategy Biomass
         = (b ← getitem cfg "b_price"; Ok (((b * mm) * ca) * d22)%float)).
Proof.
  intros l calc strategy.
  assert (Hc : calc = strategy (first_match rule_table l)).
  { apply calc_value_by_category. }
  split; [exact Hc|]. split; [|split].
  - intros pre tokens c post Ht Hpre Hm.
    rewrite Hc, Ht. f_equal. apply first_match_wins; assumption.
  - intros Hnone. rewrite Hc. f_equal. apply first_match_default, Hnone.
  - intros Hbio _. split; [|reflexivity].
    rewrite Hc. f_equal. apply (categorize_biomass tech_name).
    fold l. rewrite Hbio. reflexivity.
Qed.

Lemma calc_value_first_match_cascade_witness :
  _calc_value [mkCostRow 2030 "T_ng" 4] {[ "b_price" := 2%float ]}
    1 1 1 1 7 8 9 "t" "F_BIO_LNG" 2030 = Ok 2%float.
Proof.
  destruct (calc_value_first_match_cascade
              [mkCostRow 2030 "T_ng" 4] {[ "b_price" := 2%float ]}
              1 1 1 1 7 8 9 "t" "F_BIO_LNG" 2030) as (_ & _ & _ & H).
  destruct H as [H1 H2]; [reflexivity | reflexivity |].
  rewrite H1, H2. vm_compute. reflexivity.
Defined.

(** C4.  A technical name that matches none of the category rules is
    looked up itself in the raw cost table at the period, and the result is
    [((base * btu) * currency) * deflator_2025] with no further multiplier.
    For "T_dsl" with raw value 10.0 at period 2030 and factors 1.1, 1.05
    and 0.95 the result is exactly the binary64 number 10.9725. *)
Theorem calc_value_default_direct_lookup :
  (forall (cost_df : list CostRow) (cfg : gmap string float)
          (mm ca d22 d25 eth rdsl spk : float)
          (tech tech_name : string) (period_val : Z),
      Forall (fun r => contains_any (fst r) (lower tech_name) = false) rule_table ->
      _calc_value cost_df cfg mm ca d22 d25 eth rdsl spk tech tech_name period_val
      = Ok (((_safe_base_from_cost cost_df period_val tech_name * mm) * ca) * d25)%float)
  /\ (forall (cost_df : list CostRow) (cfg : gmap string float)
             (d22 eth rdsl spk : float) (tech : string),
      _safe_base_from_cost cost_df 2030 "T_dsl" = 10%float ->
      _calc_value cost_df cfg 1.1 1.05 d22 0.95 eth rdsl spk tech "T_dsl" 2030
      = Ok 10.9725%float).
Proof.
  split.
  - intros cost_df cfg mm ca d22 d25 eth rdsl spk tech tech_name period_val Hnone.
    rewrite calc_value_by_category. unfold categorize.
    rewrite (no_rule_default _ Hnone). reflexivity.
  - intros cost_df cfg d22 eth rdsl spk tech Hbase.
    rewrite calc_value_by_category.
    change (categorize "T_dsl") with Default.
    unfold price_of, proxied. rewrite Hbase. vm_compute. reflexivity.
Qed.

Lemma calc_value_default_direct_lookup_witness :
  _calc_value [mkCostRow 2025 "T_dsl" 8; mkCostRow 2030 "T_dsl" 10] ∅
    1.1 1.05 0.9 0.95 1 2 3 "T_DSL_TECH" "T_dsl" 2030 = Ok 10.9725%float
  /\ _calc_value [mkCostRow 2030 "H_fuel" 3] ∅
       2 1 1 1 1 2 3 "x" "H_fuel" 2030 = Ok 6%float.
Proof.
  destruct calc_value_default_direct_lookup as [Hgen Hex]. split.
  - apply Hex. reflexivity.
  - rewrite Hgen.
    + vm_compute. reflexivity.
    + repeat constructor.
Defined.

(** C5.  Under the LPG rule (the lower-cased name contains "lpg" and no
    token of a rule above it) the proxy is "R_prop" exactly when the name is
    "f_r_lpg" up to case, and "T_prop" otherwise; the result is the
    BTU/currency/2025-deflator chain of the proxy's price with no further
    multiplier.  The name "F_R_LPG" resolves through "R_prop". *)
Theorem calc_value_lpg_proxy :
  (forall (cost_df : list CostRow) (cfg : gmap string float)
          (mm ca d22 d25 eth rdsl spk : float)
          (tech tech_name : string) (period_val : Z),
      contains "lpg" (lower tech_name) = true ->
      contains_any above_lpg (lower tech_name) = false ->
      (lower tech_name = "f_r_lpg" ->
       _calc_value cost_df cfg mm ca d22 d25 eth rdsl spk tech tech_name period_val
       = Ok (((_safe_base_from_cost cost_df period_val "R_prop" * mm) * ca) * d25)%float)
      /\ (lower tech_name <> "f_r_lpg" ->
       _calc_value cost_df cfg mm ca d22 d25 eth rdsl spk tech tech_name period_val
       = Ok (((_safe_base_from_cost cost_df period_val "T_prop" * mm) * ca) * d25)%float))
  /\ (forall (cost_df : list CostRow) (cfg : gmap string float)
             (mm ca d22 d25 eth rdsl spk : float) (tech : string) (period_val : Z),
      _calc_value cost_df cfg mm ca d22 d25 eth rdsl spk tech "F_R_LPG" period_val
      = Ok (((_safe_base_from_cost cost_df period_val "R_prop" * mm) * ca) * d25)%float).
Proof.
  assert (Hgen : forall cost_df cfg mm ca d22 d25 eth rdsl spk tech tech_name period_val,
            contains "lpg" (lower tech_name) = true ->
            contains_any above_lpg (lower tech_name) = false ->
            _calc_value cost_df cfg mm ca d22 d25 eth rdsl spk tech tech_name period_val
            = Ok (chain mm ca
                    (_safe_base_from_cost cost_df period_val
                       (if String.eqb (lower tech_name) "f_r_lpg"
                        then "R_prop" else "T_prop")) d25)).
  { intros. rewrite calc_value_by_category, categorize_lpg by assumption. reflexivity. }
  split.
  - intros cost_df cfg mm ca d22 d25 eth rdsl spk tech tech_name period_val Hl Ha.
    split; intros Hn; rewrite Hgen by assumption.
    + apply String.eqb_eq in Hn. rewrite Hn. reflexivity.
    + apply String.eqb_neq in Hn. rewrite Hn. reflexivity.
  - intros. rewrite Hgen by reflexivity. reflexivity.
Qed.

Lemma calc_value_lpg_proxy_witness :
  _calc_value [mkCostRow 2030 "R_prop" 3; mkCostRow 2030 "T_prop" 5] ∅
    2 1 1 1 1 2 3 "x" "f_R_Lpg" 2030 = Ok 6%float
  /\ _calc_value [mkCostRow 2030 "R_prop" 3; mkCostRow 2030 "T_prop" 5] ∅
       2 1 1 1 1 2 3 "x" "F_T_LPG" 2030 = Ok 10%float.
Proof.
  destruct calc_value_lpg_proxy as [Hgen _]. split.
  - destruct (Hgen [mkCostRow 2030 "R_prop" 3; mkCostRow 2030 "T_prop" 5] ∅
                2%float 1%float 1%float 1%float 1%float 2%float 3%float
                "x" "f_R_Lpg" 2030%Z) as [H _];
      [reflexivity | reflexivity |].
    rewrite H by reflexivity. vm_compute. reflexivity.
  - destruct (Hgen [mkCostRow 2030 "R_prop" 3; mkCostRow 2030 "T_prop" 5] ∅
                2%float 1%float 1%float 1%float 1%float 2%float 3%float
                "x" "F_T_LPG" 2030%Z) as [_ H];
      [reflexivity | reflexivity |].
    rewrite H; [vm_compute; reflexivity | discriminate].
Defined.

Module SignFacts.

Import FloatFacts.

Lemma good_zero : good 0.
Proof. split; reflexivity. Qed.

Lemma good_not_negative (x : float) : good x -> negative x = false.
Proof. intros [H _]. apply nonneg_not_negative, H. Qed.

Lemma chain_not_negative (mm ca base d : float) :
  negative base = false -> negative mm = false ->
  negative ca = false -> negative d = false ->
  negative (chain mm ca base d) = false.
Proof.
  intros Hb Hm Hc Hd. unfold chain.
  repeat apply mul_not_negative; assumption.
Qed.

Lemma chain_zero (mm ca base d : float) :
  is_zero base = true -> is_finite mm = true ->
  is_finite ca = true -> is_finite d = true ->
  is_zero (chain mm ca base d) = true.
Proof.
  intros Hb Hm Hc Hd. unfold chain.
  repeat apply mul_zero_finite; assumption.
Qed.

Lemma safe_base_good (table : list CostRow) (p : Z) (n : string) :
  Forall (fun r => good (cr_value r)) table ->
  good (_safe_base_from_cost table p n).
Proof.
  intros Hall. destruct (safe_base_cases table p n) as [E|(r & Hin & _ & E)]; rewrite E.
  - apply good_zero.
  - rewrite Forall_forall in Hall. apply Hall, Hin.
Qed.

(** What every strategy returns is not negative when its inputs are not. *)
Lemma price_of_not_negative (cost_df : list CostRow) (cfg : gmap string float)
    (mm ca d22 d25 eth rdsl spk : float) (c : category)
    (tech_name : string) (p : Z) (v : float) :
  Forall (fun r => good (cr_value r)) cost_df ->
  (forall k x, cfg !! k = Some x -> good x) ->
  good mm -> good ca -> good d22 -> good d25 ->
  good eth -> good rdsl -> good spk ->
  price_of cost_df cfg mm ca d22 d25 eth rdsl spk c tech_name p = Ok v ->
  negative v = false.
Proof.
  intros Hcost Hcfg Hmm Hca Hd22 Hd25 Heth Hrdsl Hspk.
  assert (Hbase : forall n, negative (_safe_base_from_cost cost_df p n) = false).
  { intros n. apply good_not_negative, safe_base_good, Hcost. }
  apply good_not_negative in Hmm, Hca, Hd22, Hd25, Heth, Hrdsl, Hspk.
  assert (H89 : negative 0.89 = false) by reflexivity.
  assert (H9 : negative 0.9 = false) by reflexivity.
  unfold price_of, proxied, getitem.
  destruct c; cbn [mbind result_bind];
    try (intros [= <-]; unfold chain; repeat apply mul_not_negative; auto; fail).
  - destruct (cfg !! "b_price") as [b|] eqn:E; cbn; [|discriminate].
    intros [= <-]. apply chain_not_negative; auto.
    apply good_not_negative, (Hcfg _ _ E).
  - destruct (cfg !! "u_price") as [u|] eqn:E; cbn; [|discriminate].
    intros [= <-]. apply chain_not_negative; auto.
    apply good_not_negative, (Hcfg _ _ E).
Qed.

(** With both configuration prices present no strategy raises. *)
Lemma price_of_total (cost_df : list CostRow) (cfg : gmap string float)
    (mm ca d22 d25 eth rdsl spk : float) (c : category)
    (tech_name : string) (p : Z) :
  is_Some (cfg !! "b_price") -> is_Some (cfg !! "u_price") ->
  exists v, price_of cost_df cfg mm ca d22 d25 eth rdsl spk c tech_name p = Ok v.
Proof.
  intros [b Hb] [u Hu]. unfold price_of, getitem.
  destruct c; rewrite ?Hb, ?Hu; cbn; eauto.
Qed.

End SignFacts.

Import SignFacts.

(** C6 (amended).  A name whose lower-case form contains "bio" or "wood"
    is priced at [cfg['b_price']], and one that contains "u_nat" or "u_enr"
    (and neither "bio" nor "wood") at [cfg['u_price']], each through the BTU
    factor, the currency adjustment and the 2022 deflator, whatever the raw
    cost table holds.  For "U_ENR" with u_price 5.0 and factors 1.1, 1.05,
    0.9 the result is the binary64 product 5.197500000000001, the float
    next above 5.1975. *)
Theorem calc_value_config_prices :
  (forall (cfg : gmap string float) (mm ca d22 d25 eth rdsl spk : float)
          (tech tech_name : string) (period_val : Z) (b : float),
      contains "bio" (lower tech_name) || contains "wood" (lower tech_name) = true ->
      cfg !! "b_price" = Some b ->
      forall cost_df : list CostRow,
        _calc_value cost_df cfg mm ca d22 d25 eth rdsl spk tech tech_name period_val
        = Ok (((b * mm) * ca) * d22)%float)
  /\ (forall (cfg : gmap string float) (mm ca d22 d25 eth rdsl spk : float)
             (tech tech_name : string) (period_val : Z) (u : float),
      contains_any ["bio"; "wood"] (lower tech_name) = false ->
      contains "u_nat" (lower tech_name) || contains "u_enr" (lower tech_name) = true ->
      cfg !! "u_price" = Some u ->
      forall cost_df : list CostRow,
        _calc_value cost_df cfg mm ca d22 d25 eth rdsl spk tech tech_name period_val
        = Ok (((u * mm) * ca) * d22)%float)
  /\ (forall (cost_df : list CostRow) (cfg : gmap string float)
             (d25 eth rdsl spk : float) (tech : string) (period_val : Z),
      cfg !! "u_price" = Some 5%float ->
      _calc_value cost_df cfg 1.1 1.05 0.9 d25 eth rdsl spk tech "U_ENR" period_val
      = Ok 5.197500000000001%float)
  /\ next_up 5.1975 = 5.197500000000001%float.
Proof.
  split; [|split; [|split]].
  - intros cfg mm ca d22 d25 eth rdsl spk tech tech_name p b Hb Hcfg cost_df.
    rewrite calc_value_by_category, (categorize_biomass _ Hb).
    unfold price_of, getitem. rewrite Hcfg. reflexivity.
  - intros cfg mm ca d22 d25 eth rdsl spk tech tech_name p u Hb Hu Hcfg cost_df.
    rewrite calc_value_by_category, (categorize_uranium _ Hb Hu).
    unfold price_of, getitem. rewrite Hcfg. reflexivity.
  - intros cost_df cfg d25 eth rdsl spk tech p Hcfg.
    rewrite calc_value_by_category. change (categorize "U_ENR") with Uranium.
    unfold price_of, getitem. rewrite Hcfg. vm_compute. reflexivity.
  - vm_compute. reflexivity.
Qed.

Lemma calc_value_config_prices_witness :
  _calc_value [mkCostRow 2030 "Biomass" 99] {[ "b_price" := 3%float ]}
    2 1 1 1 7 8 9 "t" "Wood_Pellets" 2030 = Ok 6%float
  /\ _calc_value [] {[ "u_price" := 5%float ]}
       1.1 1.05 0.9 1 7 8 9 "t" "U_ENR" 2040 = Ok 5.197500000000001%float.
Proof.
  destruct calc_value_config_prices as (Hb & _ & Hex & _). split.
  - rewrite (Hb _ _ _ _ _ _ _ _ _ _ _ 3%float); [vm_compute| |]; reflexivity.
  - apply Hex. reflexivity.
Defined.

(** C6, as stated, fails: on the example the resolver returns
    5.197500000000001, which [==] tells apart from 5.1975; and a name with
    both "bio" and "u_enr" is priced at b_price, not u_price. *)
Lemma calc_value_u_enr_example_inexact :
  _calc_value [] {[ "u_price" := 5%float ]} 1.1 1.05 0.9 1 1 1 1 "t" "U_ENR" 2030
  = Ok 5.197500000000001%float
  /\ (5.197500000000001 =? 5.1975)%float = false
  /\ _calc_value [] {[ "u_price" := 5%float; "b_price" := 1%float ]}
       1 1 1 1 1 1 1 "t" "BIO_U_ENR" 2030 = Ok 1%float.
Proof. repeat split; vm_compute; reflexivity. Qed.

(** C2 (amended).  A lookup of a [(period, name)] pair that no row of the
    raw cost table matches returns 0.0.  When the category of a technical
    name looks a name up (its proxy, or the technical name itself under the
    default rule), the resolver never raises, it reads the table at that
    name only, and, if no row matches it at the period and the BTU factor,
    the currency adjustment and the 2025 deflator are finite, its result
    compares equal to 0.0. *)
Theorem calc_value_missing_lookup_zero :
  (forall (table : list CostRow) (period_val : Z) (name : string),
      no_row table period_val name ->
      _safe_base_from_cost table period_val name = 0%float)
  /\ (forall (cost_df : list CostRow) (cfg : gmap string float)
             (mm ca d22 d25 eth rdsl spk : float)
             (tech tech_name : string) (period_val : Z) (k : string),
      lookup_key (categorize tech_name) tech_name = Some k ->
      (exists v,
          _calc_value cost_df cfg mm ca d22 d25 eth rdsl spk tech tech_name period_val
          = Ok v)
      /\ (forall table : list CostRow,
          _safe_base_from_cost table period_val k
          = _safe_base_from_cost cost_df period_val k ->
          _calc_value table cfg mm ca d22 d25 eth rdsl spk tech tech_name period_val
          = _calc_value cost_df cfg mm ca d22 d25 eth rdsl spk tech tech_name period_val)
      /\ (no_row cost_df period_val k ->
          is_finite mm = true -> is_finite ca = true -> is_finite d25 = true ->
          exists v,
            _calc_value cost_df cfg mm ca d22 d25 eth rdsl spk tech tech_name period_val
            = Ok v
            /\ is_zero v = true)).
Proof.
  split; [exact safe_base_missing|].
  intros cost_df cfg mm ca d22 d25 eth rdsl spk tech tech_name p k Hk.
  pose proof (price_of_with_key _ _ _ p cost_df cfg mm ca d22 d25 eth rdsl spk Hk) as Hv.
  cbv zeta in Hv.
  rewrite <- !(calc_value_by_category cost_df cfg mm ca d22 d25 eth rdsl spk tech) in Hv.
  split; [|split].
  - destruct Hv as [E|[E|E]]; rewrite E; eauto.
  - intros table Hsame. rewrite !calc_value_by_category.
    apply price_of_lookup_key with (k := k); assumption.
  - intros Hmiss Hmm Hca Hd25.
    rewrite (safe_base_missing _ _ _ Hmiss) in Hv.
    assert (Hz : is_zero (chain mm ca 0 d25) = true).
    { apply chain_zero; [reflexivity | assumption..]. }
    destruct Hv as [E|[E|E]]; rewrite E; eexists; (split; [reflexivity|]).
    + exact Hz.
    + apply FloatFacts.mul_zero_finite; [exact Hz | reflexivity].
    + apply FloatFacts.mul_zero_finite; [exact Hz | reflexivity].
Qed.

Lemma calc_value_missing_lookup_zero_witness :
  _safe_base_from_cost [mkCostRow 2030 "T_dsl" 10] 2035 "T_dsl" = 0%float
  /\ exists v,
       _calc_value [mkCostRow 2030 "T_dsl" 10] ∅ 1.1 1.05 0.9 0.95 1 2 3
         "MAR_MDO" "I_MDO" 2035 = Ok v
       /\ is_zero v = true.
Proof.
  destruct calc_value_missing_lookup_zero as [Hbase Hres].
  assert (Hmiss : no_row [mkCostRow 2030 "T_dsl" 10] 2035 "T_dsl").
  { intros r Hr [Hp _]. apply list_elem_of_In in Hr.
    destruct Hr as [<-|[]]. discriminate Hp. }
  split.
  - apply Hbase, Hmiss.
  - destruct (Hres [mkCostRow 2030 "T_dsl" 10] ∅
                1.1%float 1.05%float 0.9%float 0.95%float 1%float 2%float 3%float
                "MAR_MDO" "I_MDO" 2035%Z "T_dsl")
      as (_ & _ & H); [reflexivity|].
    apply H; [exact Hmiss | reflexivity..].
Defined.

(** C2, as stated, fails: with an infinite BTU factor a missed lookup
    yields NaN, not 0.0; and a name absent from the table may still be
    priced, through its proxy ("A_dsl" through "T_dsl"). *)
Lemma calc_value_missing_lookup_not_zero :
  _safe_base_from_cost [] 2030 "T_dsl" = 0%float
  /\ _calc_value [] ∅ infinity 1 1 1 1 1 1 "t" "T_dsl" 2030 = Ok nan
  /\ is_zero nan = false
  /\ List.filter (cost_mask 2030 "A_dsl") [mkCostRow 2030 "T_dsl" 10] = []
  /\ _calc_value [mkCostRow 2030 "T_dsl" 10] ∅ 1.1 1.05 0.9 0.95 1 1 1
       "t" "A_dsl" 2030 = Ok 10.9725%float.
Proof. repeat split; vm_compute; reflexivity. Qed.

(** ** Overflow in a chain of products *)

Module OverflowFacts.

Import FloatFacts SignFacts.

Lemma shr_1_nonneg (mrs : shr_record) :
  (0 <= shr_m mrs)%Z -> (0 <= shr_m (shr_1 mrs))%Z.
Proof.
  destruct mrs as [m r s]. cbn [shr_m]. intros H.
  destruct m as [|[p|p|]|[p|p|]]; cbn; lia.
Qed.

Lemma iter_pos_nonneg (p : positive) (mrs : shr_record) :
  (0 <= shr_m mrs)%Z -> (0 <= shr_m (SpecFloat.iter_pos shr_1 p mrs))%Z.
Proof.
  revert mrs. induction p as [p IH|p IH|]; intros mrs H; cbn [SpecFloat.iter_pos].
  - apply IH, IH, shr_1_nonneg, H.
  - apply IH, IH, H.
  - apply shr_1_nonneg, H.
Qed.

Lemma shr_fexp_nonneg (m e : Z) (l : location) :
  (0 <= m)%Z -> (0 <= shr_m (fst (shr_fexp prec emax m e l)))%Z.
Proof.
  intros H. unfold shr_fexp, shr.
  assert (H0 : (0 <= shr_m (shr_record_of_loc m l))%Z).
  { destruct l as [|[]]; exact H. }
  destruct (fexp prec emax (Zdigits2 m + e) - e)%Z; cbn [fst]; try exact H0.
  apply iter_pos_nonneg, H0.
Qed.

Lemma round_nearest_even_nonneg (m : Z) (l : location) :
  (0 <= m)%Z -> (0 <= round_nearest_even m l)%Z.
Proof.
  intros H. destruct l as [|[]]; cbn; try lia.
  destruct (IntDef.Z.even m); lia.
Qed.

(** Rounding a non-negative mantissa gives a zero, a positive number or
    plus infinity, never NaN. *)
Lemma binary_round_aux_class (mx ex : Z) (lx : location) :
  (0 <= mx)%Z ->
  match binary_round_aux prec emax false mx ex lx with
  | S754_zero false | S754_finite false _ _ | S754_infinity false => True
  | _ => False
  end.
Proof.
  intros H. unfold binary_round_aux.
  pose proof (shr_fexp_nonneg mx ex lx H) as H1.
  destruct (shr_fexp prec emax mx ex lx) as [mrs' e']. cbn [fst] in H1.
  pose proof (shr_fexp_nonneg _ e' loc_Exact
                (round_nearest_even_nonneg _ (loc_of_shr_record mrs') H1)) as H2.
  destruct (shr_fexp prec emax _ e' loc_Exact) as [mrs'' e'']. cbn [fst] in H2.
  destruct (shr_m mrs''); [exact I | | lia].
  destruct (e'' <=? emax - prec)%Z; exact I.
Qed.

Lemma sf_mul_class (a b : spec_float) :
  sf_good a -> sf_good b ->
  sf_good (SF64mul a b) \/ SF64mul a b = S754_infinity false.
Proof.
  destruct a as [sa|sa| |[] ma ea], b as [sb|sb| |[] mb eb]; cbn; try tauto.
  intros _ _.
  pose proof (binary_round_aux_class (Z.pos (ma * mb)) (ea + eb) loc_Exact) as H.
  destruct (binary_round_aux prec emax false (Z.pos (ma * mb)) (ea + eb) loc_Exact)
    as [[]|[]| |[] m e]; cbn in *; try tauto; try (exfalso; apply H; lia).
Qed.

Lemma good_sf (x : float) : good x <-> sf_good (Prim2SF x).
Proof.
  unfold good. rewrite nonneg_sf, is_finite_sf.
  destruct (Prim2SF x) as [[]|[]| |[] m e]; cbn; intuition congruence.
Qed.

Lemma infinity_sf (x : float) : x = infinity <-> Prim2SF x = S754_infinity false.
Proof.
  split; [intros ->; reflexivity|].
  intros H. apply Prim2SF_inj. rewrite H. reflexivity.
Qed.

(** The product of two non-negative finite numbers is one, or plus
    infinity. *)
Lemma mul_good (x y : float) : good x -> good y -> good (x * y) \/ (x * y)%float = infinity.
Proof.
  rewrite !good_sf, infinity_sf, mul_spec. apply sf_mul_class.
Qed.

(** Plus infinity times a zero is NaN. *)
Lemma mul_infinity_zero (y : float) : is_zero y = true -> is_nan (infinity * y) = true.
Proof.
  rewrite is_zero_sf, is_nan_sf, mul_spec, Prim2SF_infinity.
  destruct (Prim2SF y); cbn; tauto.
Qed.

(** Plus infinity times a positive finite number is plus infinity. *)
Lemma mul_infinity_positive (y : float) :
  good y -> is_zero y = false -> (infinity * y)%float = infinity.
Proof.
  intros Hy Hz. apply infinity_sf. rewrite mul_spec, Prim2SF_infinity.
  apply good_sf in Hy.
  assert (Hnz : ~ sf_zero (Prim2SF y)).
  { intros H. apply is_zero_sf in H. congruence. }
  destruct (Prim2SF y) as [[]|[]| |[] m e]; cbn in *; tauto.
Qed.

(** NaN times anything is NaN. *)
Lemma mul_nan (x y : float) : is_nan x = true -> is_nan (x * y) = true.
Proof.
  rewrite !is_nan_sf, mul_spec. intros ->. reflexivity.
Qed.

Lemma getitem_some {V : Type} (d : gmap string V) (k : string) (v : V) :
  getitem d k = Ok v -> d !! k = Some v.
Proof. unfold getitem. destruct (d !! k); congruence. Qed.

Lemma good_finite (x : float) : good x -> is_finite x = true.
Proof. intros [_ H]. exact H. Qed.

Lemma good_not_nan (x : float) : good x -> is_nan x = false.
Proof.
  intros [_ H]. unfold is_finite in H.
  apply negb_true_iff, orb_false_iff in H. tauto.
Qed.

Lemma good_not_infinity (x : float) : good x -> x <> infinity.
Proof. intros [_ H] ->. discriminate H. Qed.

Lemma nan_not_finite (x : float) : is_nan x = true -> is_finite x = false.
Proof. intros H. unfold is_finite. rewrite H. reflexivity. Qed.

Lemma product_snoc (b : float) (fs : list float) (f : float) :
  product b (fs ++ [f]) = (product b fs * f)%float.
Proof. unfold product. rewrite fold_left_app. reflexivity. Qed.

(** A split of [fs ++ [f]] at an element is the split at [f], or a split
    of [fs]. *)
Lemma snoc_split {A : Type} (fs pre post : list A) (f g : A) :
  fs ++ [f] = pre ++ g :: post ->
  (pre = fs /\ g = f /\ post = [])
  \/ exists post', post = post' ++ [f] /\ fs = pre ++ g :: post'.
Proof.
  induction post as [|x post' _] using rev_ind.
  - intros H. apply app_inj_tail in H. destruct H as [-> ->]. left. auto.
  - intros H. rewrite app_comm_cons, app_assoc in H.
    apply app_inj_tail in H. destruct H as [-> ->]. right. eauto.
Qed.

Lemma overflow_snoc (b : float) (fs : list float) (f : float) :
  overflow b fs -> overflow b (fs ++ [f]).
Proof.
  intros (pre & g & post & -> & H). exists pre, g, (post ++ [f]).
  split; [|exact H]. rewrite <- app_assoc. reflexivity.
Qed.

Lemma zero_after_overflow_snoc (b : float) (fs : list float) (f : float) :
  zero_after_overflow b fs -> zero_after_overflow b (fs ++ [f]).
Proof.
  intros (pre & g & post & -> & H). exists pre, g, (post ++ [f]).
  split; [|exact H]. rewrite <- app_assoc. reflexivity.
Qed.

(** The three classes of a chain of products of non-negative finite
    numbers: no overflow and a non-negative finite result; an overflow
    that met no zero and plus infinity; an overflow that met a zero and
    NaN. *)
Lemma product_class (b : float) (fs : list float) :
  good b -> Forall good fs ->
  (good (product b fs) /\ ~ overflow b fs /\ ~ zero_after_overflow b fs)
  \/ (product b fs = infinity /\ overflow b fs /\ ~ zero_after_overflow b fs)
  \/ (is_nan (product b fs) = true /\ overflow b fs /\ zero_after_overflow b fs).
Proof.
  intros Hb. induction fs as [|f fs IH] using rev_ind; intros Hfs.
  - left. split; [exact Hb|].
    split; intros (pre & g & post & E & _); destruct pre; discriminate E.
  - apply Forall_app in Hfs. destruct Hfs as [Hfs Hf].
    apply Forall_cons in Hf. destruct Hf as [Hf _].
    rewrite product_snoc.
    destruct (IH Hfs) as [(Hp & Hno & Hnz)|[(Hp & Hov & Hnz)|(Hp & Hov & Hz)]].
    + assert (Hnz' : ~ zero_after_overflow b (fs ++ [f])).
      { intros (pre & g & post & E & Hinf & Hzg).
        apply snoc_split in E. destruct E as [(-> & _ & _)|(post' & _ & ->)].
        - exact (good_not_infinity _ Hp Hinf).
        - apply Hnz. exists pre, g, post'. auto. }
      destruct (mul_good _ _ Hp Hf) as [Hg|Hinf].
      * left. split; [exact Hg|]. split; [|exact Hnz'].
        intros (pre & g & post & E & Hfin & Hinf).
        apply snoc_split in E. destruct E as [(-> & -> & _)|(post' & _ & ->)].
        -- exact (good_not_infinity _ Hg Hinf).
        -- apply Hno. exists pre, g, post'. auto.
      * right; left. split; [exact Hinf|]. split; [|exact Hnz'].
        exists fs, f, []. split; [reflexivity|].
        split; [apply good_finite, Hp | exact Hinf].
    + rewrite Hp. destruct (is_zero f) eqn:Hzf.
      * right; right. split; [apply mul_infinity_zero, Hzf|].
        split; [apply overflow_snoc, Hov|].
        exists fs, f, []. auto.
      * right; left. split; [apply mul_infinity_positive; assumption|].
        split; [apply overflow_snoc, Hov|].
        intros (pre & g & post & E & Hinf & Hzg).
        apply snoc_split in E. destruct E as [(-> & -> & _)|(post' & _ & ->)].
        -- congruence.
        -- apply Hnz. exists pre, g, post'. auto.
    + right; right. split; [apply mul_nan, Hp|].
      split; [apply overflow_snoc, Hov | apply zero_after_overflow_snoc, Hz].
Qed.

(** Every strategy is the product of its base price and its factors. *)
Lemma price_of_product (cost_df : list CostRow) (cfg : gmap string float)
    (mm ca d22 d25 eth rdsl spk : float) (c : category)
    (tech_name : string) (p : Z) :
  price_of cost_df cfg mm ca d22 d25 eth rdsl spk c tech_name p
  = (b ← base_of cost_df cfg eth rdsl spk c tech_name p;
     Ok (product b (factors_of c mm ca d22 d25))).
Proof. destruct c; reflexivity. Qed.

Lemma base_of_good (cost_df : list CostRow) (cfg : gmap string float)
    (eth rdsl spk : float) (c : category) (tech_name : string) (p : Z) (b : float) :
  Forall (fun r => good (cr_value r)) cost_df ->
  (forall k x, cfg !! k = Some x -> good x) ->
  good eth -> good rdsl -> good spk ->
  base_of cost_df cfg eth rdsl spk c tech_name p = Ok b -> good b.
Proof.
  intros Hcost Hcfg Heth Hrdsl Hspk. unfold base_of.
  destruct c; try (intros [= <-]; first [assumption | apply safe_base_good, Hcost]).
  - intros H. apply getitem_some in H. exact (Hcfg _ _ H).
  - intros H. apply getitem_some in H. exact (Hcfg _ _ H).
Qed.

Lemma factors_of_good (c : category) (mm ca d22 d25 : float) :
  good mm -> good ca -> good d22 -> good d25 ->
  Forall good (factors_of c mm ca d22 d25).
Proof.
  intros Hmm Hca Hd22 Hd25.
  assert (H89 : good 0.89) by (split; reflexivity).
  assert (H9 : good 0.9) by (split; reflexivity).
  destruct c; cbn [factors_of];
    repeat first [apply List.Forall_nil | apply List.Forall_cons; [assumption|]].
Qed.

End OverflowFacts.

Import OverflowFacts.

(** C9 (amended).  When every raw cost-table value, configuration price,
    fixed external price and conversion factor is non-negative and finite,
    the resolver returns a price as soon as both configuration prices are
    present, and a price it returns is never negative: unless it is NaN it
    is at least 0.0.  The price is the base price of the category times
    its factors, multiplied left to right, and it is finite (and then
    non-negative) exactly when none of these multiplications overflows; it
    is NaN exactly when an overflowed product is multiplied by a zero
    factor, and plus infinity in the remaining case. *)
Theorem calc_value_never_negative
    (cost_df : list CostRow) (cfg : gmap string float)
    (mm ca d22 d25 eth rdsl spk : float)
    (tech tech_name : string) (period_val : Z) :
  Forall (fun r => good (cr_value r)) cost_df ->
  (forall k x, cfg !! k = Some x -> good x) ->
  good mm -> good ca -> good d22 -> good d25 ->
  good eth -> good rdsl -> good spk ->
  let calc :=
    _calc_value cost_df cfg mm ca d22 d25 eth rdsl spk tech tech_name period_val in
  let fs := factors_of (categorize tech_name) mm ca d22 d25 in
  (is_Some (cfg !! "b_price") -> is_Some (cfg !! "u_price") -> exists v, calc = Ok v)
  /\ (forall v, calc = Ok v ->
      (negative v = false /\ (is_nan v = false -> nonneg v = true))
      /\ exists b,
          base_of cost_df cfg eth rdsl spk (categorize tech_name) tech_name period_val
          = Ok b
          /\ good b /\ Forall good fs
          /\ v = product b fs
          /\ (is_finite v = true <-> ~ overflow b fs)
          /\ (is_finite v = true -> nonneg v = true)
          /\ (is_nan v = true <-> zero_after_overflow b fs)
          /\ (is_finite v = false -> is_nan v = false -> v = infinity)).
Proof.
  intros Hcost Hcfg Hmm Hca Hd22 Hd25 Heth Hrdsl Hspk calc fs. subst calc.
  rewrite calc_value_by_category. split; [apply price_of_total|].
  intros v Hv.
  assert (Hneg : negative v = false).
  { exact (price_of_not_negative _ _ _ _ _ _ _ _ _ _ _ _ _
             Hcost Hcfg Hmm Hca Hd22 Hd25 Heth Hrdsl Hspk Hv). }
  split; [split; [exact Hneg | apply FloatFacts.not_negative_nonneg, Hneg]|].
  rewrite price_of_product in Hv.
  destruct (base_of cost_df cfg eth rdsl spk (categorize tech_name) tech_name period_val)
    as [b|e] eqn:Hb; [|discriminate Hv].
  cbn [mbind result_bind] in Hv. injection Hv as <-. fold fs.
  assert (Hgb : good b).
  { exact (base_of_good _ _ _ _ _ _ _ _ _ Hcost Hcfg Heth Hrdsl Hspk Hb). }
  assert (Hgf : Forall good fs) by (apply factors_of_good; assumption).
  exists b. split; [reflexivity|]. split; [exact Hgb|]. split; [exact Hgf|].
  split; [reflexivity|].
  destruct (product_class b fs Hgb Hgf)
    as [(Hp & Hno & Hnz)|[(Hp & Hov & Hnz)|(Hp & Hov & Hz)]].
  - pose proof (good_not_nan _ Hp) as Hnn. destruct Hp as [Hge Hfin].
    rewrite Hfin, Hnn. intuition congruence.
  - rewrite Hp. change (is_finite infinity) with false.
    change (is_nan infinity) with false. intuition congruence.
  - rewrite Hp, (nan_not_finite _ Hp). intuition congruence.
Qed.

Lemma calc_value_never_negative_witness :
  exists v,
    _calc_value [mkCostRow 2030 "T_dsl" 10] {[ "b_price" := 2%float; "u_price" := 5%float ]}
      1.1 1.05 0.9 0.95 1 2 3 "t" "I_MDO" 2030 = Ok v
    /\ negative v = false /\ nonneg v = true
    /\ ~ overflow 10 [1.1; 1.05; 0.95; 0.9]%float.
Proof.
  destruct (calc_value_never_negative
              [mkCostRow 2030 "T_dsl" 10]
              {[ "b_price" := 2%float; "u_price" := 5%float ]}
              1.1 1.05 0.9 0.95 1 2 3 "t" "I_MDO" 2030) as [Htot Hsign].
  - repeat constructor.
  - intros k x Hk.
    destruct (decide (k = "b_price")) as [->|Hb].
    { vm_compute in Hk. injection Hk as <-. split; reflexivity. }
    destruct (decide (k = "u_price")) as [->|Hu].
    { vm_compute in Hk. injection Hk as <-. split; reflexivity. }
    rewrite lookup_insert_ne, lookup_singleton_ne in Hk by congruence.
    discriminate.
  - split; reflexivity.
  - split; reflexivity.
  - split; reflexivity.
  - split; reflexivity.
  - split; reflexivity.
  - split; reflexivity.
  - split; reflexivity.
  - destruct Htot as [v Hv]; [eexists; reflexivity..|].
    exists v. split; [exact Hv|].
    destruct (Hsign v Hv) as ((Hn & Hnn) & b & Hb & _ & _ & _ & Hfin & _).
    assert (Eb : b = 10%float) by (vm_compute in Hb; congruence). subst b.
    assert (Hfv : is_finite v = true /\ is_nan v = false).
    { revert Hv. vm_compute. intros [= <-]. split; reflexivity. }
    split; [exact Hn|]. split; [apply Hnn, Hfv|].
    exact (proj1 Hfin (proj1 Hfv)).
Defined.

(** C9, as stated, fails: with non-negative finite inputs the product can
    overflow to plus infinity, and an overflowed product times a zero
    factor is NaN, which is not [>= 0]. *)
Lemma calc_value_overflow :
  (good 1e308 /\ good 10 /\ good 1 /\ good 0)
  /\ _calc_value [mkCostRow 2030 "T_dsl" 1e308] ∅ 10 1 1 1 1 1 1 "t" "T_dsl" 2030
     = Ok infinity
  /\ is_finite infinity = false
  /\ _calc_value [mkCostRow 2030 "T_dsl" 1e308] ∅ 10 0 1 1 1 1 1 "t" "T_dsl" 2030
     = Ok nan
  /\ is_finite nan = false /\ nonneg nan = false.
Proof. unfold good. repeat split; vm_compute; reflexivity. Qed.

(** ** The loops of the builder *)

Module LoopFacts.

Lemma bind_ok_inv {A B : Type} (m : result A) (f : A -> result B) (b : B) :
  m ≫= f = Ok b -> exists a, m = Ok a /\ f a = Ok b.
Proof. destruct m as [a|e]; cbn; [eauto | discriminate]. Qed.

Lemma getitem_ok {V : Type} (d : gmap string V) (k : string) (v : V) :
  getitem d k = Ok v <-> d !! k = Some v.
Proof. unfold getitem. destruct (d !! k); split; congruence. Qed.

(** A loop whose body appends what [emit] returns appends the gathered rows. *)
Lemma for_in_gather {A : Type} (xs : list A)
    (body : A -> list Row -> result (list Row)) (emit : A -> result (list Row)) :
  (forall x rows, body x rows = (ext ← emit x; Ok (rows ++ ext))) ->
  forall rows, for_in xs body rows = (ext ← gather xs emit; Ok (rows ++ ext)).
Proof.
  intros Hbody. induction xs as [|x xs IH]; intros rows; cbn [for_in gather].
  - cbn. rewrite app_nil_r. reflexivity.
  - rewrite Hbody. destruct (emit x) as [r|e]; cbn; [|reflexivity].
    rewrite IH. destruct (gather xs emit) as [rs|e]; cbn; [|reflexivity].
    rewrite app_assoc. reflexivity.
Qed.

Lemma gather_cons_ok {A : Type} (x : A) (xs : list A)
    (emit : A -> result (list Row)) (rs : list Row) :
  gather (x :: xs) emit = Ok rs ->
  exists r rs', emit x = Ok r /\ gather xs emit = Ok rs' /\ rs = r ++ rs'.
Proof.
  cbn [gather]. intros H.
  apply bind_ok_inv in H. destruct H as (r & Hr & H).
  apply bind_ok_inv in H. destruct H as (rs' & Hrs & H).
  injection H as <-. eauto.
Qed.

(** A gathering that returns has run every emission to its end. *)
Lemma gather_ok_each {A : Type} (xs : list A) (emit : A -> result (list Row))
    (rs : list Row) :
  gather xs emit = Ok rs -> forall x, x ∈ xs -> exists r, emit x = Ok r.
Proof.
  revert rs. induction xs as [|y xs IH]; intros rs H x Hx.
  - inversion Hx.
  - apply gather_cons_ok in H. destruct H as (r & rs' & Hr & Hrs & _).
    apply elem_of_cons in Hx. destruct Hx as [->|Hx]; [eauto|].
    eapply IH; eassumption.
Qed.

(** It returns when every emission does. *)
Lemma gather_total {A : Type} (xs : list A) (emit : A -> result (list Row)) :
  (forall x, x ∈ xs -> exists r, emit x = Ok r) -> exists rs, gather xs emit = Ok rs.
Proof.
  induction xs as [|y xs IH]; intros H; cbn [gather]; [eauto|].
  destruct (H y) as [r Hr]; [left|].
  destruct IH as [rs Hrs]; [intros x Hx; apply H; right; exact Hx|].
  rewrite Hr, Hrs. cbn. eauto.
Qed.

(** The rows gathered are those of the emissions, in order. *)
Lemma gather_keys {A : Type} (xs : list A) (emit : A -> result (list Row))
    (g : A -> list key) (rs : list Row) :
  (forall x r, x ∈ xs -> emit x = Ok r -> map row_key r = map Some (g x)) ->
  gather xs emit = Ok rs ->
  map row_key rs = map Some (xs ≫= g).
Proof.
  revert rs. induction xs as [|y xs IH]; intros rs Hg H.
  - cbn in H. injection H as <-. reflexivity.
  - apply gather_cons_ok in H. destruct H as (r & rs' & Hr & Hrs & ->).
    rewrite bind_cons, !map_app. f_equal.
    + apply Hg; [left | exact Hr].
    + apply IH; [|exact Hrs]. intros x r' Hx. apply Hg. right. exact Hx.
Qed.

End LoopFacts.

(** ** The enumeration of the builder *)

Module BuilderFacts.

Import LoopFacts.

Lemma tech_body_emit (w : World) (pro : string) (vint per : Z) (tech : string)
    (rows : list Row) :
  tech_body w pro vint per tech rows
  = (ext ← emit_tech w pro vint per tech; Ok (rows ++ ext)).
Proof.
  unfold tech_body, emit_tech. destruct (excluded tech); cbn.
  - rewrite app_nil_r. reflexivity.
  - destruct (price_row w pro vint per tech); reflexivity.
Qed.

Lemma per_body_emit (w : World) (pro : string) (vint per : Z) (rows : list Row) :
  per_body w pro vint per rows = (ext ← emit_per w pro vint per; Ok (rows ++ ext)).
Proof.
  unfold per_body, emit_per. destruct (per <? vint)%Z; cbn.
  - rewrite app_nil_r. reflexivity.
  - apply for_in_gather. intros. apply tech_body_emit.
Qed.

Lemma vint_body_emit (w : World) (pro : string) (vint : Z) (rows : list Row) :
  vint_body w pro vint rows = (ext ← emit_vint w pro vint; Ok (rows ++ ext)).
Proof.
  unfold vint_body, emit_vint. apply for_in_gather. intros. apply per_body_emit.
Qed.

Lemma pro_body_emit (w : World) (pro : string) (rows : list Row) :
  pro_body w pro rows = (ext ← emit_pro w pro; Ok (rows ++ ext)).
Proof.
  unfold pro_body, emit_pro. destruct (String.eqb pro "CAN"); cbn.
  - rewrite app_nil_r. reflexivity.
  - apply for_in_gather. intros. apply vint_body_emit.
Qed.

(** The accumulating loops return what the emissions gather. *)
Lemma build_rows_gather (w : World) :
  build_rows w = gather (province_list w) (emit_pro w).
Proof.
  unfold build_rows. rewrite (for_in_gather _ _ (emit_pro w)).
  - destruct (gather (province_list w) (emit_pro w)); reflexivity.
  - intros. apply pro_body_emit.
Qed.

(** The priced row of a combination carries its key. *)
Lemma price_row_key (w : World) (pro : string) (vint per : Z) (tech : string) (r : Row) :
  price_row w pro vint per tech = Ok r -> row_key r = Some (pro, per, tech, vint).
Proof.
  unfold price_row. intros H.
  repeat (apply bind_ok_inv in H; destruct H as (? & _ & H)).
  destruct (fuel_notes _ _) as [notes ref].
  apply bind_ok_inv in H. destruct H as (? & _ & H).
  injection H as <-. reflexivity.
Qed.

Lemma emit_tech_keys (w : World) (pro : string) (vint per : Z) (tech : string)
    (rs : list Row) :
  emit_tech w pro vint per tech = Ok rs ->
  map row_key rs = map Some (keys_tech pro vint per tech).
Proof.
  unfold emit_tech, keys_tech. destruct (excluded tech).
  - intros [= <-]. reflexivity.
  - intros H. apply bind_ok_inv in H. destruct H as (r & Hr & H).
    injection H as <-. cbn. rewrite (price_row_key _ _ _ _ _ _ Hr). reflexivity.
Qed.

Lemma emit_per_keys (w : World) (pro : string) (vint per : Z) (rs : list Row) :
  emit_per w pro vint per = Ok rs ->
  map row_key rs = map Some (keys_per (tech_list w) pro vint per).
Proof.
  unfold emit_per, keys_per. destruct (per <? vint)%Z.
  - intros [= <-]. reflexivity.
  - apply gather_keys. intros tech r _. apply emit_tech_keys.
Qed.

Lemma emit_vint_keys (w : World) (pro : string) (vint : Z) (rs : list Row) :
  emit_vint w pro vint = Ok rs ->
  map row_key rs = map Some (keys_vint (periods w) (tech_list w) pro vint).
Proof.
  unfold emit_vint, keys_vint. apply gather_keys. intros per r _. apply emit_per_keys.
Qed.

Lemma emit_pro_keys (w : World) (pro : string) (rs : list Row) :
  emit_pro w pro = Ok rs ->
  map row_key rs = map Some (keys_pro (periods w) (tech_list w) pro).
Proof.
  unfold emit_pro, keys_pro. destruct (String.eqb pro "CAN").
  - intros [= <-]. reflexivity.
  - apply gather_keys. intros vint r _. apply emit_vint_keys.
Qed.

Lemma combos_levels (provinces : list string) (pers : list Z) (techs : list string) :
  combos provinces pers techs = provinces ≫= keys_pro pers techs.
Proof. reflexivity. Qed.

(** The keys of the emitted rows are the surviving combinations, in order. *)
Lemma build_rows_keys (w : World) (rows : list Row) :
  build_rows w = Ok rows ->
  map row_key rows = map Some (combos (province_list w) (periods w) (tech_list w)).
Proof.
  rewrite build_rows_gather, combos_levels.
  apply gather_keys. intros pro r _. apply emit_pro_keys.
Qed.

(** *** Membership in the enumeration *)

Lemma elem_of_keys_tech (pro : string) (vint per : Z) (tech : string) (k : key) :
  k ∈ keys_tech pro vint per tech <-> excluded tech = false /\ k = (pro, per, tech, vint).
Proof.
  unfold keys_tech. destruct (excluded tech).
  - split; [intros H; inversion H | intros [H _]; discriminate].
  - rewrite list_elem_of_singleton. tauto.
Qed.

Lemma elem_of_keys_per (techs : list string) (pro : string) (vint per : Z) (k : key) :
  k ∈ keys_per techs pro vint per <->
  (vint <= per)%Z /\ exists tech, tech ∈ techs /\ excluded tech = false
                                  /\ k = (pro, per, tech, vint).
Proof.
  unfold keys_per. destruct (Z.ltb_spec per vint) as [Hlt|Hge].
  - split; [intros H; inversion H | intros [H _]; lia].
  - rewrite list_elem_of_bind. setoid_rewrite elem_of_keys_tech. split.
    + intros (tech & [He ->] & Hin). split; [exact Hge|]. exists tech. auto.
    + intros (_ & tech & Hin & He & ->). exists tech. auto.
Qed.

Lemma elem_of_keys_vint (pers : list Z) (techs : list string) (pro : string)
    (vint : Z) (k : key) :
  k ∈ keys_vint pers techs pro vint <->
  exists per tech, per ∈ pers /\ (vint <= per)%Z /\ tech ∈ techs
                   /\ excluded tech = false /\ k = (pro, per, tech, vint).
Proof.
  unfold keys_vint. rewrite list_elem_of_bind. setoid_rewrite elem_of_keys_per. split.
  - intros (per & (Hle & tech & Hin & He & ->) & Hper). exists per, tech. auto.
  - intros (per & tech & Hper & Hle & Hin & He & ->). exists per. split; [|exact Hper].
    split; [exact Hle|]. exists tech. auto.
Qed.

Lemma elem_of_keys_pro (pers : list Z) (techs : list string) (pro : string) (k : key) :
  k ∈ keys_pro pers techs pro <->
  pro <> "CAN" /\
  exists vint per tech, vint ∈ pers /\ per ∈ pers /\ (vint <= per)%Z /\ tech ∈ techs
                        /\ excluded tech = false /\ k = (pro, per, tech, vint).
Proof.
  unfold keys_pro. destruct (String.eqb_spec pro "CAN") as [->|Hne].
  - split; [intros H; inversion H | intros [H _]; congruence].
  - rewrite list_elem_of_bind. setoid_rewrite elem_of_keys_vint. split.
    + intros (vint & (per & tech & Hper & Hle & Hin & He & ->) & Hv).
      split; [exact Hne|]. exists vint, per, tech. auto 10.
    + intros (_ & vint & per & tech & Hv & Hper & Hle & Hin & He & ->).
      exists vint. split; [|exact Hv]. exists per, tech. auto 10.
Qed.

Lemma elem_of_combos (provinces : list string) (pers : list Z) (techs : list string)
    (pro : string) (per : Z) (tech : string) (vint : Z) :
  (pro, per, tech, vint) ∈ combos provinces pers techs <->
  pro ∈ provinces /\ pro <> "CAN" /\ vint ∈ pers /\ per ∈ pers /\ (vint <= per)%Z
  /\ tech ∈ techs /\ excluded tech = false.
Proof.
  rewrite combos_levels, list_elem_of_bind. setoid_rewrite elem_of_keys_pro. split.
  - intros (pro' & (Hne & vint' & per' & tech' & Hv & Hper & Hle & Hin & He & E) & Hpro).
    injection E as -> -> -> ->. auto 10.
  - intros (Hpro & Hne & Hv & Hper & Hle & Hin & He).
    exists pro. split; [|exact Hpro]. split; [exact Hne|].
    exists vint, per, tech. auto 10.
Qed.

End BuilderFacts.

Module EnumFacts.

Import LoopFacts BuilderFacts.

(** *** No combination twice when the input lists have no duplicates *)

Lemma NoDup_keys_tech (pro : string) (vint per : Z) (tech : string) :
  NoDup (keys_tech pro vint per tech).
Proof.
  unfold keys_tech. destruct (excluded tech); [constructor | apply NoDup_singleton].
Qed.

Lemma NoDup_keys_per (techs : list string) (pro : string) (vint per : Z) :
  NoDup techs -> NoDup (keys_per techs pro vint per).
Proof.
  intros Ht. unfold keys_per. destruct (per <? vint)%Z; [constructor|].
  apply NoDup_bind; [|intros; apply NoDup_keys_tech | exact Ht].
  intros t1 t2 k _ _ H1 H2.
  apply elem_of_keys_tech in H1, H2. destruct H1 as [_ ->], H2 as [_ E]. congruence.
Qed.

Lemma NoDup_keys_vint (pers : list Z) (techs : list string) (pro : string) (vint : Z) :
  NoDup pers -> NoDup techs -> NoDup (keys_vint pers techs pro vint).
Proof.
  intros Hp Ht. unfold keys_vint.
  apply NoDup_bind; [|intros; apply NoDup_keys_per, Ht | exact Hp].
  intros p1 p2 k _ _ H1 H2.
  apply elem_of_keys_per in H1, H2.
  destruct H1 as (_ & t1 & _ & _ & ->), H2 as (_ & t2 & _ & _ & E). congruence.
Qed.

Lemma NoDup_keys_pro (pers : list Z) (techs : list string) (pro : string) :
  NoDup pers -> NoDup techs -> NoDup (keys_pro pers techs pro).
Proof.
  intros Hp Ht. unfold keys_pro. destruct (String.eqb pro "CAN"); [constructor|].
  apply NoDup_bind; [|intros; apply NoDup_keys_vint; assumption | exact Hp].
  intros v1 v2 k _ _ H1 H2.
  apply elem_of_keys_vint in H1, H2.
  destruct H1 as (? & ? & _ & _ & _ & _ & ->), H2 as (? & ? & _ & _ & _ & _ & E).
  congruence.
Qed.

Lemma NoDup_combos (provinces : list string) (pers : list Z) (techs : list string) :
  NoDup provinces -> NoDup pers -> NoDup techs -> NoDup (combos provinces pers techs).
Proof.
  intros Hr Hp Ht. rewrite combos_levels.
  apply NoDup_bind; [|intros; apply NoDup_keys_pro; assumption | exact Hr].
  intros r1 r2 k _ _ H1 H2.
  apply elem_of_keys_pro in H1, H2.
  destruct H1 as (_ & ? & ? & ? & _ & _ & _ & _ & _ & ->).
  destruct H2 as (_ & ? & ? & ? & _ & _ & _ & _ & _ & E). congruence.
Qed.

(** *** Counting the rows of a key *)

Lemma count_key_keys (rows : list Row) (ks : list key) (k : key) :
  map row_key rows = map Some ks ->
  count_key k rows = length (List.filter (fun k' => bool_decide (k' = k)) ks).
Proof.
  unfold count_key. revert ks.
  induction rows as [|r rows IH]; intros [|k' ks] H; try discriminate; [reflexivity|].
  cbn in H. injection H as Hk H. cbn [List.filter]. rewrite Hk.
  destruct (decide (k' = k)) as [->|Hne].
  - rewrite !bool_decide_eq_true_2 by reflexivity. cbn. f_equal. apply IH, H.
  - rewrite !bool_decide_eq_false_2 by congruence. apply IH, H.
Qed.

Lemma filter_absent (ks : list key) (k : key) :
  k ∉ ks -> List.filter (fun k' => bool_decide (k' = k)) ks = [].
Proof.
  induction ks as [|k' ks IH]; intros Hn; [reflexivity|].
  apply not_elem_of_cons in Hn. destruct Hn as [Hne Hn]. cbn.
  rewrite bool_decide_eq_false_2 by congruence. apply IH, Hn.
Qed.

Lemma count_NoDup (ks : list key) (k : key) :
  NoDup ks -> k ∈ ks ->
  length (List.filter (fun k' => bool_decide (k' = k)) ks) = 1%nat.
Proof.
  induction 1 as [|k' ks Hnin Hnd IH]; intros Hin; [inversion Hin|].
  cbn. apply elem_of_cons in Hin. destruct Hin as [->|Hin].
  - rewrite bool_decide_eq_true_2 by reflexivity.
    rewrite filter_absent by exact Hnin. reflexivity.
  - rewrite bool_decide_eq_false_2; [apply IH, Hin|].
    intros ->. contradiction.
Qed.

Lemma NoDup_map_Some (ks : list key) : NoDup ks -> NoDup (map Some ks).
Proof. apply (NoDup_fmap_2 Some). Qed.

(** *** The pass returns on inputs on which no subscript can fail *)

Lemma factor_key_present (w : World) (k : string) :
  inputs_ok w -> k ∈ factor_keys -> exists x, getitem (factors w) k = Ok x.
Proof.
  intros (_ & Hf & _) Hk. destruct (Hf k Hk) as [x Hx].
  exists x. apply getitem_ok, Hx.
Qed.

Lemma price_row_total (w : World) (pro : string) (vint per : Z) (tech : string) :
  inputs_ok w -> pro ∈ province_list w -> pro <> "CAN" ->
  tech ∈ tech_list w -> excluded tech = false ->
  exists r, price_row w pro vint per tech = Ok r.
Proof.
  intros Hok Hpro Hne Htech Hex.
  pose proof Hok as (Hmap & _ & Hid & Hb & Hu).
  destruct (Hmap tech Htech Hex) as (entry & He & [out Ho]).
  destruct (Hid pro Hpro Hne) as [did Hd].
  assert (Hk : forall k, In k factor_keys -> exists x, getitem (factors w) k = Ok x).
  { intros k Hk. apply factor_key_present; [exact Hok | apply list_elem_of_In, Hk]. }
  unfold factor_keys in Hk. cbn [In] in Hk.
  destruct (Hk "mmbtuconvertor") as [x1 H1]; [tauto|].
  destruct (Hk "currencyadjustment") as [x2 H2]; [tauto|].
  destruct (Hk "deflation_2022") as [x3 H3]; [tauto|].
  destruct (Hk "deflation_2025") as [x4 H4]; [tauto|].
  destruct (Hk "eth_price") as [x5 H5]; [tauto|].
  destruct (Hk "rdsl_price") as [x6 H6]; [tauto|].
  destruct (Hk "spk_price") as [x7 H7]; [tauto|].
  destruct (SignFacts.price_of_total (cost_df w) (cfg w) x1 x2 x3 x4 x5 x6 x7
              (categorize (strip out)) (strip out) per Hb Hu) as [v Hv].
  rewrite <- (ResolverFacts.calc_value_by_category _ _ _ _ _ _ _ _ _ tech) in Hv.
  unfold price_row.
  rewrite (proj2 (getitem_ok _ _ _) He). cbn [mbind result_bind].
  rewrite (proj2 (getitem_ok _ _ _) Ho). cbn [mbind result_bind].
  rewrite H1, H2, H3, H4, H5, H6, H7. cbn [mbind result_bind].
  rewrite Hv. cbn [mbind result_bind].
  destruct (fuel_notes (fuel_df w) (strip out)) as [notes ref].
  rewrite (proj2 (getitem_ok _ _ _) Hd). cbn [mbind result_bind]. eauto.
Qed.

Lemma emit_pro_total (w : World) (pro : string) :
  inputs_ok w -> pro ∈ province_list w -> exists rs, emit_pro w pro = Ok rs.
Proof.
  intros Hok Hpro. unfold emit_pro.
  destruct (String.eqb_spec pro "CAN") as [->|Hne]; [eauto|].
  apply gather_total. intros vint _. unfold emit_vint.
  apply gather_total. intros per _. unfold emit_per.
  destruct (per <? vint)%Z; [eauto|].
  apply gather_total. intros tech Htech. unfold emit_tech.
  destruct (excluded tech) eqn:Hex; [eauto|].
  destruct (price_row_total w pro vint per tech Hok Hpro Hne Htech Hex) as [r Hr].
  rewrite Hr. cbn. eauto.
Qed.

Lemma build_rows_total (w : World) :
  inputs_ok w -> exists rows, build_rows w = Ok rows.
Proof.
  intros Hok. rewrite build_rows_gather. apply gather_total.
  intros pro Hpro. apply emit_pro_total; assumption.
Qed.

(** *** A failing combination aborts the pass *)

(** A pass that returns has priced every surviving combination. *)
Lemma build_rows_ok_priced (w : World) (rows : list Row)
    (pro : string) (vint per : Z) (tech : string) :
  build_rows w = Ok rows ->
  pro ∈ province_list w -> pro <> "CAN" ->
  vint ∈ periods w -> per ∈ periods w -> (vint <= per)%Z ->
  tech ∈ tech_list w -> excluded tech = false ->
  exists r, price_row w pro vint per tech = Ok r.
Proof.
  intros H Hpro Hne Hv Hp Hle Ht Hex.
  rewrite build_rows_gather in H.
  destruct (gather_ok_each _ _ _ H pro Hpro) as [r1 H1].
  unfold emit_pro in H1. apply String.eqb_neq in Hne. rewrite Hne in H1.
  destruct (gather_ok_each _ _ _ H1 vint Hv) as [r2 H2].
  destruct (gather_ok_each _ _ _ H2 per Hp) as [r3 H3].
  unfold emit_per in H3.
  assert (Hlt : (per <? vint)%Z = false) by (apply Z.ltb_ge; exact Hle).
  rewrite Hlt in H3.
  destruct (gather_ok_each _ _ _ H3 tech Ht) as [r4 H4].
  unfold emit_tech in H4. rewrite Hex in H4.
  apply bind_ok_inv in H4. destruct H4 as (r & Hr & _). eauto.
Qed.

End EnumFacts.

Module SampleFacts.

Lemma sample_rows :
  build_rows sample_world
  = Ok (map (fun k : Z * string * Z * float =>
               let '(per, tech, vint, val) := k in
               [CStr "ON"; CInt per; CStr tech; CInt vint; CFloat val;
                CStr "2020 M$/PJ";
                CStr (if String.eqb tech "T_DSL" then "transport diesel" else "");
                CStr (if String.eqb tech "T_DSL" then "AEO" else "");
                CInt 2; CInt 3; CInt 2; CInt 1; CInt 1; CStr "FUELON1"])
          [(2025%Z, "T_DSL", 2025%Z, 0%float); (2025%Z, "r_elc", 2025%Z, 0%float);
           (2030%Z, "T_DSL", 2025%Z, 10.9725%float); (2030%Z, "r_elc", 2025%Z, 0%float);
           (2030%Z, "T_DSL", 2030%Z, 10.9725%float); (2030%Z, "r_elc", 2030%Z, 0%float)]).
Proof. vm_compute. reflexivity. Qed.

Lemma sample_table :
  getitem (comb_dict sample_world) "CostVariable"
  = Ok (mkDataFrame costvariable_columns [sample_prior_row]).
Proof. vm_compute. reflexivity. Qed.

Lemma sample_build :
  exists d, build_costvariable sample_world = (set_comb_dict sample_world d, Ok d).
Proof.
  unfold build_costvariable. rewrite sample_rows. cbn [map].
  rewrite sample_table. cbn [columns].
  destruct (DataFrame_from_rows _ _) as [new_df|e] eqn:E.
  - eexists. reflexivity.
  - vm_compute in E. discriminate E.
Qed.

End SampleFacts.

Module RowFacts.

Import LoopFacts BuilderFacts EnumFacts.

Lemma keys_elem (rows : list Row) (ks : list key) (r : Row) :
  map row_key rows = map Some ks -> r ∈ rows ->
  exists k, row_key r = Some k /\ k ∈ ks.
Proof.
  revert ks. induction rows as [|r' rows IH]; intros [|k ks] H Hr;
    try discriminate; [inversion Hr|].
  cbn in H. injection H as Hk H.
  apply elem_of_cons in Hr. destruct Hr as [->|Hr].
  - exists k. split; [exact Hk | left].
  - destruct (IH ks H Hr) as (k' & Hk' & Hin). exists k'. split; [exact Hk' | right; exact Hin].
Qed.

Lemma keys_row (rows : list Row) (ks : list key) (k : key) :
  map row_key rows = map Some ks -> k ∈ ks ->
  exists r, r ∈ rows /\ row_key r = Some k.
Proof.
  revert rows. induction ks as [|k' ks IH]; intros [|r rows] H Hk;
    try discriminate; [inversion Hk|].
  cbn in H. injection H as Hr H.
  apply elem_of_cons in Hk. destruct Hk as [->|Hk].
  - exists r. split; [left | exact Hr].
  - destruct (IH rows H Hk) as (r' & Hin & Hr'). exists r'. split; [right; exact Hin | exact Hr'].
Qed.

Lemma valid_combo_elem (w : World) (k : key) :
  valid_combo w k <-> k ∈ combos (province_list w) (periods w) (tech_list w).
Proof.
  destruct k as [[[pro per] tech] vint]. unfold valid_combo.
  rewrite elem_of_combos. reflexivity.
Qed.

(** Every emitted row is the row of a surviving combination. *)
Lemma rows_valid (w : World) (rows : list Row) (r : Row) :
  build_rows w = Ok rows -> r ∈ rows ->
  exists k, row_key r = Some k /\ valid_combo w k.
Proof.
  intros H Hr. destruct (keys_elem _ _ _ (build_rows_keys _ _ H) Hr) as (k & Hk & Hin).
  exists k. split; [exact Hk | apply valid_combo_elem, Hin].
Qed.

(** Every surviving combination has a row. *)
Lemma rows_complete (w : World) (rows : list Row) (k : key) :
  build_rows w = Ok rows -> valid_combo w k ->
  exists r, r ∈ rows /\ row_key r = Some k.
Proof.
  intros H Hk. apply (keys_row _ _ _ (build_rows_keys _ _ H)).
  apply valid_combo_elem, Hk.
Qed.

(** A priced row has found its name mapping and its region identifier. *)
Lemma price_row_ok_inv (w : World) (pro : string) (vint per : Z) (tech : string) (r : Row) :
  price_row w pro vint per tech = Ok r ->
  is_Some (mapping w !! tech) /\ is_Some (dict_id w !! pro).
Proof.
  unfold price_row. intros H.
  apply bind_ok_inv in H. destruct H as (entry & He & H).
  apply getitem_ok in He.
  repeat (apply bind_ok_inv in H; destruct H as (? & _ & H)).
  destruct (fuel_notes _ _) as [notes ref].
  apply bind_ok_inv in H. destruct H as (did & Hd & _).
  apply getitem_ok in Hd. split; eauto.
Qed.

(** *** Only [KeyError] leaves the enumeration *)

Lemma key_errors_ok {A : Type} (a : A) : key_errors_only (Ok a).
Proof. intros e H. discriminate. Qed.

Lemma key_errors_getitem {V : Type} (d : gmap string V) (k : string) :
  key_errors_only (getitem d k).
Proof. unfold getitem. intros e. destruct (d !! k); intros [= <-]. eauto. Qed.

Lemma key_errors_bind {A B : Type} (m : result A) (f : A -> result B) :
  key_errors_only m -> (forall a, key_errors_only (f a)) -> key_errors_only (m ≫= f).
Proof.
  intros Hm Hf e. destruct m as [a|e']; cbn.
  - apply Hf.
  - intros [= <-]. apply Hm. reflexivity.
Qed.

Lemma key_errors_calc_value (cost_df : list CostRow) (cfg : gmap string float)
    (mm ca d22 d25 eth rdsl spk : float) (tech tech_name : string) (p : Z) :
  key_errors_only (_calc_value cost_df cfg mm ca d22 d25 eth rdsl spk tech tech_name p).
Proof.
  rewrite ResolverFacts.calc_value_by_category. unfold price_of.
  destruct (categorize tech_name);
    first [ apply key_errors_ok
          | apply key_errors_bind; [apply key_errors_getitem | intros; apply key_errors_ok] ].
Qed.

Lemma key_errors_price_row (w : World) (pro : string) (vint per : Z) (tech : string) :
  key_errors_only (price_row w pro vint per tech).
Proof.
  unfold price_row.
  repeat (apply key_errors_bind; [apply key_errors_getitem | intros]).
  apply key_errors_bind; [apply key_errors_calc_value | intros v].
  destruct (fuel_notes _ _) as [notes ref].
  apply key_errors_bind; [apply key_errors_getitem | intros; apply key_errors_ok].
Qed.

Lemma key_errors_gather {A : Type} (xs : list A) (emit : A -> result (list Row)) :
  (forall x, key_errors_only (emit x)) -> key_errors_only (gather xs emit).
Proof.
  intros H. induction xs as [|x xs IH]; cbn [gather]; [apply key_errors_ok|].
  apply key_errors_bind; [apply H | intros r].
  apply key_errors_bind; [exact IH | intros; apply key_errors_ok].
Qed.

Lemma key_errors_build_rows (w : World) : key_errors_only (build_rows w).
Proof.
  rewrite build_rows_gather.
  apply key_errors_gather. intros pro. unfold emit_pro.
  destruct (String.eqb pro "CAN"); [apply key_errors_ok|].
  apply key_errors_gather. intros vint. unfold emit_vint.
  apply key_errors_gather. intros per. unfold emit_per.
  destruct (per <? vint)%Z; [apply key_errors_ok|].
  apply key_errors_gather. intros tech. unfold emit_tech.
  destruct (excluded tech); [apply key_errors_ok|].
  apply key_errors_bind; [apply key_errors_price_row | intros; apply key_errors_ok].
Qed.

(** *** The three outcomes of a build *)

Lemma build_costvariable_outcomes (w : World) :
  (exists e, build_costvariable w = (w, Raise e))
  \/ (build_rows w = Ok [] /\ build_costvariable w = (w, Ok (comb_dict w)))
  \/ (exists rows old,
        build_rows w = Ok rows
        /\ comb_dict w !! "CostVariable" = Some old
        /\ rows <> []
        /\ let d := <["CostVariable" := pd_concat old (mkDataFrame (columns old) rows)]>
                      (comb_dict w) in
           build_costvariable w = (set_comb_dict w d, Ok d)).
Proof.
  unfold build_costvariable.
  destruct (build_rows w) as [[|r rows]|e]; [right; left; auto | | left; eauto].
  destruct (getitem (comb_dict w) "CostVariable") as [old|e] eqn:Hold; [|left; eauto].
  apply getitem_ok in Hold.
  unfold DataFrame_from_rows.
  match goal with |- context [forallb ?f ?l] => destruct (forallb f l) end;
    [|left; eauto].
  right; right. exists (r :: rows), old. auto.
Qed.

End RowFacts.

(** ** Claims on the table builder *)

Import LoopFacts BuilderFacts EnumFacts RowFacts SampleFacts.

(** C3 (amended).  When the pass completes, the keys (region, period,
    technology, vintage) of the emitted rows are, in order, the combinations
    with region other than "CAN", period >= vintage and a technology that
    matches no exclusion marker: every emitted row is such a combination (so
    none has period < vintage or region "CAN"), and, provided the region
    list, the period list and the technology catalog hold no duplicates,
    each such combination has exactly one row and no key occurs twice.  The
    pass completes on inputs on which no subscript can fail. *)
Theorem build_rows_one_row_per_combination (w : World) :
  (inputs_ok w -> exists rows, build_rows w = Ok rows)
  /\ (forall rows,
      build_rows w = Ok rows ->
      map row_key rows = map Some (combos (province_list w) (periods w) (tech_list w))
      /\ (forall r, r ∈ rows -> exists k, row_key r = Some k /\ valid_combo w k)
      /\ (NoDup (province_list w) -> NoDup (periods w) -> NoDup (tech_list w) ->
          (forall k, valid_combo w k -> count_key k rows = 1%nat)
          /\ NoDup (map row_key rows))).
Proof.
  split; [apply build_rows_total|].
  intros rows H. pose proof (build_rows_keys _ _ H) as Hk.
  split; [exact Hk|]. split; [intros r; apply rows_valid, H|].
  intros Hr Hp Ht.
  pose proof (NoDup_combos _ _ _ Hr Hp Ht) as Hnd. split.
  - intros k Hv. rewrite (count_key_keys _ _ _ Hk).
    apply count_NoDup; [exact Hnd | apply valid_combo_elem, Hv].
  - rewrite Hk. apply NoDup_map_Some, Hnd.
Qed.

Lemma build_rows_one_row_per_combination_witness :
  exists rows,
    build_rows sample_world = Ok rows
    /\ length rows = 6%nat
    /\ count_key ("ON", 2030%Z, "T_DSL", 2025%Z) rows = 1%nat
    /\ NoDup (map row_key rows).
Proof.
  destruct (build_rows_one_row_per_combination sample_world) as [Htot Hrows].
  rewrite sample_rows in Hrows. eexists. split; [apply sample_rows|].
  split; [reflexivity|].
  destruct (Hrows _ eq_refl) as (_ & _ & Hnd).
  destruct Hnd as [Hone Hnd].
  - apply (bool_decide_unpack _). vm_compute. exact I.
  - apply (bool_decide_unpack _). vm_compute. exact I.
  - apply (bool_decide_unpack _). vm_compute. exact I.
  - split; [|exact Hnd]. apply Hone. unfold valid_combo.
    repeat split; try (apply (bool_decide_unpack _); vm_compute; exact I); discriminate.
Defined.

(** C3, as stated, fails: a region listed twice is enumerated twice, and
    its combinations get two rows each. *)
Lemma build_rows_repeated_region :
  exists r,
    build_rows repeated_region_world = Ok [r; r]
    /\ row_key r = Some ("ON", 2030%Z, "T_DSL", 2030%Z)
    /\ count_key ("ON", 2030%Z, "T_DSL", 2030%Z) [r; r] = 2%nat.
Proof. eexists. repeat split; vm_compute; reflexivity. Qed.

(** C7 (amended).  If the enumeration reaches a combination, that is,
    there is a region other than "CAN", at least one period and a
    technology that matches no exclusion marker, and that technology is
    absent from the name mapping or that region from the region-to-identifier
    map, then the build raises [KeyError] and leaves every object as it
    was. *)
Theorem build_aborts_on_missing_entry (w : World) (pro tech : string) :
  pro ∈ province_list w -> pro <> "CAN" ->
  periods w <> [] ->
  tech ∈ tech_list w -> excluded tech = false ->
  mapping w !! tech = None \/ dict_id w !! pro = None ->
  exists k, build_costvariable w = (w, Raise (KeyError k)).
Proof.
  intros Hpro Hne Hper Htech Hex Hmiss.
  unfold build_costvariable.
  destruct (build_rows w) as [rows|e] eqn:Hrows.
  - exfalso. destruct (periods w) as [|p ps] eqn:Hp; [congruence|].
    destruct (build_rows_ok_priced w rows pro p p tech Hrows Hpro Hne) as [r Hr];
      try assumption; try (rewrite Hp; left); try lia.
    apply price_row_ok_inv in Hr. destruct Hr as [[x Hx] [y Hy]].
    destruct Hmiss; congruence.
  - destruct (key_errors_build_rows w e Hrows) as [k ->]. eauto.
Qed.

Lemma build_aborts_on_missing_entry_witness :
  mapping unmapped_world !! "T_GSL" = None
  /\ exists k, build_costvariable unmapped_world = (unmapped_world, Raise (KeyError k)).
Proof.
  split; [reflexivity|].
  apply (build_aborts_on_missing_entry unmapped_world "ON" "T_GSL").
  - apply (bool_decide_unpack _). vm_compute. exact I.
  - discriminate.
  - discriminate.
  - apply (bool_decide_unpack _). vm_compute. exact I.
  - reflexivity.
  - left. reflexivity.
Defined.

(** C7, as stated, fails: a technology without a name mapping, or a region
    without an identifier, that no combination reaches raises nothing. *)
Lemma build_ignores_unreached_entries :
  ("T_DSL" ∈ tech_list unmapped_unreached_world
   /\ excluded "T_DSL" = false
   /\ mapping unmapped_unreached_world !! "T_DSL" = None
   /\ build_costvariable unmapped_unreached_world
      = (unmapped_unreached_world, Ok (comb_dict unmapped_unreached_world)))
  /\ ("ON" ∈ province_list unidentified_unreached_world
      /\ dict_id unidentified_unreached_world !! "ON" = None
      /\ build_costvariable unidentified_unreached_world
         = (unidentified_unreached_world, Ok (comb_dict unidentified_unreached_world))).
Proof.
  repeat split; try (apply (bool_decide_unpack _); vm_compute; exact I);
    vm_compute; reflexivity.
Qed.

(** C10.  The exclusion filter tests the raw technology identifier, case
    and all, for the markers "F_IMP", "ELC" and "OTH": no emitted row
    belongs to a technology that contains one of them, whereas an
    identifier that only contains a lower-case variant ("elc", "oth",
    "f_imp") is not excluded and gets its row for every surviving
    combination.  The resolver, in contrast, picks the category from the
    lower-cased name, so names equal up to case fall in one category and,
    outside the default rule, get the same price. *)
Theorem exclusion_is_case_sensitive :
  (forall tech,
      excluded tech = true <->
      contains "F_IMP" tech = true \/ contains "ELC" tech = true
      \/ contains "OTH" tech = true)
  /\ (forall w rows r pro per tech vint,
      build_rows w = Ok rows -> r ∈ rows ->
      row_key r = Some (pro, per, tech, vint) -> excluded tech = false)
  /\ (excluded "r_elc" = false /\ excluded "h_oth" = false
      /\ excluded "f_imp_ng" = false /\ excluded "R_ELC" = true)
  /\ (forall w rows pro per tech vint,
      build_rows w = Ok rows ->
      pro ∈ province_list w -> pro <> "CAN" ->
      vint ∈ periods w -> per ∈ periods w -> (vint <= per)%Z ->
      tech ∈ tech_list w -> excluded tech = false ->
      exists r, r ∈ rows /\ row_key r = Some (pro, per, tech, vint))
  /\ (forall n1 n2, lower n1 = lower n2 -> categorize n1 = categorize n2)
  /\ (forall cost_df cfg mm ca d22 d25 eth rdsl spk tech1 tech2 n1 n2 p,
      lower n1 = lower n2 -> categorize n1 <> Default ->
      _calc_value cost_df cfg mm ca d22 d25 eth rdsl spk tech1 n1 p
      = _calc_value cost_df cfg mm ca d22 d25 eth rdsl spk tech2 n2 p)
  /\ (categorize "h_oth" = Default /\ categorize "R_ELC_ETH" = Ethanol
      /\ categorize "r_elc_eth" = Ethanol).
Proof.
  split; [|split; [|split; [|split; [|split; [|split]]]]].
  - intros tech. unfold excluded, contains_any. cbn [existsb].
    rewrite !orb_true_iff. intuition discriminate.
  - intros w rows r pro per tech vint H Hr Hk.
    destruct (rows_valid w rows r H Hr) as (k & Hk' & Hv).
    rewrite Hk in Hk'. injection Hk' as <-. apply Hv.
  - repeat split; reflexivity.
  - intros w rows pro per tech vint H Hpro Hne Hv Hp Hle Ht Hex.
    apply (rows_complete w rows (pro, per, tech, vint) H).
    unfold valid_combo. auto 10.
  - intros n1 n2 H. unfold categorize. rewrite H. reflexivity.
  - intros cost_df cfg mm ca d22 d25 eth rdsl spk tech1 tech2 n1 n2 p H Hnd.
    rewrite !calc_value_by_category.
    assert (Hc : categorize n2 = categorize n1) by (unfold categorize; rewrite H; reflexivity).
    rewrite Hc. unfold price_of. rewrite H.
    destruct (categorize n1); try reflexivity. congruence.
  - repeat split; reflexivity.
Qed.

Lemma exclusion_is_case_sensitive_witness :
  exists rows,
    build_rows sample_world = Ok rows
    /\ (exists r, r ∈ rows /\ row_key r = Some ("ON", 2030%Z, "r_elc", 2025%Z))
    /\ (forall r per vint, r ∈ rows -> row_key r <> Some ("ON", per, "R_ELC", vint)).
Proof.
  destruct exclusion_is_case_sensitive as (_ & Hno & _ & Hyes & _).
  exists (match build_rows sample_world with Ok rows => rows | Raise _ => [] end).
  assert (E : build_rows sample_world
              = Ok (match build_rows sample_world with Ok rows => rows | Raise _ => [] end)).
  { rewrite sample_rows. reflexivity. }
  split; [exact E|]. split.
  - apply (Hyes sample_world _ "ON" 2030%Z "r_elc" 2025%Z E);
      try (apply (bool_decide_unpack _); vm_compute; exact I); try discriminate; reflexivity.
  - intros r per vint Hr Hk.
    specialize (Hno sample_world _ r "ON" per "R_ELC" vint E Hr Hk).
    vm_compute in Hno. discriminate Hno.
Defined.

(** * Further properties of the code *)

(** ** The lookup helper and the resolver *)

Module MoreResolverFacts.

Import ResolverFacts CascadeFacts.

(** Decides the category of a name from facts on its tokens. *)
Ltac categorize_from_tokens :=
  unfold categorize, rule_table; cbn [first_match contains_any existsb];
  repeat match goal with
         | H : contains _ _ = _ |- _ => rewrite H; clear H
         end;
  cbn [orb];
  repeat match goal with
         | |- context [contains ?t ?l] => destruct (contains t l); cbn [orb] in *
         end;
  try discriminate; try reflexivity.

Lemma filter_app_mask (p : Z) (n : string) (a b : list CostRow) :
  List.filter (cost_mask p n) (a ++ b)
  = List.filter (cost_mask p n) a ++ List.filter (cost_mask p n) b.
Proof.
  induction a as [|x a IH]; [reflexivity|]. cbn.
  destruct (cost_mask p n x); cbn; rewrite IH; reflexivity.
Qed.

Lemma filter_nil_no_row (table : list CostRow) (p : Z) (n : string) :
  List.filter (cost_mask p n) table = [] -> no_row table p n.
Proof.
  intros H r Hr Hm. apply cost_mask_true in Hm.
  assert (Hin : In r (List.filter (cost_mask p n) table)).
  { apply filter_In. split; [apply list_elem_of_In, Hr | exact Hm]. }
  rewrite H in Hin. destruct Hin.
Qed.

Lemma categorize_fixed (tech_name : string) :
  contains_any ["bio"; "wood"; "u_nat"; "u_enr"] (lower tech_name) = false ->
  (contains "eth" (lower tech_name) = true -> categorize tech_name = Ethanol)
  /\ (contains "eth" (lower tech_name) = false ->
      contains "rdsl" (lower tech_name) = true -> categorize tech_name = RenewableDiesel)
  /\ (contains "eth" (lower tech_name) = false ->
      contains "rdsl" (lower tech_name) = false ->
      contains "spk" (lower tech_name) = true -> categorize tech_name = SyntheticFuel).
Proof.
  intros Ha. orb_false Ha. repeat split; intros; categorize_from_tokens.
Qed.

Lemma categorize_lng (tech_name : string) :
  contains_any ["bio"; "wood"; "u_nat"; "u_enr"; "eth"; "rdsl"; "spk"]
    (lower tech_name) = false ->
  contains_any ["lng"; "cng"; "ngl"] (lower tech_name) = true ->
  categorize tech_name = LngCngNgl.
Proof.
  intros Ha Hl. orb_false Ha. unfold contains_any in Hl. cbn [existsb] in Hl.
  unfold categorize, rule_table; cbn [first_match contains_any existsb].
  repeat match goal with
         | H : contains _ _ = false |- _ => rewrite H; clear H
         end.
  cbn [orb]. rewrite Hl. reflexivity.
Qed.

Lemma categorize_proxy_is_default (c : category) (tech_name k : string) :
  lookup_key c tech_name = Some k -> c <> Default -> categorize k = Default.
Proof.
  intros Hk Hc. destruct c; cbn [lookup_key] in Hk; try discriminate;
    try congruence; injection Hk as <-;
    repeat match goal with |- context [if ?b then _ else _] => destruct b end;
    reflexivity.
Qed.

End MoreResolverFacts.

Import MoreResolverFacts.

(** X1.  With several rows for one (period, name) pair the lookup takes the
    first: rows before it that differ in period or (case and all) in name
    are passed over, later rows are not read. *)
Theorem safe_base_first_match_wins
    (pre post : list CostRow) (r : CostRow) (period_val : Z) (name : string) :
  no_row pre period_val name ->
  cr_period r = period_val -> cr_tech_name r = name ->
  _safe_base_from_cost (pre ++ r :: post) period_val name = cr_value r.
Proof.
  intros Hpre Hp Hn. unfold _safe_base_from_cost.
  rewrite filter_app_mask, (no_row_filter _ _ _ Hpre). cbn [app List.filter].
  rewrite (proj2 (cost_mask_true _ _ _) (conj Hp Hn)). reflexivity.
Qed.

Lemma safe_base_first_match_wins_witness :
  _safe_base_from_cost
    [mkCostRow 2025 "T_dsl" 5; mkCostRow 2030 "t_dsl" 7;
     mkCostRow 2030 "T_dsl" 1; mkCostRow 2030 "T_dsl" 9] 2030 "T_dsl" = 1%float.
Proof.
  apply (safe_base_first_match_wins
           [mkCostRow 2025 "T_dsl" 5; mkCostRow 2030 "t_dsl" 7]
           [mkCostRow 2030 "T_dsl" 9] (mkCostRow 2030 "T_dsl" 1)).
  - intros r Hr [Hp Hn]. apply list_elem_of_In in Hr.
    destruct Hr as [<-|[<-|[]]]; discriminate.
  - reflexivity.
  - reflexivity.
Defined.

(** X2.  A name that matches none of the biomass and uranium tokens and
    contains "eth" is priced at the ethanol price as it is; failing that,
    one that contains "rdsl" at the renewable-diesel price, and failing
    both, one that contains "spk" at the spk price: no conversion factor,
    no table and no configuration entry takes part. *)
Theorem calc_value_fixed_external_prices
    (cost_df : list CostRow) (cfg : gmap string float)
    (mm ca d22 d25 eth rdsl spk : float)
    (tech tech_name : string) (period_val : Z) :
  contains_any ["bio"; "wood"; "u_nat"; "u_enr"] (lower tech_name) = false ->
  let calc := _calc_value cost_df cfg mm ca d22 d25 eth rdsl spk tech tech_name period_val in
  (contains "eth" (lower tech_name) = true -> calc = Ok eth)
  /\ (contains "eth" (lower tech_name) = false ->
      contains "rdsl" (lower tech_name) = true -> calc = Ok rdsl)
  /\ (contains "eth" (lower tech_name) = false ->
      contains "rdsl" (lower tech_name) = false ->
      contains "spk" (lower tech_name) = true -> calc = Ok spk).
Proof.
  intros Ha calc. subst calc. rewrite calc_value_by_category.
  destruct (categorize_fixed tech_name Ha) as (He & Hr & Hs).
  split; [|split].
  - intros H. rewrite (He H). reflexivity.
  - intros H1 H2. rewrite (Hr H1 H2). reflexivity.
  - intros H1 H2 H3. rewrite (Hs H1 H2 H3). reflexivity.
Qed.

Lemma calc_value_fixed_external_prices_witness :
  _calc_value [mkCostRow 2030 "Methanol" 99] ∅ 1.1 1.05 0.9 0.95 20 30 40
    "t" "Methanol" 2030 = Ok 20%float
  /\ _calc_value [] ∅ 1.1 1.05 0.9 0.95 20 30 40 "t" "T_RDSL" 2030 = Ok 30%float.
Proof.
  split.
  - apply (calc_value_fixed_external_prices [mkCostRow 2030 "Methanol" 99] ∅
             1.1 1.05 0.9 0.95 20 30 40 "t" "Methanol" 2030); reflexivity.
  - apply (calc_value_fixed_external_prices [] ∅
             1.1 1.05 0.9 0.95 20 30 40 "t" "T_RDSL" 2030); reflexivity.
Defined.

(** X3.  Under the LNG/CNG/NGL rule (no token of a rule above it occurs)
    the proxy is "T_ng" as soon as "lng" or "cng" occurs, also when "ngl"
    occurs as well, and "I_prop" when only "ngl" does; the chained price of
    the proxy is multiplied by 0.89. *)
Theorem calc_value_lng_cng_ngl
    (cost_df : list CostRow) (cfg : gmap string float)
    (mm ca d22 d25 eth rdsl spk : float)
    (tech tech_name : string) (period_val : Z) :
  contains_any ["bio"; "wood"; "u_nat"; "u_enr"; "eth"; "rdsl"; "spk"]
    (lower tech_name) = false ->
  let calc := _calc_value cost_df cfg mm ca d22 d25 eth rdsl spk tech tech_name period_val in
  let via proxy :=
    Ok ((((_safe_base_from_cost cost_df period_val proxy * mm) * ca) * d25) * 0.89)%float in
  (contains "lng" (lower tech_name) || contains "cng" (lower tech_name) = true ->
   calc = via "T_ng")
  /\ (contains "lng" (lower tech_name) = false ->
      contains "cng" (lower tech_name) = false ->
      contains "ngl" (lower tech_name) = true ->
      calc = via "I_prop").
Proof.
  intros Ha calc via. subst calc via. rewrite calc_value_by_category. split.
  - intros H. rewrite categorize_lng; [| exact Ha |].
    + unfold price_of, proxied. rewrite H. reflexivity.
    + unfold contains_any. cbn [existsb]. rewrite orb_assoc, H. reflexivity.
  - intros Hl Hc Hn. rewrite categorize_lng; [| exact Ha |].
    + unfold price_of, proxied. rewrite Hl, Hc. reflexivity.
    + unfold contains_any. cbn [existsb]. rewrite Hl, Hc, Hn. reflexivity.
Qed.

Lemma calc_value_lng_cng_ngl_witness :
  _calc_value [mkCostRow 2030 "T_ng" 100; mkCostRow 2030 "I_prop" 200] ∅
    1 1 1 1 20 30 40 "t" "F_NGL_to_LNG" 2030 = Ok 89%float
  /\ _calc_value [mkCostRow 2030 "T_ng" 100; mkCostRow 2030 "I_prop" 200] ∅
       1 1 1 1 20 30 40 "t" "I_NGL" 2030 = Ok 178%float.
Proof.
  split.
  - destruct (calc_value_lng_cng_ngl
                [mkCostRow 2030 "T_ng" 100; mkCostRow 2030 "I_prop" 200] ∅
                1 1 1 1 20 30 40 "t" "F_NGL_to_LNG" 2030) as [H _]; [reflexivity|].
    rewrite H by reflexivity. vm_compute. reflexivity.
  - destruct (calc_value_lng_cng_ngl
                [mkCostRow 2030 "T_ng" 100; mkCostRow 2030 "I_prop" 200] ∅
                1 1 1 1 20 30 40 "t" "I_NGL" 2030) as [_ H]; [reflexivity|].
    rewrite H by reflexivity. vm_compute. reflexivity.
Defined.

(** X4.  The resolver raises only for a missing configuration price: a
    biomass or wood name needs "b_price" and a uranium name needs "u_price",
    and without the entry the call raises [KeyError] on that key; a name
    with none of these four tokens is priced whatever the configuration
    holds, be it empty. *)
Theorem calc_value_raises_only_for_config
    (cost_df : list CostRow) (cfg : gmap string float)
    (mm ca d22 d25 eth rdsl spk : float)
    (tech tech_name : string) (period_val : Z) :
  let l := lower tech_name in
  let calc := _calc_value cost_df cfg mm ca d22 d25 eth rdsl spk tech tech_name period_val in
  (contains "bio" l || contains "wood" l = true -> cfg !! "b_price" = None ->
   calc = Raise (KeyError "b_price"))
  /\ (contains_any ["bio"; "wood"] l = false ->
      contains "u_nat" l || contains "u_enr" l = true -> cfg !! "u_price" = None ->
      calc = Raise (KeyError "u_price"))
  /\ (contains_any ["bio"; "wood"; "u_nat"; "u_enr"] l = false ->
      exists v, calc = Ok v).
Proof.
  intros l calc. subst l calc. rewrite calc_value_by_category. split; [|split].
  - intros Hb Hc. rewrite (categorize_biomass _ Hb).
    unfold price_of, getitem. rewrite Hc. reflexivity.
  - intros Hb Hu Hc. rewrite (categorize_uranium _ Hb Hu).
    unfold price_of, getitem. rewrite Hc. reflexivity.
  - intros Ha. orb_false Ha.
    assert (Hb : categorize tech_name <> Biomass) by (categorize_from_tokens).
    assert (Hu : categorize tech_name <> Uranium) by (categorize_from_tokens).
    unfold price_of. destruct (categorize tech_name); try congruence; eauto.
Qed.

Lemma calc_value_raises_only_for_config_witness :
  _calc_value [] {[ "u_price" := 5%float ]} 1 1 1 1 20 30 40 "t" "Wood_chips" 2030
  = Raise (KeyError "b_price")
  /\ exists v, _calc_value [] ∅ 1 1 1 1 20 30 40 "t" "T_dsl" 2030 = Ok v.
Proof.
  split.
  - destruct (calc_value_raises_only_for_config [] {[ "u_price" := 5%float ]}
                1 1 1 1 20 30 40 "t" "Wood_chips" 2030) as [H _].
    apply H; reflexivity.
  - destruct (calc_value_raises_only_for_config [] ∅
                1 1 1 1 20 30 40 "t" "T_dsl" 2030) as (_ & _ & H).
    apply H. reflexivity.
Defined.

(** X5.  Proxy substitution is one step deep: every proxy name falls under
    the default rule, so a proxied name is priced exactly as its proxy is
    when that is resolved itself, times 0.89 under the LNG/CNG/NGL rule and
    times 0.9 under the MDO rule. *)
Theorem calc_value_of_proxied_name
    (cost_df : list CostRow) (cfg : gmap string float)
    (mm ca d22 d25 eth rdsl spk : float)
    (tech tech' tech_name proxy : string) (period_val : Z) :
  lookup_key (categorize tech_name) tech_name = Some proxy ->
  categorize tech_name <> Default ->
  let calc := _calc_value cost_df cfg mm ca d22 d25 eth rdsl spk in
  categorize proxy = Default
  /\ calc tech tech_name period_val
     = (v ← calc tech' proxy period_val;
        Ok (match categorize tech_name with
            | LngCngNgl => v * 0.89
            | Mdo => v * 0.9
            | _ => v
            end)%float).
Proof.
  intros Hk Hc calc. subst calc.
  pose proof (categorize_proxy_is_default _ _ _ Hk Hc) as Hd.
  split; [exact Hd|].
  rewrite !calc_value_by_category, Hd.
  unfold price_of at 2. cbn [mbind result_bind].
  destruct (categorize tech_name); cbn [lookup_key] in Hk; try discriminate;
    try congruence; injection Hk as <-; reflexivity.
Qed.

Lemma calc_value_of_proxied_name_witness :
  _calc_value [mkCostRow 2030 "T_dsl" 10] ∅ 1.1 1.05 0.9 0.95 20 30 40
    "t" "I_MDO" 2030
  = (v ← _calc_value [mkCostRow 2030 "T_dsl" 10] ∅ 1.1 1.05 0.9 0.95 20 30 40
           "u" "T_dsl" 2030;
     Ok (v * 0.9)%float).
Proof.
  destruct (calc_value_of_proxied_name [mkCostRow 2030 "T_dsl" 10] ∅
              1.1 1.05 0.9 0.95 20 30 40 "t" "u" "I_MDO" "T_dsl" 2030) as [_ H];
    [reflexivity | discriminate |].
  exact H.
Defined.

(** X6.  No rule of the cascade is shadowed: each token, taken alone as a
    name, in lower or in upper case, selects the rule it belongs to. *)
Theorem every_token_selects_its_rule (tokens : list string) (c : category) (tok : string) :
  (tokens, c) ∈ rule_table -> tok ∈ tokens ->
  categorize tok = c /\ forall name, lower name = tok -> categorize name = c.
Proof.
  intros Hr Ht.
  assert (H : categorize tok = c).
  { unfold rule_table in Hr. apply list_elem_of_In in Hr. cbn [In] in Hr.
    repeat (destruct Hr as [Hr|Hr];
            [ injection Hr as <- <-; apply list_elem_of_In in Ht; cbn [In] in Ht;
              repeat (destruct Ht as [<-|Ht]; [reflexivity|]); destruct Ht
            | ]).
    destruct Hr. }
  split; [exact H|].
  intros name Hn. unfold categorize in *. rewrite Hn.
  rewrite <- H. f_equal. symmetry.
  unfold rule_table in Hr. apply list_elem_of_In in Hr. cbn [In] in Hr.
  repeat (destruct Hr as [Hr|Hr];
          [ injection Hr as <- <-; apply list_elem_of_In in Ht; cbn [In] in Ht;
            repeat (destruct Ht as [<-|Ht]; [reflexivity|]); destruct Ht
          | ]).
  destruct Hr.
Qed.

Lemma every_token_selects_its_rule_witness :
  categorize "i_pcoke" = Coke /\ categorize "NGL" = LngCngNgl.
Proof.
  split.
  - apply (every_token_selects_its_rule ["i_pcoke"; "i_coke"] Coke "i_pcoke").
    + apply list_elem_of_In. unfold rule_table. cbn [In]. tauto.
    + apply list_elem_of_In. cbn [In]. tauto.
    + reflexivity.
  - apply (every_token_selects_its_rule ["lng"; "cng"; "ngl"] LngCngNgl "ngl").
    + apply list_elem_of_In. unfold rule_table. cbn [In]. tauto.
    + apply list_elem_of_In. cbn [In]. tauto.
    + reflexivity.
Defined.

(** ** The lines printed by the resolver *)

Module StdoutFacts.

Import ResolverFacts CascadeFacts.

Lemma safe_base_io_value (table : list CostRow) (p : Z) (n label : string) :
  fst (_safe_base_from_cost_io table p n label) = _safe_base_from_cost table p n.
Proof.
  unfold _safe_base_from_cost_io, _safe_base_from_cost.
  destruct (List.filter _ table); reflexivity.
Qed.

Lemma looked_up_eq (table : list CostRow) (p : Z) (proxy label : string)
    (scale : float -> float) :
  looked_up table p proxy label scale
  = (Ok (scale (_safe_base_from_cost table p proxy)),
     snd (_safe_base_from_cost_io table p proxy label)).
Proof.
  unfold looked_up. rewrite <- (safe_base_io_value table p proxy label).
  destruct (_safe_base_from_cost_io table p proxy label). reflexivity.
Qed.

(** The printing resolver, category by category. *)
Lemma calc_value_io_by_category (cost_df : list CostRow) (cfg : gmap string float)
    (mm ca d22 d25 eth rdsl spk : float) (tech tech_name : string) (p : Z) :
  _calc_value_io cost_df cfg mm ca d22 d25 eth rdsl spk tech tech_name p
  = (price_of cost_df cfg mm ca d22 d25 eth rdsl spk (categorize tech_name) tech_name p,
     match lookup_key (categorize tech_name) tech_name with
     | None => []
     | Some k =>
         snd (_safe_base_from_cost_io cost_df p k
                (tech_name +:+ label_suffix (categorize tech_name)))
     end).
Proof.
  unfold _calc_value_io, price_of, lookup_key, label_suffix, categorize,
    rule_table, proxied.
  cbn [first_match contains_any existsb].
  set (l := lower tech_name).
  token_cases l; rewrite ?looked_up_eq; reflexivity.
Qed.

Lemma safe_base_io_cases (table : list CostRow) (p : Z) (n label : string) :
  (snd (_safe_base_from_cost_io table p n label) = [] <->
   exists r, r ∈ table /\ cr_period r = p /\ cr_tech_name r = n)
  /\ (no_row table p n ->
      _safe_base_from_cost_io table p n label = (0%float, [warning_line n p label])).
Proof.
  split.
  - unfold _safe_base_from_cost_io.
    destruct (List.filter (cost_mask p n) table) as [|r rest] eqn:E; cbn [snd].
    + split; [discriminate|]. intros (r & Hr & Hp & Hn). exfalso.
      apply (MoreResolverFacts.filter_nil_no_row _ _ _ E r Hr). auto.
    + split; [intros _|reflexivity]. exists r.
      assert (Hin : In r (List.filter (cost_mask p n) table))
        by (rewrite E; left; reflexivity).
      apply filter_In in Hin. destruct Hin as [Hin Hm].
      apply cost_mask_true in Hm. split; [apply list_elem_of_In, Hin | exact Hm].
  - intros Hmiss. unfold _safe_base_from_cost_io.
    rewrite (no_row_filter _ _ _ Hmiss). reflexivity.
Qed.

End StdoutFacts.

Import StdoutFacts.

(** X7.  The lookup helper prints its warning exactly when no row matches
    the (period, name) pair: then it returns 0.0 after one line that quotes
    the name looked up, the period in decimal and the caller's label;
    otherwise it prints nothing.  Its value is that of the silent model. *)
Theorem safe_base_warns_iff_missing
    (table : list CostRow) (period_val : Z) (name warn_label : string) :
  let io := _safe_base_from_cost_io table period_val name warn_label in
  fst io = _safe_base_from_cost table period_val name
  /\ (snd io = [] <->
      exists r, r ∈ table /\ cr_period r = period_val /\ cr_tech_name r = name)
  /\ (no_row table period_val name ->
      io = (0%float, [warning_line name period_val warn_label])).
Proof.
  intros io. subst io. split; [apply safe_base_io_value|].
  apply safe_base_io_cases.
Qed.

Lemma safe_base_warns_iff_missing_witness :
  _safe_base_from_cost_io [mkCostRow 2030 "T_ng" 4] 2035 "T_ng" "F_LNG (lng/cng/ngl proxy)"
  = (0%float,
     ["[CostVariable] WARNING: No base price for 'T_ng' in period 2035 (needed by F_LNG (lng/cng/ngl proxy)). Returning 0."]).
Proof.
  destruct (safe_base_warns_iff_missing [mkCostRow 2030 "T_ng" 4] 2035 "T_ng"
              "F_LNG (lng/cng/ngl proxy)") as (_ & _ & H).
  rewrite H; [reflexivity|].
  intros r Hr [Hp _]. apply list_elem_of_In in Hr. destruct Hr as [<-|[]]. discriminate Hp.
Defined.

(** X8.  The resolver prints at most one line per call, and only for a
    missed lookup: nothing for the categories priced from the configuration
    or at a fixed price, nothing when a row matches the name looked up, and
    otherwise one warning that quotes the name looked up (the proxy, not
    the technical name), the period, and a label made of the technical
    name and the rule.  Its result is that of the silent model. *)
Theorem calc_value_io_warns_once
    (cost_df : list CostRow) (cfg : gmap string float)
    (mm ca d22 d25 eth rdsl spk : float)
    (tech tech_name : string) (period_val : Z) :
  let io := _calc_value_io cost_df cfg mm ca d22 d25 eth rdsl spk tech tech_name period_val in
  let c := categorize tech_name in
  fst io = _calc_value cost_df cfg mm ca d22 d25 eth rdsl spk tech tech_name period_val
  /\ (length (snd io) <= 1)%nat
  /\ (lookup_key c tech_name = None -> snd io = [])
  /\ (forall k, lookup_key c tech_name = Some k ->
      ((exists r, r ∈ cost_df /\ cr_period r = period_val /\ cr_tech_name r = k) ->
       snd io = [])
      /\ (no_row cost_df period_val k ->
          snd io = [warning_line k period_val (tech_name +:+ label_suffix c)])).
Proof.
  intros io c. subst io c. rewrite calc_value_io_by_category. cbn [fst snd].
  split; [symmetry; apply calc_value_by_category|].
  destruct (lookup_key (categorize tech_name) tech_name) as [k|].
  - pose proof (safe_base_io_cases cost_df period_val k
                  (tech_name +:+ label_suffix (categorize tech_name))) as (Hiff & Hmiss).
    split; [|split; [discriminate|]].
    + unfold _safe_base_from_cost_io.
      destruct (List.filter _ cost_df); cbn; lia.
    + intros k' [= <-]. split.
      * intros Hrow. apply Hiff, Hrow.
      * intros Hno. rewrite (Hmiss Hno). reflexivity.
  - split; [cbn; lia|]. split; [reflexivity | discriminate].
Qed.

Lemma calc_value_io_warns_once_witness :
  snd (_calc_value_io [mkCostRow 2030 "T_dsl" 10] ∅ 1.1 1.05 0.9 0.95 20 30 40
         "MAR" "I_MDO" 2035)
  = ["[CostVariable] WARNING: No base price for 'T_dsl' in period 2035 (needed by I_MDO (MDO→0.9*T_dsl)). Returning 0."]
  /\ snd (_calc_value_io [mkCostRow 2030 "T_dsl" 10] ∅ 1.1 1.05 0.9 0.95 20 30 40
            "MAR" "I_MDO" 2030) = [].
Proof.
  split.
  - destruct (calc_value_io_warns_once [mkCostRow 2030 "T_dsl" 10] ∅
                1.1 1.05 0.9 0.95 20 30 40 "MAR" "I_MDO" 2035) as (_ & _ & _ & H).
    destruct (H "T_dsl" eq_refl) as [_ Hmiss]. rewrite Hmiss; [reflexivity|].
    intros r Hr [Hp _]. apply list_elem_of_In in Hr. destruct Hr as [<-|[]].
    discriminate Hp.
  - destruct (calc_value_io_warns_once [mkCostRow 2030 "T_dsl" 10] ∅
                1.1 1.05 0.9 0.95 20 30 40 "MAR" "I_MDO" 2030) as (_ & _ & _ & H).
    destruct (H "T_dsl" eq_refl) as [Hrow _]. apply Hrow.
    exists (mkCostRow 2030 "T_dsl" 10). split; [left | split; reflexivity].
Defined.

(** ** The enumeration as one traversal *)

Module FlatFacts.

Import LoopFacts BuilderFacts EnumFacts RowFacts.

Lemma price_all_app (f : key -> result Row) (a b : list key) :
  price_all f (a ++ b)
  = (ra ← price_all f a; rb ← price_all f b; Ok (ra ++ rb)).
Proof.
  induction a as [|k a IH]; cbn [app price_all].
  - cbn. destruct (price_all f b); reflexivity.
  - destruct (f k) as [r|e]; cbn; [|reflexivity]. rewrite IH.
    destruct (price_all f a) as [ra|e]; cbn; [|reflexivity].
    destruct (price_all f b); reflexivity.
Qed.

Lemma gather_flat {A : Type} (xs : list A) (emit : A -> result (list Row))
    (f : key -> result Row) (g : A -> list key) :
  (forall x, emit x = price_all f (g x)) ->
  gather xs emit = price_all f (xs ≫= g).
Proof.
  intros H. induction xs as [|x xs IH]; [reflexivity|].
  cbn [gather]. rewrite bind_cons, price_all_app, H, IH. reflexivity.
Qed.

Lemma emit_tech_flat (w : World) (pro : string) (vint per : Z) (tech : string) :
  emit_tech w pro vint per tech = price_all (price_key w) (keys_tech pro vint per tech).
Proof.
  unfold emit_tech, keys_tech. destruct (excluded tech); [reflexivity|].
  cbn. destruct (price_row w pro vint per tech); reflexivity.
Qed.

Lemma emit_pro_flat (w : World) (pro : string) :
  emit_pro w pro = price_all (price_key w) (keys_pro (periods w) (tech_list w) pro).
Proof.
  unfold emit_pro, keys_pro. destruct (String.eqb pro "CAN"); [reflexivity|].
  apply gather_flat. intros vint. unfold emit_vint, keys_vint.
  apply gather_flat. intros per. unfold emit_per, keys_per.
  destruct (per <? vint)%Z; [reflexivity|].
  apply gather_flat. intros tech. apply emit_tech_flat.
Qed.

Lemma build_rows_flat (w : World) :
  build_rows w
  = price_all (price_key w) (combos (province_list w) (periods w) (tech_list w)).
Proof.
  rewrite build_rows_gather, combos_levels.
  apply gather_flat. intros pro. apply emit_pro_flat.
Qed.

(** A traversal that returns has priced each key into the row at its place. *)
Lemma price_all_ok (f : key -> result Row) (ks : list key) (rows : list Row) :
  price_all f ks = Ok rows <-> Forall2 (fun k r => f k = Ok r) ks rows.
Proof.
  revert rows. induction ks as [|k ks IH]; intros rows; cbn [price_all].
  - split; [intros [= <-]; constructor | intros H; inversion H; reflexivity].
  - split.
    + intros H. apply bind_ok_inv in H. destruct H as (r & Hr & H).
      apply bind_ok_inv in H. destruct H as (rs & Hrs & H). injection H as <-.
      constructor; [exact Hr | apply IH, Hrs].
    + intros H. inversion H as [|? r ? rs Hr Hrs]; subst.
      rewrite Hr. cbn. rewrite (proj2 (IH rs) Hrs). reflexivity.
Qed.

(** It raises what the first failing key raises. *)
Lemma price_all_first_failure (f : key -> result Row) (pre post : list key)
    (k : key) (e : exn) :
  (forall k', k' ∈ pre -> exists r, f k' = Ok r) ->
  f k = Raise e ->
  price_all f (pre ++ k :: post) = Raise e.
Proof.
  intros Hpre Hk. induction pre as [|k' pre IH]; cbn [app price_all].
  - rewrite Hk. reflexivity.
  - destruct (Hpre k') as [r Hr]; [left|]. rewrite Hr. cbn.
    rewrite IH; [reflexivity|]. intros k'' Hin. apply Hpre. right. exact Hin.
Qed.

Lemma Forall2_elem_r (f : key -> result Row) (ks : list key) (rows : list Row) (r : Row) :
  Forall2 (fun k r => f k = Ok r) ks rows -> r ∈ rows ->
  exists k, k ∈ ks /\ f k = Ok r.
Proof.
  induction 1 as [|k r' ks rows Hk _ IH]; intros Hr; [inversion Hr|].
  apply elem_of_cons in Hr. destruct Hr as [->|Hr].
  - exists k. split; [left | exact Hk].
  - destruct (IH Hr) as (k' & Hin & Hk'). exists k'. split; [right; exact Hin | exact Hk'].
Qed.

(** The loop body past the exclusion test, with the price computed apart. *)
Lemma price_row_value (w : World) (pro : string) (vint per : Z) (tech : string) :
  price_row w pro vint per tech
  = (entry ← getitem (mapping w) tech;
     output ← getitem entry "output";
     val ← value_of w tech (strip output) per;
     data_id ← getitem (dict_id w) pro;
     Ok [CStr pro; CInt per; CStr tech; CInt vint; CFloat val; CStr "2020 M$/PJ";
         CStr (fst (fuel_notes (fuel_df w) (strip output)));
         CStr (snd (fuel_notes (fuel_df w) (strip output)));
         CInt 2; CInt 3; CInt 2; CInt 1; CInt 1; CStr data_id]).
Proof.
  unfold price_row, value_of.
  destruct (getitem (mapping w) tech) as [entry|]; cbn [mbind result_bind]; [|reflexivity].
  destruct (getitem entry "output") as [out|]; cbn [mbind result_bind]; [|reflexivity].
  repeat match goal with
         | |- context [getitem (factors w) ?k] =>
             destruct (getitem (factors w) k); cbn [mbind result_bind]; [|reflexivity]
         end.
  match goal with |- context [_calc_value ?a ?b ?c ?d ?e ?f ?g ?h ?i ?j ?k ?l] =>
    destruct (_calc_value a b c d e f g h i j k l); cbn [mbind result_bind]; [|reflexivity]
  end.
  destruct (fuel_notes (fuel_df w) (strip out)) as [notes ref]. reflexivity.
Qed.

Lemma price_row_content (w : World) (pro : string) (vint per : Z) (tech : string) (r : Row) :
  price_row w pro vint per tech = Ok r ->
  exists entry out val id,
    mapping w !! tech = Some entry /\ entry !! "output" = Some out
    /\ value_of w tech (strip out) per = Ok val
    /\ dict_id w !! pro = Some id
    /\ r = [CStr pro; CInt per; CStr tech; CInt vint; CFloat val; CStr "2020 M$/PJ";
            CStr (fst (fuel_notes (fuel_df w) (strip out)));
            CStr (snd (fuel_notes (fuel_df w) (strip out)));
            CInt 2; CInt 3; CInt 2; CInt 1; CInt 1; CStr id].
Proof.
  rewrite price_row_value. intros H.
  apply bind_ok_inv in H. destruct H as (entry & He & H).
  apply bind_ok_inv in H. destruct H as (out & Ho & H).
  apply bind_ok_inv in H. destruct H as (val & Hv & H).
  apply bind_ok_inv in H. destruct H as (id & Hi & H).
  injection H as <-. apply getitem_ok in He, Ho, Hi.
  exists entry, out, val, id. auto.
Qed.

Lemma build_rows_row (w : World) (rows : list Row) (r : Row) :
  build_rows w = Ok rows -> r ∈ rows ->
  exists pro per tech vint,
    valid_combo w (pro, per, tech, vint) /\ price_row w pro vint per tech = Ok r.
Proof.
  rewrite build_rows_flat. intros H Hr. apply price_all_ok in H.
  destruct (Forall2_elem_r _ _ _ _ H Hr) as ([[[pro per] tech] vint] & Hin & Hk).
  exists pro, per, tech, vint. split; [apply valid_combo_elem, Hin | exact Hk].
Qed.

Lemma build_rows_row_content (w : World) (rows : list Row) (r : Row) :
  build_rows w = Ok rows -> r ∈ rows ->
  exists pro per tech vint entry out val id,
    valid_combo w (pro, per, tech, vint)
    /\ mapping w !! tech = Some entry /\ entry !! "output" = Some out
    /\ value_of w tech (strip out) per = Ok val
    /\ dict_id w !! pro = Some id
    /\ r = [CStr pro; CInt per; CStr tech; CInt vint; CFloat val; CStr "2020 M$/PJ";
            CStr (fst (fuel_notes (fuel_df w) (strip out)));
            CStr (snd (fuel_notes (fuel_df w) (strip out)));
            CInt 2; CInt 3; CInt 2; CInt 1; CInt 1; CStr id].
Proof.
  intros H Hr.
  destruct (build_rows_row w rows r H Hr) as (pro & per & tech & vint & Hv & Hp).
  destruct (price_row_content _ _ _ _ _ _ Hp)
    as (entry & out & val & id & He & Ho & Hval & Hid & ->).
  exists pro, per, tech, vint, entry, out, val, id. auto 10.
Qed.

Lemma build_rows_set_comb_dict (w : World) (d : gmap string DataFrame) :
  build_rows (set_comb_dict w d) = build_rows w.
Proof. reflexivity. Qed.

End FlatFacts.

Module CountFacts.

Import BuilderFacts.

Lemma length_bind_filter {A B : Type} (f : A -> list B) (P : A -> bool) (c : nat)
    (xs : list A) :
  (forall x, length (f x) = if P x then c else 0%nat) ->
  length (xs ≫= f) = (length (List.filter P xs) * c)%nat.
Proof.
  intros H. induction xs as [|x xs IH]; [reflexivity|].
  rewrite bind_cons, length_app, IH, H. cbn [List.filter].
  destruct (P x); cbn [length]; lia.
Qed.

Lemma length_bind_scale {A B C : Type} (f : A -> list B) (g : A -> list C) (c : nat)
    (xs : list A) :
  (forall x, length (f x) = (length (g x) * c)%nat) ->
  length (xs ≫= f) = (length (xs ≫= g) * c)%nat.
Proof.
  intros H. induction xs as [|x xs IH]; [reflexivity|].
  rewrite !bind_cons, !length_app, IH, H. lia.
Qed.

Lemma length_keys_per (techs : list string) (pro : string) (vint per : Z) :
  length (keys_per techs pro vint per)
  = (length (if (per <? vint)%Z then [] else [(vint, per)])
     * length (List.filter (fun t => negb (excluded t)) techs))%nat.
Proof.
  unfold keys_per. destruct (per <? vint)%Z; [reflexivity|].
  rewrite (length_bind_filter _ (fun t => negb (excluded t)) 1).
  - cbn. lia.
  - intros t. unfold keys_tech. destruct (excluded t); reflexivity.
Qed.

Lemma length_keys_vint (pers : list Z) (techs : list string) (pro : string) (vint : Z) :
  length (keys_vint pers techs pro vint)
  = (length (pers ≫= fun per => if (per <? vint)%Z then [] else [(vint, per)])
     * length (List.filter (fun t => negb (excluded t)) techs))%nat.
Proof.
  unfold keys_vint. apply length_bind_scale. intros per. apply length_keys_per.
Qed.

Lemma length_combos (provinces : list string) (pers : list Z) (techs : list string) :
  length (combos provinces pers techs)
  = (length (List.filter (fun pro => negb (String.eqb pro "CAN")) provinces)
     * (length (vintage_period_pairs pers)
        * length (List.filter (fun t => negb (excluded t)) techs)))%nat.
Proof.
  rewrite combos_levels. apply length_bind_filter. intros pro.
  unfold keys_pro. destruct (String.eqb pro "CAN"); [reflexivity|]. cbn [negb].
  unfold vintage_period_pairs. apply length_bind_scale. intros vint.
  apply length_keys_vint.
Qed.

End CountFacts.

(** ** More on the table builder *)

Import LoopFacts BuilderFacts EnumFacts RowFacts FlatFacts CountFacts.

(** X9.  The four nested loops are one traversal: the build prices the
    surviving combinations one after the other, in the order region,
    vintage, period, technology, into one row each, and stops at the first
    combination whose pricing raises. *)
Theorem build_rows_is_one_traversal (w : World) :
  build_rows w
  = price_all (price_key w) (combos (province_list w) (periods w) (tech_list w)).
Proof.
  rewrite build_rows_gather, combos_levels.
  apply gather_flat. intros pro. apply emit_pro_flat.
Qed.

(** X10.  The exception of a build is that of the first combination, in
    enumeration order, whose pricing raises; the combinations after it are
    not evaluated and the objects are left as they were. *)
Theorem build_raises_first_failure
    (w : World) (pre post : list key) (k : key) (e : exn) :
  combos (province_list w) (periods w) (tech_list w) = pre ++ k :: post ->
  (forall k', k' ∈ pre -> exists r, price_key w k' = Ok r) ->
  price_key w k = Raise e ->
  build_costvariable w = (w, Raise e).
Proof.
  intros Hc Hpre Hk. unfold build_costvariable.
  rewrite build_rows_flat, Hc, (price_all_first_failure _ _ _ _ _ Hpre Hk).
  reflexivity.
Qed.

Lemma build_raises_first_failure_witness :
  build_costvariable unmapped_world = (unmapped_world, Raise (KeyError "T_GSL")).
Proof.
  apply (build_raises_first_failure unmapped_world
           [("ON", 2030%Z, "T_DSL", 2030%Z)] [] ("ON", 2030%Z, "T_GSL", 2030%Z)).
  - reflexivity.
  - intros k' Hk'. apply list_elem_of_In in Hk'. destruct Hk' as [<-|[]].
    eexists. vm_compute. reflexivity.
  - reflexivity.
Defined.

(** X11.  With nothing to enumerate (no region besides "CAN", or no period,
    or no technology that escapes the exclusion markers) the build returns
    the collection untouched and raises nothing, whatever the mappings,
    factors and configuration hold, and even without a "CostVariable"
    table. *)
Theorem build_with_nothing_to_enumerate (w : World) :
  (forall pro, pro ∈ province_list w -> pro = "CAN")
  \/ periods w = []
  \/ (forall tech, tech ∈ tech_list w -> excluded tech = true) ->
  build_rows w = Ok [] /\ build_costvariable w = (w, Ok (comb_dict w)).
Proof.
  intros H.
  assert (Hc : combos (province_list w) (periods w) (tech_list w) = []).
  { destruct (combos _ _ _) as [|[[[pro per] tech] vint] rest] eqn:E; [reflexivity|].
    exfalso.
    assert (Hin : (pro, per, tech, vint) ∈ combos (province_list w) (periods w) (tech_list w))
      by (rewrite E; left).
    apply elem_of_combos in Hin.
    destruct Hin as (Hpro & Hne & Hv & Hp & _ & Ht & Hex).
    destruct H as [H|[H|H]].
    - apply Hne, H, Hpro.
    - rewrite H in Hv. inversion Hv.
    - rewrite (H tech Ht) in Hex. discriminate. }
  assert (Hr : build_rows w = Ok []) by (rewrite build_rows_flat, Hc; reflexivity).
  split; [exact Hr|]. unfold build_costvariable. rewrite Hr. reflexivity.
Qed.

Lemma build_with_nothing_to_enumerate_witness :
  build_costvariable unmapped_unreached_world
  = (unmapped_unreached_world, Ok (comb_dict unmapped_unreached_world)).
Proof.
  apply (build_with_nothing_to_enumerate unmapped_unreached_world).
  left. intros pro Hpro. apply list_elem_of_In in Hpro.
  destruct Hpro as [<-|[]]. reflexivity.
Defined.

(** X12.  Every emitted row has the fourteen cells of the schema: region,
    period, technology and vintage of a surviving combination; the price of
    the technology's mapped name, stripped of surrounding white space, at
    the period; the unit "2020 M$/PJ"; notes and source of the first fuel
    metadata row for that stripped name (empty strings when there is none);
    the scores 2, 3, 2, 1, 1; and the identifier of the region. *)
Theorem emitted_row_content (w : World) (rows : list Row) (r : Row) :
  build_rows w = Ok rows -> r ∈ rows ->
  exists pro per tech vint entry out val id,
    valid_combo w (pro, per, tech, vint)
    /\ mapping w !! tech = Some entry /\ entry !! "output" = Some out
    /\ value_of w tech (strip out) per = Ok val
    /\ dict_id w !! pro = Some id
    /\ r = [CStr pro; CInt per; CStr tech; CInt vint; CFloat val; CStr "2020 M$/PJ";
            CStr (fst (fuel_notes (fuel_df w) (strip out)));
            CStr (snd (fuel_notes (fuel_df w) (strip out)));
            CInt 2; CInt 3; CInt 2; CInt 1; CInt 1; CStr id].
Proof.
  intros H Hr.
  destruct (build_rows_row_content w rows r H Hr)
    as (pro & per & tech & vint & entry & out & val & id & Hrest).
  exists pro, per, tech, vint, entry, out, val, id. exact Hrest.
Qed.

Lemma emitted_row_content_witness :
  exists rows,
    build_rows sample_world = Ok rows
    /\ Forall (fun r => length r = 14%nat /\ r !! 5%nat = Some (CStr "2020 M$/PJ")
                        /\ r !! 13%nat = Some (CStr "FUELON1")) rows.
Proof.
  destruct (build_rows sample_world) as [rows|e] eqn:Hs.
  - exists rows. split; [reflexivity|]. apply Forall_forall. intros r Hr.
    destruct (emitted_row_content sample_world rows r Hs Hr)
      as (pro & per & tech & vint & entry & out & val & id & Hv & _ & _ & _ & Hid & ->).
    split; [reflexivity|]. split; [reflexivity|]. cbn.
    destruct Hv as (Hpro & Hne & _).
    apply list_elem_of_In in Hpro. destruct Hpro as [<-|[<-|[]]]; [congruence|].
    vm_compute in Hid. injection Hid as <-. reflexivity.
  - exfalso. rewrite SampleFacts.sample_rows in Hs. discriminate Hs.
Defined.

(** X13.  Within a pass the value, unit, notes, source and scores of a row
    are a function of its technology and period alone: two rows for the
    same technology and period agree on these nine cells whatever their
    regions and vintages, and two rows of one region carry the same
    identifier. *)
Theorem row_value_ignores_region_and_vintage
    (w : World) (rows : list Row) (r1 r2 : Row)
    (pro1 pro2 tech : string) (per vint1 vint2 : Z) :
  build_rows w = Ok rows -> r1 ∈ rows -> r2 ∈ rows ->
  row_key r1 = Some (pro1, per, tech, vint1) ->
  row_key r2 = Some (pro2, per, tech, vint2) ->
  firstn 9 (skipn 4 r1) = firstn 9 (skipn 4 r2)
  /\ (pro1 = pro2 -> skipn 13 r1 = skipn 13 r2).
Proof.
  intros H Hr1 Hr2 Hk1 Hk2.
  destruct (build_rows_row_content w rows r1 H Hr1)
    as (p1 & q1 & t1 & v1 & e1 & o1 & x1 & i1 & _ & He1 & Ho1 & Hx1 & Hi1 & ->).
  destruct (build_rows_row_content w rows r2 H Hr2)
    as (p2 & q2 & t2 & v2 & e2 & o2 & x2 & i2 & _ & He2 & Ho2 & Hx2 & Hi2 & ->).
  cbn in Hk1, Hk2. injection Hk1 as -> -> -> ->. injection Hk2 as -> -> -> ->.
  assert (e2 = e1) as -> by congruence.
  assert (o2 = o1) as -> by congruence.
  assert (x2 = x1) as -> by congruence.
  split; [reflexivity|]. intros ->.
  assert (i2 = i1) as -> by congruence. reflexivity.
Qed.

Lemma row_value_ignores_region_and_vintage_witness :
  exists rows r1 r2,
    build_rows sample_world = Ok rows
    /\ row_key r1 = Some ("ON", 2030%Z, "T_DSL", 2025%Z)
    /\ row_key r2 = Some ("ON", 2030%Z, "T_DSL", 2030%Z)
    /\ firstn 9 (skipn 4 r1) = firstn 9 (skipn 4 r2).
Proof.
  pose proof SampleFacts.sample_rows as Hs. cbn [map] in Hs.
  eexists. eexists. eexists. split; [exact Hs|].
  split; [|split];
    [| | eapply (row_value_ignores_region_and_vintage sample_world _ _ _
                   "ON" "ON" "T_DSL" 2030%Z 2025%Z 2030%Z Hs)].
  - instantiate (1 := [CStr "ON"; CInt 2030; CStr "T_DSL"; CInt 2025; CFloat 10.9725;
                       CStr "2020 M$/PJ"; CStr "transport diesel"; CStr "AEO";
                       CInt 2; CInt 3; CInt 2; CInt 1; CInt 1; CStr "FUELON1"]).
    reflexivity.
  - instantiate (1 := [CStr "ON"; CInt 2030; CStr "T_DSL"; CInt 2030; CFloat 10.9725;
                       CStr "2020 M$/PJ"; CStr "transport diesel"; CStr "AEO";
                       CInt 2; CInt 3; CInt 2; CInt 1; CInt 1; CStr "FUELON1"]).
    reflexivity.
  - do 2 right. left.
  - do 4 right. left.
  - reflexivity.
  - reflexivity.
Defined.

(** X14.  A pass that completes emits as many rows as there are regions
    other than "CAN" in the region list, times pairs (vintage, period) of
    the period list with period >= vintage, times technologies of the
    catalog that no exclusion marker matches, each counted as often as it
    is listed. *)
Theorem emitted_row_count (w : World) (rows : list Row) :
  build_rows w = Ok rows ->
  length rows
  = (length (List.filter (fun pro => negb (String.eqb pro "CAN")) (province_list w))
     * (length (vintage_period_pairs (periods w))
        * length (List.filter (fun t => negb (excluded t)) (tech_list w))))%nat.
Proof.
  intros H. rewrite <- length_combos.
  pose proof (build_rows_keys _ _ H) as Hk.
  apply (f_equal (@length _)) in Hk. rewrite !length_map in Hk. exact Hk.
Qed.

Lemma emitted_row_count_witness :
  exists rows, build_rows sample_world = Ok rows /\ length rows = (1 * (3 * 2))%nat.
Proof.
  destruct (build_rows sample_world) as [rows|e] eqn:Hs.
  - exists rows. split; [reflexivity|].
    rewrite (emitted_row_count sample_world rows Hs). reflexivity.
  - exfalso. rewrite SampleFacts.sample_rows in Hs. discriminate Hs.
Defined.

(** X15.  With rows to append, the build needs a "CostVariable" table of
    exactly fourteen columns: without the table it raises [KeyError] on
    "CostVariable", with another number of columns [ValueError], each time
    leaving the collection as it was; with fourteen columns it returns. *)
Theorem build_needs_fourteen_columns (w : World) (rows : list Row) :
  build_rows w = Ok rows -> rows <> [] ->
  (comb_dict w !! "CostVariable" = None ->
   build_costvariable w = (w, Raise (KeyError "CostVariable")))
  /\ (forall old, comb_dict w !! "CostVariable" = Some old ->
      (length (columns old) <> 14%nat -> build_costvariable w = (w, Raise ValueError))
      /\ (length (columns old) = 14%nat ->
          exists d, build_costvariable w = (set_comb_dict w d, Ok d))).
Proof.
  intros H Hne.
  assert (Hlen : Forall (fun r => length r = 14%nat) rows).
  { apply Forall_forall. intros r Hr.
    destruct (build_rows_row_content w rows r H Hr)
      as (? & ? & ? & ? & ? & ? & ? & ? & _ & _ & _ & _ & _ & ->). reflexivity. }
  assert (Hall : forall cols : list string,
             forallb (fun r : Row => (length r =? length cols)%nat) rows
             = match rows with [] => true | _ => (14 =? length cols)%nat end).
  { intros cols. clear Hne H.
    induction Hlen as [|r rows' Hr _ IH]; [reflexivity|].
    cbn [forallb]. rewrite Hr, IH.
    destruct rows'; destruct (14 =? length cols)%nat; reflexivity. }
  unfold build_costvariable. rewrite H.
  destruct rows as [|r rows']; [congruence|]. unfold getitem. split.
  - intros ->. reflexivity.
  - intros old ->. unfold DataFrame_from_rows. rewrite Hall. split.
    + intros Hc. assert (E : (14 =? length (columns old))%nat = false)
        by (apply Nat.eqb_neq; congruence).
      rewrite E. reflexivity.
    + intros Hc. rewrite Hc. cbn. eauto.
Qed.

Lemma build_needs_fourteen_columns_witness :
  build_costvariable no_table_world = (no_table_world, Raise (KeyError "CostVariable"))
  /\ build_costvariable narrow_table_world = (narrow_table_world, Raise ValueError).
Proof.
  pose proof SampleFacts.sample_rows as Hs. cbn [map] in Hs.
  split.
  - destruct (build_needs_fourteen_columns no_table_world _ Hs) as [H _];
      [discriminate|]. apply H. reflexivity.
  - destruct (build_needs_fourteen_columns narrow_table_world _ Hs) as [_ H];
      [discriminate|].
    destruct (H (mkDataFrame ["region"; "value"] []) eq_refl) as [Hbad _].
    apply Hbad. discriminate.
Defined.

(** ** Column dtypes in the appended table *)

Module DtypeFacts.

Import FlatFacts.

Lemma has_kinds_lookup (ks : list kind) (r : Row) (j : nat) (c : cell) :
  has_kinds ks r -> (r : list cell) !! j = Some c -> ks !! j = Some (kind_of c).
Proof.
  intros <- H. change (map kind_of r) with (kind_of <$> (r : list cell)).
  rewrite list_lookup_fmap, H. reflexivity.
Qed.

(** A promoted column holds a float. *)
Lemma promoted_float (rows : list Row) (j : nat) :
  promoted rows j = true ->
  exists (r : Row) (c : cell),
    r ∈ rows /\ (r : list cell) !! j = Some c /\ kind_of c = KFloat.
Proof.
  unfold promoted. intros H. apply andb_true_iff in H. destruct H as [_ H].
  apply existsb_exists in H. destruct H as (c & Hin & Hf).
  apply list_elem_of_In in Hin. unfold column_cells in Hin.
  apply list_elem_of_omap in Hin. destruct Hin as (r & Hr & Hc).
  exists r, c. split; [exact Hr|]. split; [exact Hc|].
  destruct c; try discriminate Hf; reflexivity.
Qed.

Lemma unify_row_same_kinds (ks : list kind) (rows : list Row) (r : Row) :
  Forall (has_kinds ks) rows -> has_kinds ks r ->
  imap (fun j c => if promoted rows j then to_float64 c else c) r = r.
Proof.
  intros Hall Hr. apply list_eq. intros j. rewrite list_lookup_imap.
  destruct ((r : list cell) !! j) as [c|] eqn:E; [|reflexivity].
  cbn. f_equal. destruct (promoted rows j) eqn:Hp; [|reflexivity].
  destruct (promoted_float _ _ Hp) as (r' & c' & Hr' & Hc' & Hk).
  pose proof (has_kinds_lookup _ _ _ _ (proj1 (Forall_forall _ _) Hall _ Hr') Hc') as H1.
  pose proof (has_kinds_lookup _ _ _ _ Hr E) as H2.
  rewrite H1 in H2. injection H2 as H2. rewrite Hk in H2.
  destruct c; try discriminate H2; reflexivity.
Qed.

(** Rows whose columns each hold cells of one kind are held as they are. *)
Lemma unify_same_kinds (ks : list kind) (rows : list Row) :
  Forall (has_kinds ks) rows -> unify_dtypes rows = rows.
Proof.
  intros Hall. unfold unify_dtypes.
  assert (H : forall l : list Row,
             Forall (has_kinds ks) l ->
             map (imap (fun j c => if promoted rows j then to_float64 c else c)) l = l).
  { intros l Hl. induction Hl as [|r l Hr _ IH]; [reflexivity|].
    cbn [map]. rewrite IH, (unify_row_same_kinds ks rows r Hall Hr). reflexivity. }
  apply H, Hall.
Qed.


(** The rows of a pass have the kinds of the schema. *)
Lemma emitted_kinds (w : World) (rows : list Row) :
  build_rows w = Ok rows -> Forall (has_kinds schema_kinds) rows.
Proof.
  intros H. apply Forall_forall. intros r Hr.
  destruct (build_rows_row_content w rows r H Hr)
    as (? & ? & ? & ? & ? & ? & ? & ? & _ & _ & _ & _ & _ & ->). reflexivity.
Qed.

Lemma pd_concat_same_kinds (ks : list kind) (old : DataFrame) (rows : list Row) :
  Forall (has_kinds ks) (data old) -> Forall (has_kinds ks) rows ->
  pd_concat old (mkDataFrame (columns old) rows)
  = mkDataFrame (columns old) (data old ++ rows).
Proof.
  intros Hold Hrows. unfold pd_concat. cbn [data]. f_equal.
  apply (unify_same_kinds ks). apply Forall_app. split; assumption.
Qed.

(** An int of a prior column is held as a float once the column receives
    floats. *)
Example concat_promotes_int :
  pd_concat (mkDataFrame ["tech"; "value"] [[CStr "OLD"; CInt 1]])
    (mkDataFrame ["tech"; "value"] [[CStr "T_DSL"; CFloat 10.9725]])
  = mkDataFrame ["tech"; "value"]
      [[CStr "OLD"; CFloat 1]; [CStr "T_DSL"; CFloat 10.9725]].
Proof. vm_compute. reflexivity. Qed.

End DtypeFacts.

Import DtypeFacts.

(** X16.  The build is not idempotent: the rows of a pass depend on the
    inputs only, not on the collection, so a second build on the result of
    a first appends the same rows once more, in the same order.  Each
    append puts every column under one dtype; when the prior rows have the
    cell kinds of the schema the table is the prior rows followed by the
    rows of the pass, twice. *)
Theorem build_twice_appends_twice
    (w w1 : World) (d1 : gmap string DataFrame) (old : DataFrame) :
  build_costvariable w = (w1, Ok d1) ->
  comb_dict w !! "CostVariable" = Some old ->
  exists rows w2 d2,
    build_rows w = Ok rows /\ build_rows w1 = Ok rows
    /\ build_costvariable w1 = (w2, Ok d2)
    /\ (rows <> [] ->
        let new_df := mkDataFrame (columns old) rows in
        d1 !! "CostVariable" = Some (pd_concat old new_df)
        /\ d2 !! "CostVariable" = Some (pd_concat (pd_concat old new_df) new_df))
    /\ (Forall (has_kinds schema_kinds) (data old) ->
        d1 !! "CostVariable" = Some (mkDataFrame (columns old) (data old ++ rows))
        /\ d2 !! "CostVariable"
           = Some (mkDataFrame (columns old) (data old ++ rows ++ rows))).
Proof.
  intros H1 Hold. unfold build_costvariable in H1.
  destruct (build_rows w) as [[|r rows']|e] eqn:Hrows; [| |discriminate H1].
  - injection H1 as <- <-. exists [], w, (comb_dict w).
    split; [reflexivity|]. split; [exact Hrows|].
    split; [unfold build_costvariable; rewrite Hrows; reflexivity|].
    split; [congruence|]. intros _. rewrite Hold, !app_nil_r.
    destruct old; split; reflexivity.
  - unfold getitem in H1. rewrite Hold in H1.
    destruct (DataFrame_from_rows (r :: rows') (columns old)) as [new_df|e] eqn:Hdf;
      [|discriminate H1].
    injection H1 as <- <-.
    assert (Enew : new_df = mkDataFrame (columns old) (r :: rows')).
    { revert Hdf. unfold DataFrame_from_rows.
      destruct (forallb _ _); congruence. }
    subst new_df.
    set (new_df := mkDataFrame (columns old) (r :: rows')) in *.
    set (d1 := <["CostVariable" := pd_concat old new_df]> (comb_dict w)).
    set (d2 := <["CostVariable" := pd_concat (pd_concat old new_df) new_df]> d1).
    assert (E2 : build_costvariable (set_comb_dict w d1)
                 = (set_comb_dict (set_comb_dict w d1) d2, Ok d2)).
    { unfold build_costvariable. rewrite build_rows_set_comb_dict, Hrows.
      unfold getitem. cbn [comb_dict set_comb_dict]. unfold d1 at 1.
      rewrite lookup_insert_eq. cbn [columns pd_concat]. rewrite Hdf. reflexivity. }
    exists (r :: rows'), (set_comb_dict (set_comb_dict w d1) d2), d2.
    split; [reflexivity|]. split; [rewrite build_rows_set_comb_dict; exact Hrows|].
    split; [exact E2|]. split.
    + intros _. cbv zeta. split; apply lookup_insert_eq.
    + intros Hk. pose proof (emitted_kinds _ _ Hrows) as Hnew.
      assert (Ec : pd_concat old new_df
                   = mkDataFrame (columns old) (data old ++ r :: rows')).
      { apply (pd_concat_same_kinds schema_kinds); assumption. }
      split.
      * unfold d1. rewrite lookup_insert_eq, Ec. reflexivity.
      * unfold d2. rewrite lookup_insert_eq, Ec.
        change new_df with (mkDataFrame
          (columns (mkDataFrame (columns old) (data old ++ r :: rows'))) (r :: rows')).
        rewrite (pd_concat_same_kinds schema_kinds).
        -- cbn [columns data]. rewrite <- app_assoc. reflexivity.
        -- cbn [data]. apply Forall_app. split; assumption.
        -- exact Hnew.
Qed.

Lemma build_twice_appends_twice_witness :
  exists w1 d1 w2 d2 rows,
    build_costvariable sample_world = (w1, Ok d1)
    /\ build_rows sample_world = Ok rows
    /\ build_costvariable w1 = (w2, Ok d2)
    /\ d2 !! "CostVariable"
       = Some (mkDataFrame costvariable_columns (sample_prior_row :: rows ++ rows)).
Proof.
  destruct SampleFacts.sample_build as [d1 E1].
  pose proof SampleFacts.sample_table as Hold. apply getitem_ok in Hold.
  destruct (build_twice_appends_twice sample_world _ d1 _ E1 Hold)
    as (rows & w2 & d2 & Hrows & _ & E2 & _ & Htab).
  exists (set_comb_dict sample_world d1), d1, w2, d2, rows.
  split; [exact E1|]. split; [exact Hrows|]. split; [exact E2|].
  apply Htab. repeat constructor.
Defined.

(** ** The clean-up of the fuel metadata frame *)

Module FrameExamples.

Example clean_sample :
  clean_fuel_df sample_fuel_frame
  = mkDataFrame ["Commodity"; "notes"; "year"; "source"]
      [[CStr "T_dsl"; CStr "diesel"; CInt 2020; CStr ""];
       [CStr "T_gsl"; CFloat nan; CInt 2021; CStr ""]].
Proof. reflexivity. Qed.

Example lookup_sample :
  fuel_lookup (clean_fuel_df sample_fuel_frame) "T_dsl" = (CStr "diesel", CStr "")
  /\ fuel_lookup (clean_fuel_df sample_fuel_frame) "T_gsl" = (CFloat nan, CStr "")
  /\ fuel_lookup (clean_fuel_df sample_fuel_frame) "other" = (CStr "", CStr "").
Proof. repeat split; reflexivity. Qed.

End FrameExamples.

Module FrameFacts.

Lemma existsb_eqb_elem (c : string) (l : list string) :
  existsb (String.eqb c) l = true <-> c ∈ l.
Proof.
  rewrite existsb_exists, list_elem_of_In. split.
  - intros (x & Hx & E). apply String.eqb_eq in E. subst. exact Hx.
  - intros H. exists c. split; [exact H | apply String.eqb_refl].
Qed.

Lemma existsb_eqb_not_elem (c : string) (l : list string) :
  existsb (String.eqb c) l = false <-> c ∉ l.
Proof.
  rewrite <- existsb_eqb_elem. destruct (existsb _ l); split; congruence.
Qed.

(** *** Reading a cell by label *)

Lemma column_index_None (col : string) (cols : list string) :
  column_index col cols = None <-> col ∉ cols.
Proof.
  induction cols as [|c cols IH]; cbn [column_index].
  - split; [intros _ H; inversion H | reflexivity].
  - rewrite not_elem_of_cons. destruct (String.eqb_spec c col) as [->|Hne].
    + split; [discriminate | intros [H _]; congruence].
    + rewrite fmap_None, IH. split; [intros H; split; congruence | tauto].
Qed.

Lemma column_index_lt (col : string) (cols : list string) (i : nat) :
  column_index col cols = Some i -> (i < length cols)%nat.
Proof.
  revert i. induction cols as [|c cols IH]; intros i; cbn [column_index length].
  - discriminate.
  - destruct (String.eqb c col); [intros [= <-]; lia|].
    destruct (column_index col cols) as [j|]; [|discriminate].
    intros [= <-]. specialize (IH j eq_refl). lia.
Qed.

Lemma column_index_app (col : string) (cols more : list string) :
  col ∈ cols -> column_index col (cols ++ more) = column_index col cols.
Proof.
  induction cols as [|c cols IH]; intros H; [inversion H|].
  cbn [app column_index]. destruct (String.eqb_spec c col) as [->|Hne]; [reflexivity|].
  apply elem_of_cons in H. destruct H as [->|H]; [congruence|].
  rewrite IH by exact H. reflexivity.
Qed.

Lemma column_index_new (c : string) (cols : list string) :
  c ∉ cols -> column_index c (cols ++ [c]) = Some (length cols).
Proof.
  induction cols as [|c' cols IH]; intros H; cbn [app column_index length].
  - rewrite String.eqb_refl. reflexivity.
  - apply not_elem_of_cons in H. destruct H as [Hne H].
    destruct (String.eqb_spec c' c) as [->|_]; [congruence|].
    rewrite IH by exact H. reflexivity.
Qed.

Lemma cell_of_absent (cols : list string) (col : string) (r : Row) :
  col ∉ cols -> cell_of cols col r = None.
Proof. intros H. unfold cell_of. rewrite (proj2 (column_index_None _ _) H). reflexivity. Qed.

Lemma cell_of_app_old (cols : list string) (c col : string) (r : Row) (x : cell) :
  col ∈ cols -> length r = length cols ->
  cell_of (cols ++ [c]) col (r ++ [x]) = cell_of cols col r.
Proof.
  intros Hin Hlen. unfold cell_of. rewrite column_index_app by exact Hin.
  destruct (column_index col cols) as [i|] eqn:E; [|reflexivity].
  cbn [mbind option_bind].
  apply column_index_lt in E. apply lookup_app_l. lia.
Qed.

Lemma cell_of_app_new (cols : list string) (c : string) (r : Row) (x : cell) :
  c ∉ cols -> length r = length cols ->
  cell_of (cols ++ [c]) c (r ++ [x]) = Some x.
Proof.
  intros Hn Hlen. unfold cell_of. rewrite column_index_new by exact Hn.
  cbn [mbind option_bind].
  apply list_lookup_middle. symmetry. exact Hlen.
Qed.

(** *** Dropping the repeated labels *)

Lemma drop_marked_length {A B : Type} (mask : list bool) (xs : list A) (ys : list B) :
  length xs = length ys ->
  length (drop_marked mask xs) = length (drop_marked mask ys).
Proof.
  revert xs ys. induction mask as [|m mask IH]; intros [|x xs] [|y ys] H;
    try discriminate; try reflexivity.
  cbn in H. injection H as H. cbn. destruct m; cbn; rewrite (IH xs ys H); reflexivity.
Qed.

Lemma dropped_labels (seen cols : list string) :
  NoDup (drop_marked (duplicated_from seen cols) cols)
  /\ forall c, c ∈ drop_marked (duplicated_from seen cols) cols <-> c ∈ cols /\ c ∉ seen.
Proof.
  revert seen. induction cols as [|c cols IH]; intros seen; cbn [duplicated_from drop_marked].
  - split; [constructor|]. intros c. split; [intros H; inversion H | intros [H _]; inversion H].
  - destruct (IH (c :: seen)) as [Hnd Hmem].
    destruct (existsb (String.eqb c) seen) eqn:E.
    + apply existsb_eqb_elem in E. split; [exact Hnd|].
      intros x. rewrite Hmem, not_elem_of_cons, elem_of_cons. split.
      * intros (Hx & Hne & Hs). auto.
      * intros ([->|Hx] & Hs); [contradiction|]. repeat split; auto. congruence.
    + apply existsb_eqb_not_elem in E. split.
      * constructor; [|exact Hnd]. rewrite Hmem, not_elem_of_cons. tauto.
      * intros x. rewrite !elem_of_cons, Hmem, not_elem_of_cons. split.
        -- intros [->|(Hx & Hne & Hs)]; auto.
        -- intros ([->|Hx] & Hs); [auto|].
           destruct (decide (x = c)) as [->|Hne]; auto.
Qed.

Lemma cell_of_dropped (seen cols : list string) (col : string) (r : Row) :
  length r = length cols -> col ∉ seen ->
  cell_of (drop_marked (duplicated_from seen cols) cols) col
    (drop_marked (duplicated_from seen cols) r)
  = cell_of cols col r.
Proof.
  revert seen r. induction cols as [|c cols IH]; intros seen [|x r] Hlen Hs;
    try discriminate; [reflexivity|].
  cbn in Hlen. injection Hlen as Hlen. cbn [duplicated_from drop_marked].
  assert (Hstep : c <> col ->
            cell_of (drop_marked (duplicated_from (c :: seen) cols) cols) col
              (drop_marked (duplicated_from (c :: seen) cols) r)
            = cell_of cols col r).
  { intros Hne. apply IH; [exact Hlen|]. rewrite not_elem_of_cons. split; congruence. }
  assert (Htail : c <> col -> cell_of (c :: cols) col (x :: r) = cell_of cols col r).
  { intros Hne. unfold cell_of. cbn [column_index].
    destruct (String.eqb_spec c col); [contradiction|].
    destruct (column_index col cols); reflexivity. }
  destruct (existsb (String.eqb c) seen) eqn:E.
  - apply existsb_eqb_elem in E.
    assert (Hne : c <> col) by congruence.
    rewrite (Htail Hne). apply Hstep, Hne.
  - destruct (String.eqb_spec c col) as [->|Hne].
    + unfold cell_of. cbn [column_index]. rewrite String.eqb_refl. reflexivity.
    + rewrite (Htail Hne), <- (Hstep Hne).
      unfold cell_of. cbn [column_index].
      destruct (String.eqb_spec c col); [contradiction|].
      destruct (column_index col _); reflexivity.
Qed.

Lemma duplicated_NoDup (seen cols : list string) :
  NoDup cols -> (forall c, c ∈ cols -> c ∉ seen) ->
  duplicated_from seen cols = repeat false (length cols).
Proof.
  intros Hnd. revert seen. induction Hnd as [|c cols Hnin Hnd IH]; intros seen Hs;
    [reflexivity|].
  cbn [duplicated_from length repeat].
  rewrite (proj2 (existsb_eqb_not_elem c seen)) by (apply Hs; left).
  f_equal. apply IH. intros x Hx. rewrite not_elem_of_cons. split.
  - intros ->. contradiction.
  - apply Hs. right. exact Hx.
Qed.

Lemma drop_unmarked {A : Type} (xs : list A) :
  drop_marked (repeat false (length xs)) xs = xs.
Proof. induction xs as [|x xs IH]; [reflexivity|]. cbn. rewrite IH. reflexivity. Qed.

End FrameFacts.

Module CleanFacts.

Import FrameFacts.

Lemma lookup_map {A B : Type} (f : A -> B) (l : list A) (i : nat) :
  map f l !! i = f <$> l !! i.
Proof. exact (list_lookup_fmap f l i). Qed.

Lemma lookup_map_row (f : Row -> Row) (rows : list Row) (i : nat) (r : Row) :
  rows !! i = Some r -> map f rows !! i = Some (f r).
Proof. intros H. rewrite lookup_map, H. reflexivity. Qed.

Lemma cleaned_after_drop (df : DataFrame) :
  frame_ok df -> cleaned_from df (drop_duplicate_columns df) [].
Proof.
  intros Hok. unfold cleaned_from, drop_duplicate_columns, duplicated, frame_ok in *.
  cbn [columns data].
  destruct (dropped_labels [] (columns df)) as [Hnd Hmem].
  split; [|split; [exact Hnd|split; [apply length_map|split]]].
  - apply Forall_map. eapply Forall_impl; [exact Hok|].
    intros r Hr. cbn beta. apply drop_marked_length, Hr.
  - intros c. rewrite Hmem. split.
    + intros [H _]. left. exact H.
    + intros [H|H]; [split; [exact H | intros H'; inversion H'] | inversion H].
  - intros i r Hr. exists (drop_marked (duplicated_from [] (columns df)) r). split.
    + apply lookup_map_row, Hr.
    + intros col.
      assert (Hlen : length r = length (columns df)).
      { exact (Forall_lookup_1 _ _ _ _ Hok Hr). }
      rewrite cell_of_dropped; [|exact Hlen | intros H; inversion H].
      case_bool_decide as Hc; [reflexivity|].
      rewrite bool_decide_eq_false_2 by (intros H; inversion H).
      apply cell_of_absent, Hc.
Qed.

Lemma cleaned_after_ensure (df0 df : DataFrame) (processed : list string) (c : string) :
  cleaned_from df0 df processed ->
  cleaned_from df0 (ensure_column c df) (c :: processed).
Proof.
  intros (Hok & Hnd & Hlen & Hmem & Hrows). unfold ensure_column.
  destruct (existsb (String.eqb c) (columns df)) eqn:E.
  - apply existsb_eqb_elem in E.
    split; [exact Hok|]. split; [exact Hnd|]. split; [exact Hlen|]. split.
    + intros x. rewrite Hmem, elem_of_cons. split; [tauto|].
      intros [H|[->|H]]; auto. apply Hmem, E.
    + intros i r Hr. destruct (Hrows i r Hr) as (r' & Hr' & Hcells).
      exists r'. split; [exact Hr'|]. intros col. rewrite Hcells.
      case_bool_decide as H0; [reflexivity|].
      case_bool_decide as H1; case_bool_decide as H2; try reflexivity.
      * exfalso. apply H2. right. exact H1.
      * apply elem_of_cons in H2. destruct H2 as [->|H2]; [|contradiction].
        apply Hmem in E. destruct E; contradiction.
  - apply existsb_eqb_not_elem in E. unfold cleaned_from, frame_ok in *.
    cbn [columns data].
    split; [|split; [|split; [|split]]].
    + apply Forall_map. eapply Forall_impl; [exact Hok|].
      intros r Hr. cbn [columns] in *. rewrite !length_app, Hr. reflexivity.
    + apply NoDup_app. split; [exact Hnd|]. split; [|apply NoDup_singleton].
      intros x Hx Hx'. apply list_elem_of_singleton in Hx'. subst. contradiction.
    + rewrite length_map. exact Hlen.
    + intros x. rewrite elem_of_app, list_elem_of_singleton, Hmem, elem_of_cons. tauto.
    + intros i r Hr. destruct (Hrows i r Hr) as (r' & Hr' & Hcells).
      exists (r' ++ [CStr ""]).
      split; [exact (lookup_map_row (fun r => r ++ [CStr ""]) _ _ _ Hr')|].
      intros col.
      assert (Hl : length r' = length (columns df)).
      { exact (Forall_lookup_1 _ _ _ _ Hok Hr'). }
      destruct (decide (col ∈ columns df)) as [Hin|Hnin].
      * rewrite cell_of_app_old by assumption. rewrite Hcells.
        case_bool_decide as H0; [reflexivity|].
        case_bool_decide as H1; case_bool_decide as H2; try reflexivity.
        -- exfalso. apply H2. right. exact H1.
        -- exfalso. apply elem_of_cons in H2.
           destruct H2 as [->|H2]; contradiction.
      * assert (H0 : col ∉ columns df0) by (intros H; apply Hnin, Hmem; left; exact H).
        assert (H1 : col ∉ processed) by (intros H; apply Hnin, Hmem; right; exact H).
        rewrite bool_decide_eq_false_2 by exact H0.
        destruct (decide (col = c)) as [->|Hne].
        -- rewrite cell_of_app_new by assumption.
           rewrite bool_decide_eq_true_2 by left. reflexivity.
        -- rewrite bool_decide_eq_false_2
             by (rewrite elem_of_cons; intros [?|?]; contradiction).
           apply cell_of_absent. rewrite elem_of_app, list_elem_of_singleton. tauto.
Qed.

Lemma cleaned_fuel_df (df : DataFrame) :
  frame_ok df -> cleaned_from df (clean_fuel_df df) ["source"; "notes"; "Commodity"].
Proof.
  intros Hok. unfold clean_fuel_df. cbn [fold_left].
  do 3 apply cleaned_after_ensure. apply cleaned_after_drop, Hok.
Qed.

Lemma ensure_present (c : string) (df : DataFrame) :
  c ∈ columns df -> ensure_column c df = df.
Proof.
  intros H. unfold ensure_column.
  rewrite (proj2 (existsb_eqb_elem _ _) H). reflexivity.
Qed.

Lemma drop_nothing (df : DataFrame) :
  frame_ok df -> NoDup (columns df) -> drop_duplicate_columns df = df.
Proof.
  intros Hok Hnd. unfold drop_duplicate_columns, duplicated.
  rewrite duplicated_NoDup; [|exact Hnd | intros c _ H; inversion H].
  rewrite drop_unmarked. destruct df as [cols rows]. cbn [columns data] in *.
  f_equal. unfold frame_ok in Hok. cbn [columns data] in Hok.
  induction Hok as [|r rows Hr _ IH]; [reflexivity|].
  cbn [map]. rewrite IH, <- Hr, drop_unmarked. reflexivity.
Qed.

(** On a frame of strings the lookup is the typed one. *)
Lemma fuel_lookup_typed (cols : list string) (rows : list Row) (tech_name : string) :
  Forall (fun r => is_Some (fuel_row_of cols r)) rows ->
  fuel_lookup (mkDataFrame cols rows) tech_name
  = (CStr (fst (fuel_notes (omap (fuel_row_of cols) rows) tech_name)),
     CStr (snd (fuel_notes (omap (fuel_row_of cols) rows) tech_name))).
Proof.
  unfold fuel_lookup, fuel_notes. cbn [columns data].
  induction 1 as [|r rows [fr Hfr] _ IH]; [reflexivity|].
  change (omap (fuel_row_of cols) (r :: rows))
    with (match fuel_row_of cols r with
          | Some y => y :: omap (fuel_row_of cols) rows
          | None => omap (fuel_row_of cols) rows
          end).
  cbn [List.filter]. rewrite Hfr.
  unfold commodity_is at 1. cbn [columns].
  unfold fuel_row_of in Hfr.
  destruct (cell_of cols "Commodity" r) as [[c| |]|]; try discriminate.
  destruct (cell_of cols "notes" r) as [[n| |]|] eqn:En; try discriminate.
  destruct (cell_of cols "source" r) as [[s| |]|] eqn:Es; try discriminate.
  injection Hfr as <-. cbn [cell_is List.filter fr_Commodity].
  destruct (String.eqb c tech_name); [|exact IH].
  cbv beta iota. rewrite En, Es. reflexivity.
Qed.

End CleanFacts.

Import FrameFacts CleanFacts.

(** X17.  The clean-up of the fuel metadata frame yields a well-formed
    frame with distinct labels, the labels of the input plus whichever of
    "Commodity", "notes" and "source" it lacked, and as many rows. *)
Theorem clean_fuel_df_columns (df : DataFrame) :
  frame_ok df ->
  frame_ok (clean_fuel_df df)
  /\ NoDup (columns (clean_fuel_df df))
  /\ length (data (clean_fuel_df df)) = length (data df)
  /\ (forall c, c ∈ columns (clean_fuel_df df) <->
                c ∈ columns df \/ c ∈ ["Commodity"; "notes"; "source"]).
Proof.
  intros Hok. destruct (cleaned_fuel_df df Hok) as (H1 & H2 & H3 & H4 & _).
  split; [exact H1|]. split; [exact H2|]. split; [exact H3|].
  intros c. rewrite H4, !elem_of_cons. tauto.
Qed.

Lemma clean_fuel_df_columns_witness :
  NoDup (columns (clean_fuel_df sample_fuel_frame))
  /\ length (data (clean_fuel_df sample_fuel_frame)) = 2%nat
  /\ "source" ∈ columns (clean_fuel_df sample_fuel_frame).
Proof.
  destruct (clean_fuel_df_columns sample_fuel_frame) as (_ & Hnd & Hlen & Hmem).
  - repeat constructor.
  - split; [exact Hnd|]. split; [exact Hlen|]. apply Hmem. right.
    apply list_elem_of_In. cbn. tauto.
Defined.

(** X18.  The clean-up changes no reading: under every label of the input
    a row still shows the cell of the first column so labelled (a repeated
    label loses its later columns), under "Commodity", "notes" or "source"
    where the input lacked it the row shows the empty string, and under any
    other label nothing. *)
Theorem clean_fuel_df_keeps_cells (df : DataFrame) (i : nat) (r : Row) :
  frame_ok df -> data df !! i = Some r ->
  exists r',
    data (clean_fuel_df df) !! i = Some r'
    /\ forall col,
        cell_of (columns (clean_fuel_df df)) col r'
        = if bool_decide (col ∈ columns df) then cell_of (columns df) col r
          else if bool_decide (col ∈ ["Commodity"; "notes"; "source"])
               then Some (CStr "") else None.
Proof.
  intros Hok Hr. destruct (cleaned_fuel_df df Hok) as (_ & _ & _ & _ & Hrows).
  destruct (Hrows i r Hr) as (r' & Hr' & Hcells).
  exists r'. split; [exact Hr'|]. intros col. rewrite Hcells.
  case_bool_decide; [reflexivity|].
  case_bool_decide as H1; case_bool_decide as H2; try reflexivity; exfalso.
  - apply H2. rewrite !elem_of_cons in *. tauto.
  - apply H1. rewrite !elem_of_cons in *. tauto.
Qed.

Lemma clean_fuel_df_keeps_cells_witness :
  exists r',
    data (clean_fuel_df sample_fuel_frame) !! 1%nat = Some r'
    /\ cell_of (columns (clean_fuel_df sample_fuel_frame)) "Commodity" r'
       = Some (CStr "T_gsl")
    /\ cell_of (columns (clean_fuel_df sample_fuel_frame)) "source" r'
       = Some (CStr "").
Proof.
  destruct (clean_fuel_df_keeps_cells sample_fuel_frame 1
              [CStr "T_gsl"; CFloat nan; CStr "T_dsl"; CInt 2021])
    as (r' & Hr' & Hcells).
  - repeat constructor.
  - reflexivity.
  - exists r'. split; [exact Hr'|]. split; rewrite Hcells; reflexivity.
Defined.

(** X19.  On a well-formed frame with distinct labels that has the three
    metadata columns the clean-up changes nothing; hence cleaning twice is
    cleaning once. *)
Theorem clean_fuel_df_idempotent (df : DataFrame) :
  frame_ok df ->
  (NoDup (columns df) ->
   "Commodity" ∈ columns df -> "notes" ∈ columns df -> "source" ∈ columns df ->
   clean_fuel_df df = df)
  /\ clean_fuel_df (clean_fuel_df df) = clean_fuel_df df.
Proof.
  intros Hok.
  assert (Hfix : forall d, frame_ok d -> NoDup (columns d) ->
            "Commodity" ∈ columns d -> "notes" ∈ columns d -> "source" ∈ columns d ->
            clean_fuel_df d = d).
  { intros d Hd Hnd Hc Hn Hs. unfold clean_fuel_df.
    rewrite (drop_nothing d Hd Hnd). cbn [fold_left].
    rewrite (ensure_present _ _ Hc), (ensure_present _ _ Hn), (ensure_present _ _ Hs).
    reflexivity. }
  split; [apply Hfix, Hok|].
  destruct (cleaned_fuel_df df Hok) as (H1 & H2 & _ & H4 & _).
  apply Hfix; [exact H1 | exact H2 | | |]; apply H4; right;
    apply list_elem_of_In; cbn; tauto.
Qed.

Lemma clean_fuel_df_idempotent_witness :
  clean_fuel_df (clean_fuel_df sample_fuel_frame) = clean_fuel_df sample_fuel_frame.
Proof.
  apply (clean_fuel_df_idempotent sample_fuel_frame). repeat constructor.
Defined.

(** X20.  Without a "Commodity" column every row gets the empty string for
    commodity, so no name other than the empty one finds metadata: notes
    and source are empty strings. *)
Theorem fuel_lookup_without_commodity (df : DataFrame) (tech_name : string) :
  frame_ok df -> "Commodity" ∉ columns df -> tech_name <> "" ->
  fuel_lookup (clean_fuel_df df) tech_name = (CStr "", CStr "").
Proof.
  intros Hok Hno Hne.
  destruct (cleaned_fuel_df df Hok) as (_ & _ & Hlen & _ & Hrows).
  assert (Hall : Forall (fun r' => commodity_is (clean_fuel_df df) tech_name r' = false)
                   (data (clean_fuel_df df))).
  { apply Forall_lookup_2. intros i r' Hr'.
    assert (Hi : (i < length (data df))%nat).
    { rewrite <- Hlen. eapply lookup_lt_Some, Hr'. }
    destruct (lookup_lt_is_Some_2 _ _ Hi) as [r Hr].
    destruct (Hrows i r Hr) as (r'' & Hr'' & Hcells).
    assert (r'' = r') as -> by congruence.
    unfold commodity_is. rewrite Hcells.
    rewrite bool_decide_eq_false_2 by exact Hno.
    rewrite bool_decide_eq_true_2 by (do 2 right; left).
    cbn [cell_is]. apply String.eqb_neq. congruence. }
  unfold fuel_lookup. clear Hlen Hrows.
  induction Hall as [|r' rows Hr' _ IH]; [reflexivity|].
  cbn [List.filter]. rewrite Hr'. exact IH.
Qed.

Lemma fuel_lookup_without_commodity_witness :
  fuel_lookup
    (clean_fuel_df (mkDataFrame ["fuel"; "notes"] [[CStr "T_dsl"; CStr "diesel"]]))
    "T_dsl" = (CStr "", CStr "").
Proof.
  apply fuel_lookup_without_commodity.
  - repeat constructor.
  - intros H. apply list_elem_of_In in H. cbn in H.
    destruct H as [H|[H|[]]]; discriminate H.
  - discriminate.
Defined.

(** X21.  On a frame whose "Commodity", "notes" and "source" cells are all
    strings, the notes and source attached to a name are those of the first
    row whose commodity is exactly the name, and empty strings when no row
    has it: the lookup agrees with [fuel_notes] on the typed rows. *)
Theorem fuel_lookup_on_text_frame (df : DataFrame) (tech_name : string) :
  text_frame df ->
  fuel_lookup df tech_name
  = (CStr (fst (fuel_notes (fuel_rows_of df) tech_name)),
     CStr (snd (fuel_notes (fuel_rows_of df) tech_name))).
Proof.
  intros Htext. destruct df as [cols rows]. unfold fuel_rows_of.
  cbn [columns data]. apply fuel_lookup_typed, Htext.
Qed.

Lemma fuel_lookup_on_text_frame_witness :
  fuel_lookup
    (mkDataFrame ["source"; "Commodity"; "notes"]
       [[CStr "AEO"; CStr "T_gsl"; CStr "gasoline"];
        [CStr "NEB"; CStr "T_dsl"; CStr "diesel"];
        [CStr "AEO"; CStr "T_dsl"; CStr "later"]]) "T_dsl"
  = (CStr "diesel", CStr "NEB").
Proof.
  rewrite fuel_lookup_on_text_frame; [reflexivity|].
  repeat constructor; eexists; reflexivity.
Defined.

(** ** The string operations *)

Module StringFacts.

Lemma prefix_iff (sub s : string) :
  String.prefix sub s = true <-> exists post, s = sub +:+ post.
Proof.
  revert s. induction sub as [|a sub IH]; intros s.
  - split; [intros _; exists s; reflexivity | intros _; destruct s; reflexivity].
  - cbn [String.append]. destruct s as [|b s]; cbn [String.prefix].
    + split; [discriminate | intros [post H]; discriminate].
    + destruct (ascii_dec a b) as [->|Hne].
      * rewrite IH. split.
        -- intros [post ->]. exists post. reflexivity.
        -- intros [post H]. injection H as ->. exists post. reflexivity.
      * split; [discriminate | intros [post H]; injection H as E _; subst; contradiction].
Qed.

Lemma contains_cons (sub : string) (c : ascii) (t : string) :
  contains sub (String c t)
  = if String.prefix sub (String c t) then true else contains sub t.
Proof. reflexivity. Qed.

Lemma contains_nil (sub : string) : contains sub EmptyString = String.prefix sub EmptyString.
Proof. cbn [contains]. destruct (String.prefix sub EmptyString); reflexivity. Qed.

Lemma lstrip_fixed (s : string) :
  (forall c, first_char s = Some c -> is_space c = false) -> lstrip s = s.
Proof.
  destruct s as [|c t]; [reflexivity|]. intros H. cbn [lstrip].
  rewrite (H c eq_refl). reflexivity.
Qed.

Lemma rstrip_fixed (s : string) :
  (forall c, last_char s = Some c -> is_space c = false) -> rstrip s = s.
Proof.
  induction s as [|c t IH]; [reflexivity|]. intros H. cbn [rstrip].
  destruct t as [|d u].
  - cbn [rstrip]. rewrite (H c eq_refl). reflexivity.
  - rewrite IH by (intros x Hx; apply H; exact Hx). reflexivity.
Qed.

Lemma lstrip_spec (s : string) :
  exists pre, s = pre +:+ lstrip s /\ all_space pre = true
              /\ forall c, first_char (lstrip s) = Some c -> is_space c = false.
Proof.
  induction s as [|c t (pre & Hs & Hpre & Hfirst)]; cbn [lstrip].
  - exists EmptyString. repeat split. discriminate.
  - destruct (is_space c) eqn:E.
    + exists (String c pre). split; [|split].
      * change (String c t = String c (pre +:+ lstrip t)). f_equal. exact Hs.
      * cbn [all_space]. rewrite E, Hpre. reflexivity.
      * exact Hfirst.
    + exists EmptyString. repeat split. intros x [= <-]. exact E.
Qed.

Lemma rstrip_spec (s : string) :
  exists post, s = rstrip s +:+ post /\ all_space post = true
               /\ (forall c, last_char (rstrip s) = Some c -> is_space c = false)
               /\ (forall c, first_char s = Some c -> is_space c = false ->
                             first_char (rstrip s) = Some c).
Proof.
  induction s as [|c t (post & Hs & Hpost & Hlast & _)]; cbn [rstrip].
  - exists EmptyString. repeat split; discriminate.
  - destruct (rstrip t) as [|d u] eqn:E.
    + change (t = post) in Hs. subst post.
      destruct (is_space c) eqn:Ec.
      * exists (String c t). split; [reflexivity|]. split; [|split].
        -- cbn [all_space]. rewrite Ec, Hpost. reflexivity.
        -- discriminate.
        -- intros x [= <-]. congruence.
      * exists t. split; [reflexivity|]. split; [exact Hpost|]. split.
        -- intros x [= <-]. exact Ec.
        -- intros x [= <-] _. reflexivity.
    + exists post. split; [|split; [exact Hpost|split; [exact Hlast|]]].
      * change (String c t = String c (String d u +:+ post)). f_equal. exact Hs.
      * intros x [= <-] _. reflexivity.
Qed.

Lemma ascii_text_app (s t : string) :
  ascii_text (s +:+ t) = true <-> ascii_text s = true /\ ascii_text t = true.
Proof.
  induction s as [|c s IH].
  - change ("" +:+ t) with t. cbn [ascii_text]. tauto.
  - change (String c s +:+ t) with (String c (s +:+ t)). cbn [ascii_text].
    rewrite !andb_true_iff, IH. tauto.
Qed.

End StringFacts.

Import StringFacts.

(** X22.  [sub in s] holds exactly when [s] is some text, then [sub], then
    some text: the test is for a contiguous, case-sensitive occurrence, and
    the empty string occurs in every string. *)
Theorem contains_iff_substring (sub s : string) :
  contains sub s = true <-> exists pre post, s = pre +:+ sub +:+ post.
Proof.
  induction s as [|c t IH].
  - rewrite contains_nil, prefix_iff. split.
    + intros [post H]. exists EmptyString, post. exact H.
    + intros (pre & post & H). destruct pre; [|discriminate]. exists post. exact H.
  - rewrite contains_cons. destruct (String.prefix sub (String c t)) eqn:E.
    + apply prefix_iff in E. destruct E as [post E]. split; [intros _|reflexivity].
      exists EmptyString, post. exact E.
    + rewrite IH. split.
      * intros (pre & post & ->). exists (String c pre), post. reflexivity.
      * intros (pre & post & H). destruct pre as [|c' pre].
        -- exfalso. assert (E' : String.prefix sub (String c t) = true)
             by (apply prefix_iff; exists post; exact H). congruence.
        -- cbn [String.append] in H. injection H as -> ->. eauto.
Qed.

Lemma contains_iff_substring_witness : contains "lng" "F_lng_import" = true.
Proof.
  apply (contains_iff_substring "lng" "F_lng_import").
  exists "F_", "_import". reflexivity.
Defined.

(** X23.  On ASCII text [s.strip()] removes white space from both ends
    and nothing else: [s] is white space, then the stripped string, then
    white space; the stripped string is ASCII text that neither starts nor
    ends with white space; and stripping again changes nothing. *)
Theorem strip_removes_outer_space (s : string) :
  ascii_text s = true ->
  (exists pre post,
      s = pre +:+ strip s +:+ post
      /\ all_space pre = true /\ all_space post = true)
  /\ ascii_text (strip s) = true
  /\ (forall c, first_char (strip s) = Some c -> is_space c = false)
  /\ (forall c, last_char (strip s) = Some c -> is_space c = false)
  /\ strip (strip s) = strip s.
Proof.
  intros Hascii. unfold strip.
  destruct (lstrip_spec s) as (pre & Hs & Hpre & Hfirst).
  destruct (rstrip_spec (lstrip s)) as (post & Ht & Hpost & Hlast & Hkeep).
  assert (Hfirst' : forall c, first_char (rstrip (lstrip s)) = Some c -> is_space c = false).
  { intros c Hc. destruct (lstrip s) as [|d u] eqn:E; [discriminate Hc|].
    specialize (Hfirst d eq_refl). rewrite (Hkeep d eq_refl Hfirst) in Hc. congruence. }
  assert (Hdec : s = pre +:+ rstrip (lstrip s) +:+ post).
  { rewrite <- Ht. exact Hs. }
  split; [|split; [|split; [exact Hfirst'|split; [exact Hlast|]]]].
  - exists pre, post. auto.
  - rewrite Hdec in Hascii. apply ascii_text_app in Hascii.
    destruct Hascii as [_ Hascii]. apply ascii_text_app in Hascii. tauto.
  - rewrite (lstrip_fixed _ Hfirst'). apply rstrip_fixed, Hlast.
Qed.

Lemma strip_removes_outer_space_witness :
  is_space "T" = false /\ strip (strip " T_dsl ") = strip " T_dsl ".
Proof.
  destruct (strip_removes_outer_space " T_dsl " eq_refl) as (_ & _ & Hf & _ & Hs).
  split; [apply Hf; reflexivity | exact Hs].
Defined.

Module SubscriptFacts.

Import LoopFacts FlatFacts.

Lemma value_of_missing_factor (w : World) (tech tech_name : string) (per : Z) (k : string) :
  first_missing factor_keys (factors w) = Some k ->
  value_of w tech tech_name per = Raise (KeyError k).
Proof.
  unfold first_missing, factor_keys, value_of, getitem. cbn [List.find].
  repeat (match goal with
          | |- context [factors w !! ?key] =>
              destruct (factors w !! key) eqn:?; cbn [mbind result_bind]
          end;
          [ rewrite bool_decide_eq_true_2 by eauto; cbn [negb]
          | rewrite bool_decide_eq_false_2 by (intros [? ?]; discriminate);
            cbn [negb]; intros [= <-]; reflexivity ]).
  discriminate.
Qed.


Lemma getitem_missing {V : Type} (d : gmap string V) (k : string) :
  d !! k = None -> getitem d k = Raise (KeyError k).
Proof. intros H. unfold getitem. rewrite H. reflexivity. Qed.

Lemma getitem_present {V : Type} (d : gmap string V) (k : string) (v : V) :
  d !! k = Some v -> getitem d k = Ok v.
Proof. intros H. unfold getitem. rewrite H. reflexivity. Qed.

End SubscriptFacts.

Import SubscriptFacts.

(** X24.  The loop body subscripts in a fixed order, and the first missing
    key is the one reported: the technology in the name mapping, then
    "output" in its entry, then the seven factors in the order
    mmbtuconvertor, currencyadjustment, deflation_2022, deflation_2025,
    eth_price, rdsl_price, spk_price, then whatever the resolver raises,
    and last the region in the region-to-identifier map. *)
Theorem price_row_error_order
    (w : World) (pro : string) (vint per : Z) (tech : string) :
  let row := price_row w pro vint per tech in
  (mapping w !! tech = None -> row = Raise (KeyError tech))
  /\ (forall entry, mapping w !! tech = Some entry ->
      (entry !! "output" = None -> row = Raise (KeyError "output"))
      /\ (forall out, entry !! "output" = Some out ->
          (forall k, first_missing factor_keys (factors w) = Some k ->
                     row = Raise (KeyError k))
          /\ (forall e, value_of w tech (strip out) per = Raise e -> row = Raise e)
          /\ (forall val, value_of w tech (strip out) per = Ok val ->
              dict_id w !! pro = None -> row = Raise (KeyError pro)))).
Proof.
  intros row. subst row. rewrite price_row_value. split.
  - intros Hm. rewrite (getitem_missing _ _ Hm). reflexivity.
  - intros entry Hm. rewrite (getitem_present _ _ _ Hm). cbn [mbind result_bind]. split.
    + intros Ho. rewrite (getitem_missing _ _ Ho). reflexivity.
    + intros out Ho. rewrite (getitem_present _ _ _ Ho). cbn [mbind result_bind].
      split; [|split].
      * intros k Hk. rewrite (value_of_missing_factor _ _ _ _ _ Hk). reflexivity.
      * intros e He. rewrite He. reflexivity.
      * intros val Hv Hid. rewrite Hv. cbn [mbind result_bind].
        rewrite (getitem_missing _ _ Hid). reflexivity.
Qed.

Lemma price_row_error_order_witness :
  price_row (mkWorld ∅ [] ["T_DSL"] {[ "T_DSL" := {[ "output" := "T_dsl" ]} ]}
               ["ON"] [2030%Z] ∅ {[ "mmbtuconvertor" := 1%float ]} [] ∅)
    "ON" 2030 2030 "T_DSL"
  = Raise (KeyError "currencyadjustment").
Proof.
  destruct (price_row_error_order
              (mkWorld ∅ [] ["T_DSL"] {[ "T_DSL" := {[ "output" := "T_dsl" ]} ]}
                 ["ON"] [2030%Z] ∅ {[ "mmbtuconvertor" := 1%float ]} [] ∅)
              "ON" 2030 2030 "T_DSL") as [_ H].
  destruct (H {[ "output" := "T_dsl" ]} eq_refl) as [_ H'].
  destruct (H' "T_dsl" eq_refl) as [Hk _].
  apply Hk. reflexivity.
Defined.


Module SampleInputs.




End SampleInputs.


(** ** The call on the caller's objects *)

Module StoreFacts.

Ltac step :=
  cbn [private_copies append_rows ensure_in_place bind ret lift
       copy_cost_table get_cost_table set_cost_table new_frame get_frame set_frame
       dict_get dict_set cost_tables frames dicts fst snd].

(** A new address is none of the addresses in use. *)
Lemma fresh_ne {V : Type} (m : gmap loc V) (l : loc) :
  is_Some (m !! l) -> fresh (dom m) <> l.
Proof.
  intros Hl E. apply elem_of_dom in Hl. rewrite <- E in Hl.
  exact (is_fresh (dom m) Hl).
Qed.

Lemma fresh_None {V : Type} (m : gmap loc V) : m !! fresh (dom m) = None.
Proof. apply not_elem_of_dom, is_fresh. Qed.

(** Writing a new address leaves what the map held. *)
Lemma lookup_insert_fresh {V : Type} (m : gmap loc V) (l : loc) (v x : V) :
  m !! l = Some x -> <[fresh (dom m) := v]> m !! l = Some x.
Proof.
  intros H. rewrite lookup_insert_ne; [exact H|]. apply fresh_ne. eauto.
Qed.

Lemma lookup_total_Some {V : Type} `{Inhabited V} (m : gmap loc V) (l : loc) (x : V) :
  m !! l = Some x -> m !!! l = x.
Proof. intros E. rewrite lookup_total_alt, E. reflexivity. Qed.

(** Lines 158-167 in one step. *)
Lemma private_copies_run (a : Args) (s : Store) :
  let cdf := fresh (dom (cost_tables s)) in
  let fuel := fresh (dom (frames s)) in
  private_copies a s
  = match cast_period (cost_tables s !!! arg_cost_df a) with
    | Raise e =>
        (mkStore (<[cdf := cost_tables s !!! arg_cost_df a]> (cost_tables s))
           (frames s) (dicts s), Raise e)
    | Ok t =>
        (mkStore (<[cdf := cast_value (cast_tech_name t)]> (cost_tables s))
           (<[fuel := clean_fuel_df (frames s !!! arg_fuel_df a)]> (frames s))
           (dicts s), Ok (cdf, fuel))
    end.
Proof.
  intros cdf fuel. unfold private_copies, bind at 1. step.
  rewrite !lookup_total_insert_eq.
  destruct (cast_period (cost_tables s !!! arg_cost_df a)) as [t|e]; [|reflexivity].
  rewrite !lookup_total_insert_eq, !insert_insert_eq. reflexivity.
Qed.

(** Lines 223-231 in one step. *)
Lemma append_rows_run (a : Args) (rows : list Row) (s : Store) :
  let cd := arg_comb_dict a in
  append_rows a rows s
  = match getitem (dicts s !!! cd) "CostVariable" with
    | Raise e => (s, Raise e)
    | Ok old_l =>
        match pd_DataFrame rows (columns (frames s !!! old_l)) with
        | Raise e => (s, Raise e)
        | Ok new_df =>
            let new_l := fresh (dom (frames s)) in
            let fs := <[new_l := new_df]> (frames s) in
            let res := fresh (dom fs) in
            (mkStore (cost_tables s)
               (<[res := pd_concat (fs !!! old_l) new_df]> fs)
               (<[cd := <["CostVariable" := res]> (dicts s !!! cd)]> (dicts s)),
             Ok cd)
        end
    end.
Proof.
  intros cd. subst cd. unfold append_rows, bind at 1. step.
  destruct (getitem (dicts s !!! arg_comb_dict a) "CostVariable") as [old_l|e];
    [|reflexivity].
  destruct (pd_DataFrame rows (columns (frames s !!! old_l))) as [new_df|e];
    [|reflexivity].
  rewrite !lookup_total_insert_eq. reflexivity.
Qed.

(** The whole call in three steps. *)
Lemma call_run (a : Args) (s : Store) :
  build_costvariable_call a s
  = match cast_period (cost_tables s !!! arg_cost_df a) with
    | Raise e =>
        (mkStore (<[fresh (dom (cost_tables s)) := cost_tables s !!! arg_cost_df a]>
                    (cost_tables s)) (frames s) (dicts s), Raise e)
    | Ok t =>
        match pass_rows a (cost_tables s !!! arg_cost_df a) (frames s !!! arg_fuel_df a) with
        | Raise e => (copies_store a s t, Raise e)
        | Ok [] => (copies_store a s t, Ok (arg_comb_dict a))
        | Ok rows => append_rows a rows (copies_store a s t)
        end
    end.
Proof.
  unfold build_costvariable_call, bind at 1. rewrite private_copies_run.
  unfold pass_rows, normalize_cost.
  destruct (cast_period (cost_tables s !!! arg_cost_df a)) as [t|e]; [|reflexivity].
  step. rewrite !lookup_total_insert_eq. cbn [mbind result_bind].
  fold (copies_store a s t).
  destruct (rows_of_pass _ _ _ _) as [[|r rows]|e]; reflexivity.
Qed.

Lemma for_in_ext {A : Type} (xs : list A)
    (b1 b2 : A -> list Row -> result (list Row)) (rows : list Row) :
  (forall x r, b1 x r = b2 x r) -> for_in xs b1 rows = for_in xs b2 rows.
Proof.
  intros Hb. revert rows. induction xs as [|x xs IH]; intros rows; [reflexivity|].
  cbn [for_in]. rewrite Hb. destruct (b2 x rows) as [rows'|e]; cbn; [apply IH | reflexivity].
Qed.

Lemma rows_of_pass_ext (p1 p2 : string -> Z -> Z -> string -> result Row)
    (provinces : list string) (pers : list Z) (techs : list string) :
  (forall pro vint per tech, p1 pro vint per tech = p2 pro vint per tech) ->
  rows_of_pass p1 provinces pers techs = rows_of_pass p2 provinces pers techs.
Proof.
  intros Hp. unfold rows_of_pass.
  apply for_in_ext. intros pro rows. destruct (String.eqb pro "CAN"); [reflexivity|].
  apply for_in_ext. intros vint rows1.
  apply for_in_ext. intros per rows2. destruct (per <? vint)%Z; [reflexivity|].
  apply for_in_ext. intros tech rows3. rewrite Hp. reflexivity.
Qed.

(** The pass of [build_costvariable] is the same loops. *)
Lemma build_rows_pass (w : World) :
  build_rows w
  = rows_of_pass (price_row w) (province_list w) (periods w) (tech_list w).
Proof. reflexivity. Qed.

(** On a metadata frame of strings the body of the loop is [price_row]. *)
Lemma price_row_in_typed (a : Args) (d : gmap string DataFrame) (cdf : list CostRow)
    (fuel : DataFrame) (pro : string) (vint per : Z) (tech : string) :
  text_frame fuel ->
  price_row_in a cdf fuel pro vint per tech
  = price_row (mkWorld d cdf (arg_tech_list a) (arg_mapping a) (arg_province_list a)
                 (arg_periods a) (arg_dict_id a) (arg_factors a) (fuel_rows_of fuel)
                 (arg_cfg a)) pro vint per tech.
Proof.
  intros Htext. unfold price_row_in, price_row.
  cbn [mapping factors cost_df cfg fuel_df dict_id].
  assert (Hl : forall n, fuel_lookup fuel n
                         = (CStr (fst (fuel_notes (fuel_rows_of fuel) n)),
                            CStr (snd (fuel_notes (fuel_rows_of fuel) n)))).
  { intros n. destruct fuel as [cols rows]. apply fuel_lookup_typed, Htext. }
  destruct (getitem (arg_mapping a) tech) as [entry|]; cbn [mbind result_bind]; [|reflexivity].
  destruct (getitem entry "output") as [out|]; cbn [mbind result_bind]; [|reflexivity].
  repeat match goal with
         | |- context [getitem (arg_factors a) ?k] =>
             destruct (getitem (arg_factors a) k); cbn [mbind result_bind]; [|reflexivity]
         end.
  destruct (_calc_value _ _ _ _ _ _ _ _ _ _ _ _) as [val|]; cbn [mbind result_bind];
    [|reflexivity].
  rewrite Hl. destruct (fuel_notes (fuel_rows_of fuel) (strip out)) as [n r]. reflexivity.
Qed.

(** On a metadata frame of strings the rows of the call are those of the
    pass of [build_costvariable] on the normalised inputs. *)
Lemma pass_rows_core (a : Args) (s : Store) (t : list RawCostRow) (fuel : DataFrame)
    (cdf : list CostRow) :
  frames s !! arg_fuel_df a = Some fuel ->
  text_frame (clean_fuel_df fuel) ->
  normalize_cost t = Ok cdf ->
  pass_rows a t fuel = build_rows (world_of a s cdf).
Proof.
  intros Hfuel Htext Hcdf. unfold pass_rows. rewrite Hcdf. cbn [mbind result_bind].
  rewrite build_rows_pass. unfold world_of.
  rewrite (lookup_total_Some _ _ _ Hfuel).
  cbn [province_list periods tech_list].
  apply rows_of_pass_ext. intros pro vint per tech.
  apply price_row_in_typed, Htext.
Qed.

Lemma pd_DataFrame_ok (rows : list Row) (cols : list string) (df : DataFrame) :
  pd_DataFrame rows cols = Ok df -> df = mkDataFrame cols (unify_dtypes rows).
Proof.
  unfold pd_DataFrame, DataFrame_from_rows.
  destruct (forallb _ _); cbn [mbind result_bind columns data]; intros H;
    [injection H as <-; reflexivity | discriminate H].
Qed.

End StoreFacts.

(** ** The sample call *)

Module SampleCall.

Example casts_on_numbers :
  astype_int (NFloat 2030.7) = Ok (NInt 2030)
  /\ astype_int (NFloat (-1.5)) = Ok (NInt (-1))
  /\ astype_int (NFloat nan) = Raise ValueError
  /\ astype_int (NFloat infinity) = Raise ValueError
  /\ astype_float (NInt 10) = NFloat 10
  /\ astype_float (NInt 9007199254740993) = NFloat 9007199254740992.
Proof. repeat split; vm_compute; reflexivity. Qed.

Lemma sample_cost_table :
  cost_tables sample_store !! arg_cost_df sample_args
  = Some [mkRawCostRow (NFloat 2030) "T_dsl" (NInt 10)].
Proof. vm_compute. reflexivity. Qed.

Lemma sample_fuel :
  frames sample_store !! arg_fuel_df sample_args
  = Some (mkDataFrame ["Commodity"; "notes"] [[CStr "T_dsl"; CStr "transport diesel"]]).
Proof. vm_compute. reflexivity. Qed.

Lemma sample_prior_table :
  frames sample_store !! 1%nat = Some (mkDataFrame costvariable_columns [int_prior_row; large_prior_row]).
Proof. vm_compute. reflexivity. Qed.

Lemma sample_members :
  dicts sample_store !! arg_comb_dict sample_args = Some {[ "CostVariable" := 1%nat ]}.
Proof. vm_compute. reflexivity. Qed.

Lemma sample_members_allocated (name : string) (l : loc) :
  ({[ "CostVariable" := 1%nat ]} : gmap string loc) !! name = Some l ->
  is_Some (frames sample_store !! l).
Proof.
  intros H. apply lookup_singleton_Some in H. destruct H as [_ <-].
  eexists. exact sample_prior_table.
Qed.

Lemma sample_normalize :
  normalize_cost [mkRawCostRow (NFloat 2030) "T_dsl" (NInt 10)]
  = Ok [mkCostRow 2030 "T_dsl" 10].
Proof. vm_compute. reflexivity. Qed.

Lemma sample_fuel_text :
  text_frame
    (clean_fuel_df
       (mkDataFrame ["Commodity"; "notes"] [[CStr "T_dsl"; CStr "transport diesel"]])).
Proof. repeat constructor. eexists. reflexivity. Qed.

Lemma sample_pass_returns :
  exists d,
    snd (build_costvariable (world_of sample_args sample_store [mkCostRow 2030 "T_dsl" 10]))
    = Ok d.
Proof. eexists. vm_compute. reflexivity. Qed.

End SampleCall.

Import StoreFacts.

(** C8 (amended).  The call writes no object that the caller handed over
    but the collection: the raw cost table, the metadata frame and every
    frame that existed before, the prior "CostVariable" table among them,
    hold afterwards what they held (the casts and the column clean-up work
    on copies; the catalogs, maps, factors and configuration are only
    read), and in the collection only the key "CostVariable" is bound
    anew; a call that raises, or whose pass has no rows, leaves the
    collection as it was.  A call that returns, returns the collection it
    was given.  With rows, "CostVariable" is bound to a new table: the
    concatenation of the prior table and the rows of the pass, each column
    under one dtype, which is the prior rows followed by the rows of the
    pass when the prior rows have the cell kinds of the schema and the
    metadata cells are text. *)
Theorem build_costvariable_frame
    (a : Args) (s : Store) (t : list RawCostRow) (fuel : DataFrame)
    (members : gmap string loc) :
  cost_tables s !! arg_cost_df a = Some t ->
  frames s !! arg_fuel_df a = Some fuel ->
  dicts s !! arg_comb_dict a = Some members ->
  (forall name l, members !! name = Some l -> is_Some (frames s !! l)) ->
  let s' := fst (build_costvariable_call a s) in
  let out := snd (build_costvariable_call a s) in
  (forall l x, cost_tables s !! l = Some x -> cost_tables s' !! l = Some x)
  /\ (forall l df, frames s !! l = Some df -> frames s' !! l = Some df)
  /\ (forall l, l <> arg_comb_dict a -> dicts s' !! l = dicts s !! l)
  /\ exists members',
      dicts s' !! arg_comb_dict a = Some members'
      /\ (forall name, name <> "CostVariable" -> members' !! name = members !! name)
      /\ (forall e, out = Raise e -> members' = members)
      /\ (forall r, out = Ok r ->
          r = arg_comb_dict a
          /\ exists rows,
              pass_rows a t fuel = Ok rows
              /\ match rows with
                 | [] => members' = members
                 | _ =>
                     exists old_l old new_l,
                       members !! "CostVariable" = Some old_l
                       /\ frames s !! old_l = Some old
                       /\ frames s !! new_l = None
                       /\ members' !! "CostVariable" = Some new_l
                       /\ frames s' !! new_l
                          = Some (pd_concat old
                                    (mkDataFrame (columns old) (unify_dtypes rows)))
                       /\ (Forall (has_kinds schema_kinds) (data old) ->
                           text_frame (clean_fuel_df fuel) ->
                           frames s' !! new_l
                           = Some (mkDataFrame (columns old) (data old ++ rows)))
                 end).
Proof.
  intros Ht Hfuel Hmem Halloc s' out. subst s' out. rewrite call_run.
  rewrite (lookup_total_Some _ _ _ Ht), (lookup_total_Some _ _ _ Hfuel).
  destruct (cast_period t) as [t1|e] eqn:Hcast.
  2: { cbn [fst snd cost_tables frames dicts].
       split; [intros l x Hl; apply lookup_insert_fresh, Hl|].
       split; [auto|]. split; [reflexivity|].
       exists members. split; [exact Hmem|]. split; [reflexivity|].
       split; [reflexivity | discriminate]. }
  assert (Hkeep : (forall l x, cost_tables s !! l = Some x ->
                     cost_tables (copies_store a s t1) !! l = Some x)
                  /\ (forall l df, frames s !! l = Some df ->
                     frames (copies_store a s t1) !! l = Some df)).
  { split; intros l x Hl; apply lookup_insert_fresh, Hl. }
  destruct Hkeep as [Hcost Hframes].
  assert (Hsame : forall o : result loc,
             let s' := copies_store a s t1 in
             (forall l x, cost_tables s !! l = Some x -> cost_tables s' !! l = Some x)
             /\ (forall l df, frames s !! l = Some df -> frames s' !! l = Some df)
             /\ (forall l, l <> arg_comb_dict a -> dicts s' !! l = dicts s !! l)
             /\ exists members',
                 dicts s' !! arg_comb_dict a = Some members'
                 /\ (forall name, name <> "CostVariable" ->
                       members' !! name = members !! name)
                 /\ members' = members).
  { intros o. cbv zeta. split; [exact Hcost|]. split; [exact Hframes|].
    split; [reflexivity|]. exists members. auto. }
  destruct (pass_rows a t fuel) as [[|r rows]|e] eqn:Hrows.
  - cbn [fst snd]. destruct (Hsame (Ok 0%nat)) as (H1 & H2 & H3 & m' & H4 & H5 & H6).
    split; [exact H1|]. split; [exact H2|]. split; [exact H3|].
    exists m'. split; [exact H4|]. split; [exact H5|]. split; [auto|].
    intros r0 [= <-]. split; [reflexivity|]. exists []. auto.
  - rewrite append_rows_run. cbv zeta.
    change (dicts (copies_store a s t1)) with (dicts s).
    rewrite (lookup_total_Some _ _ _ Hmem). unfold getitem.
    destruct (members !! "CostVariable") as [old_l|] eqn:Hold.
    2: { cbn [fst snd]. destruct (Hsame (Ok 0%nat)) as (H1 & H2 & H3 & m' & H4 & H5 & H6).
         split; [exact H1|]. split; [exact H2|]. split; [exact H3|].
         exists m'. split; [exact H4|]. split; [exact H5|]. split; [auto|]. discriminate. }
    destruct (Halloc _ _ Hold) as [old Hold_frame].
    rewrite (lookup_total_Some _ _ _ (Hframes _ _ Hold_frame)).
    destruct (pd_DataFrame (r :: rows) (columns old)) as [new_df|e] eqn:Hdf.
    2: { cbn [fst snd]. destruct (Hsame (Ok 0%nat)) as (H1 & H2 & H3 & m' & H4 & H5 & H6).
         split; [exact H1|]. split; [exact H2|]. split; [exact H3|].
         exists m'. split; [exact H4|]. split; [exact H5|]. split; [auto|]. discriminate. }
    apply pd_DataFrame_ok in Hdf. subst new_df.
    cbn [fst snd cost_tables frames dicts].
    set (new_df := mkDataFrame (columns old) (unify_dtypes (r :: rows))).
    set (f1 := frames (copies_store a s t1)) in *.
    set (f2 := <[fresh (dom f1) := new_df]> f1).
    assert (Hf2 : forall l df, frames s !! l = Some df -> f2 !! l = Some df).
    { intros l df Hl. apply lookup_insert_fresh, Hframes, Hl. }
    rewrite (lookup_total_Some _ _ _ (Hf2 _ _ Hold_frame)).
    split; [exact Hcost|].
    split; [intros l df Hl; apply lookup_insert_fresh, Hf2, Hl|].
    split; [intros l Hl; apply lookup_insert_ne; congruence|].
    exists (<["CostVariable" := fresh (dom f2)]> members).
    split; [apply lookup_insert_eq|].
    split; [intros name Hn; apply lookup_insert_ne; congruence|].
    split; [discriminate|].
    intros r0 [= <-]. split; [reflexivity|]. exists (r :: rows). split; [reflexivity|].
    exists old_l, old, (fresh (dom f2)).
    split; [reflexivity|]. split; [exact Hold_frame|]. split.
    { destruct (frames s !! fresh (dom f2)) as [x|] eqn:E; [|reflexivity].
      apply Hf2 in E. rewrite fresh_None in E. discriminate E. }
    split; [apply lookup_insert_eq|]. split; [apply lookup_insert_eq|].
    intros Hk Htext. rewrite lookup_insert_eq. f_equal.
    assert (Hnew : Forall (has_kinds schema_kinds) (r :: rows)).
    { apply (emitted_kinds (world_of a s (map cost_row_of (cast_value (cast_tech_name t1))))).
      rewrite <- Hrows. symmetry. apply pass_rows_core; [exact Hfuel | exact Htext|].
      unfold normalize_cost. rewrite Hcast. reflexivity. }
    unfold new_df. rewrite (unify_same_kinds _ _ Hnew).
    apply (pd_concat_same_kinds schema_kinds); assumption.
  - cbn [fst snd]. destruct (Hsame (Ok 0%nat)) as (H1 & H2 & H3 & m' & H4 & H5 & H6).
    split; [exact H1|]. split; [exact H2|]. split; [exact H3|].
    exists m'. split; [exact H4|]. split; [exact H5|]. split; [auto|]. discriminate.
Qed.

Lemma build_costvariable_frame_witness :
  let s' := fst (build_costvariable_call sample_args sample_store) in
  cost_tables s' !! 0%nat = Some [mkRawCostRow (NFloat 2030) "T_dsl" (NInt 10)]
  /\ frames s' !! 0%nat
     = Some (mkDataFrame ["Commodity"; "notes"] [[CStr "T_dsl"; CStr "transport diesel"]])
  /\ frames s' !! 1%nat = Some (mkDataFrame costvariable_columns [int_prior_row; large_prior_row]).
Proof.
  destruct (build_costvariable_frame sample_args sample_store _ _ _
              SampleCall.sample_cost_table SampleCall.sample_fuel
              SampleCall.sample_members SampleCall.sample_members_allocated)
    as (Hc & Hf & _).
  split; [apply Hc, SampleCall.sample_cost_table|].
  split; [apply Hf, SampleCall.sample_fuel | apply Hf, SampleCall.sample_prior_table].
Defined.

(** C8, as stated, fails: the prior rows are not left as they were when a
    column of the prior table holds ints and the pass brings floats.  In
    the table that the collection holds afterwards a prior value 1 reads
    1.0, and a prior value 9007199254740993 reads 9007199254740992.0. *)
Lemma build_promotes_prior_int_value :
  exists new_l tab,
    snd (build_costvariable_call sample_args sample_store) = Ok 0%nat
    /\ (dicts sample_store !!! 0%nat) !! "CostVariable" = Some 1%nat
    /\ data (frames sample_store !!! 1%nat) = [int_prior_row; large_prior_row]
    /\ (dicts (fst (build_costvariable_call sample_args sample_store)) !!! 0%nat)
         !! "CostVariable" = Some new_l
    /\ frames (fst (build_costvariable_call sample_args sample_store)) !! new_l = Some tab
    /\ (cell_of (columns tab) "value" <$> data tab)
       = [Some (CFloat 1); Some (CFloat 9007199254740992); Some (CFloat 10.9725)]
    /\ cell_of costvariable_columns "value" int_prior_row = Some (CInt 1)
    /\ cell_of costvariable_columns "value" large_prior_row
       = Some (CInt 9007199254740993).
Proof.
  exists 4%nat.
  exists (mkDataFrame costvariable_columns
            [[CStr "QC"; CInt 2020; CStr "OLD"; CInt 2020; CFloat 1; CStr "2020 M$/PJ";
              CStr ""; CStr ""; CInt 2; CInt 3; CInt 2; CInt 1; CInt 1; CStr "FUELQC1"];
             [CStr "QC"; CInt 2025; CStr "OLD"; CInt 2020; CFloat 9007199254740992;
              CStr "2020 M$/PJ"; CStr ""; CStr ""; CInt 2; CInt 3; CInt 2; CInt 1;
              CInt 1; CStr "FUELQC1"];
             [CStr "ON"; CInt 2030; CStr "T_DSL"; CInt 2030; CFloat 10.9725;
              CStr "2020 M$/PJ"; CStr "transport diesel"; CStr ""; CInt 2; CInt 3;
              CInt 2; CInt 1; CInt 1; CStr "FUELON1"]]).
  repeat split; vm_compute; reflexivity.
Qed.

(** X26.  The pass of [build_costvariable] is what the call does once its
    copies are normalised: when the cast of the period column succeeds and
    the cleaned metadata frame holds text, the call returns or raises as
    [build_costvariable] does on the tables of the collection, the cost
    table after the casts and the typed metadata rows, and the tables of
    the collection afterwards are those that it computes.  When the cast
    fails the call raises [ValueError] with the collection as it was. *)
Theorem call_runs_the_pass
    (a : Args) (s : Store) (t : list RawCostRow) (fuel : DataFrame)
    (members : gmap string loc) :
  cost_tables s !! arg_cost_df a = Some t ->
  frames s !! arg_fuel_df a = Some fuel ->
  dicts s !! arg_comb_dict a = Some members ->
  (forall name l, members !! name = Some l -> is_Some (frames s !! l)) ->
  let s' := fst (build_costvariable_call a s) in
  let out := snd (build_costvariable_call a s) in
  (forall e, normalize_cost t = Raise e ->
     e = ValueError /\ out = Raise e
     /\ tables s' (arg_comb_dict a) = tables s (arg_comb_dict a))
  /\ (forall cdf, normalize_cost t = Ok cdf ->
      text_frame (clean_fuel_df fuel) ->
      match snd (build_costvariable (world_of a s cdf)) with
      | Ok d => out = Ok (arg_comb_dict a) /\ tables s' (arg_comb_dict a) = d
      | Raise e =>
          out = Raise e /\ tables s' (arg_comb_dict a) = tables s (arg_comb_dict a)
      end).
Proof.
  intros Ht Hfuel Hmem Halloc s' out. subst s' out. rewrite call_run.
  rewrite (lookup_total_Some _ _ _ Ht), (lookup_total_Some _ _ _ Hfuel).
  unfold normalize_cost.
  assert (Htab : forall s1 : Store,
             dicts s1 = dicts s ->
             (forall l df, frames s !! l = Some df -> frames s1 !! l = Some df) ->
             tables s1 (arg_comb_dict a) = tables s (arg_comb_dict a)).
  { intros s1 Hd Hf. unfold tables. rewrite Hd.
    rewrite (lookup_total_Some _ _ _ Hmem).
    apply map_eq. intros name. rewrite !lookup_fmap.
    destruct (members !! name) as [l|] eqn:El; [|reflexivity]. cbn. f_equal.
    destruct (Halloc _ _ El) as [df Hl].
    rewrite (lookup_total_Some _ _ _ Hl). apply lookup_total_Some, Hf, Hl. }
  destruct (cast_period t) as [t1|e] eqn:Hcast; cbn [mbind result_bind].
  2: { split; [|discriminate]. intros e' [= <-]. cbn [fst snd].
       split; [|split; [reflexivity | apply Htab; [reflexivity | auto]]].
       clear -Hcast. revert e Hcast. induction t as [|r t IH]; intros e; [discriminate|].
       cbn [cast_period]. unfold astype_int.
       destruct (raw_period r) as [n|f]; cbn [mbind result_bind].
       - destruct (cast_period t) as [t'|e']; cbn; [discriminate|].
         intros [= <-]. apply (IH e' eq_refl).
       - destruct (int_of_float f); cbn [mbind result_bind]; [|congruence].
         destruct (cast_period t) as [t'|e']; cbn; [discriminate|].
         intros [= <-]. apply (IH e' eq_refl). }
  split; [discriminate|]. intros cdf [= <-] Htext.
  set (cdf := map cost_row_of (cast_value (cast_tech_name t1))).
  assert (Hframes : forall l df, frames s !! l = Some df ->
                      frames (copies_store a s t1) !! l = Some df).
  { intros l x Hl. apply lookup_insert_fresh, Hl. }
  assert (Hs1 : tables (copies_store a s t1) (arg_comb_dict a)
                = tables s (arg_comb_dict a)).
  { apply Htab; [reflexivity | exact Hframes]. }
  assert (Hcore : pass_rows a t fuel = build_rows (world_of a s cdf)).
  { apply pass_rows_core; [exact Hfuel | exact Htext|].
    unfold normalize_cost. rewrite Hcast. reflexivity. }
  unfold build_costvariable. rewrite <- Hcore.
  destruct (pass_rows a t fuel) as [[|r rows]|e] eqn:Hrows; cbn [fst snd].
  - split; [reflexivity | exact Hs1].
  - pose proof (emitted_kinds (world_of a s cdf) (r :: rows)) as Hnew.
    rewrite <- Hcore in Hnew. specialize (Hnew eq_refl).
    rewrite append_rows_run. cbv zeta.
    change (dicts (copies_store a s t1)) with (dicts s).
    rewrite (lookup_total_Some _ _ _ Hmem). unfold getitem.
    change (comb_dict (world_of a s cdf)) with (tables s (arg_comb_dict a)).
    unfold tables at 1. rewrite (lookup_total_Some _ _ _ Hmem), lookup_fmap.
    destruct (members !! "CostVariable") as [old_l|] eqn:Hold; cbn [fmap option_fmap option_map];
      [|cbn [fst snd]; split; [reflexivity | exact Hs1]].
    destruct (Halloc _ _ Hold) as [old Hold_frame].
    rewrite (lookup_total_Some _ _ _ (Hframes _ _ Hold_frame)).
    rewrite (lookup_total_Some _ _ _ Hold_frame).
    unfold pd_DataFrame.
    destruct (DataFrame_from_rows (r :: rows) (columns old)) as [new_df|e] eqn:Hdf;
      cbn [mbind result_bind fst snd]; [|split; [reflexivity | exact Hs1]].
    assert (Enew : new_df = mkDataFrame (columns old) (r :: rows)).
    { revert Hdf. unfold DataFrame_from_rows. destruct (forallb _ _); congruence. }
    subst new_df. cbn [columns data]. rewrite (unify_same_kinds _ _ Hnew).
    set (new_df := mkDataFrame (columns old) (r :: rows)).
    set (f1 := frames (copies_store a s t1)) in *.
    set (f2 := <[fresh (dom f1) := new_df]> f1).
    assert (Hf2 : forall l df, frames s !! l = Some df -> f2 !! l = Some df).
    { intros l df Hl. apply lookup_insert_fresh, Hframes, Hl. }
    rewrite (lookup_total_Some _ _ _ (Hf2 _ _ Hold_frame)).
    split; [reflexivity|].
    unfold tables. cbn [frames dicts].
    rewrite lookup_total_insert_eq, fmap_insert, lookup_total_insert_eq.
    rewrite (lookup_total_Some _ _ _ Hmem). f_equal.
    apply map_eq. intros name. rewrite !lookup_fmap.
    destruct (members !! name) as [l|] eqn:El; [|reflexivity]. cbn. f_equal.
    destruct (Halloc _ _ El) as [df Hl].
    rewrite (lookup_total_Some _ _ _ Hl).
    apply lookup_total_Some, lookup_insert_fresh, Hf2, Hl.
  - split; [reflexivity | exact Hs1].
Qed.

Lemma call_runs_the_pass_witness :
  exists d,
    snd (build_costvariable (world_of sample_args sample_store [mkCostRow 2030 "T_dsl" 10]))
    = Ok d
    /\ snd (build_costvariable_call sample_args sample_store) = Ok 0%nat
    /\ tables (fst (build_costvariable_call sample_args sample_store)) 0%nat = d.
Proof.
  destruct (call_runs_the_pass sample_args sample_store _ _ _
              SampleCall.sample_cost_table SampleCall.sample_fuel
              SampleCall.sample_members SampleCall.sample_members_allocated)
    as [_ H].
  specialize (H _ SampleCall.sample_normalize SampleCall.sample_fuel_text).
  destruct SampleCall.sample_pass_returns as [d E].
  rewrite E in H. exists d. split; [exact E | exact H].
Defined.

(** ** The casts of the raw cost table *)

Module CastFacts.

Import FloatFacts.





End CastFacts.

Import CastFacts.


